(** * PicomimiGovernor: a model of the CPU power governor and its properties

    The development follows [src/PicomimiGovernor.cpp] and
    [src/PicomimiGovernor.h].  The governor object is a record of its C++
    members; every member function is a function on that record.  What the
    hardware answers during a call (clocks, the ADC, the clock setter, the
    serial port) is an explicit argument of the function that asks for it,
    and what the governor does to the hardware is appended to [hw_log].

    - [uint32_t] and [uint64_t] are [Z] with the wrap-around written out;
    - [float] is IEEE-754 binary32, computed with [SpecFloat] at precision 24;
      every operation rounds to nearest, ties to even, on its own;
    - a call that dereferences a null table pointer has no result ([None]). *)

From Stdlib Require Import ZArith Bool List String Ascii Lia Reals Lra.
From Stdlib Require Import Floats.SpecFloat.
Import ListNotations.
Local Open Scope Z_scope.

(** ** Machine arithmetic *)

Definition u32 (x : Z) : Z := x mod 2 ^ 32.
Definition u64 (x : Z) : Z := x mod 2 ^ 64.

(** Single-precision floating point.  [of_Z] is the conversion of an integer
    (round to nearest, ties to even); [lit n d] is the binary32 number
    nearest to the decimal literal [n/d]. *)
Module F32.
Definition prec : Z := 24.
Definition emax : Z := 128.
Definition float : Type := spec_float.

Definition of_Z (n : Z) : float := binary_normalize prec emax n 0 false.
Definition add : float -> float -> float := SFadd prec emax.
Definition sub : float -> float -> float := SFsub prec emax.
Definition mul : float -> float -> float := SFmul prec emax.
Definition div : float -> float -> float := SFdiv prec emax.
Definition lit (n d : Z) : float := div (of_Z n) (of_Z d).

(** The C comparisons [x < y], [x > y], [x >= y]; each is false when an
    operand is a NaN. *)
Definition lt (x y : float) : bool := SFltb x y.
Definition gt (x y : float) : bool := SFltb y x.
Definition ge (x y : float) : bool := SFleb y x.
Definition le (x y : float) : bool := SFleb x y.

End F32.

Arguments F32.of_Z : simpl never.
Arguments F32.lit : simpl never.
Arguments F32.add : simpl never.
Arguments F32.sub : simpl never.
Arguments F32.mul : simpl never.
Arguments F32.div : simpl never.
Arguments F32.lt : simpl never.
Arguments F32.gt : simpl never.
Arguments F32.ge : simpl never.
Arguments F32.le : simpl never.

Definition float : Type := F32.float.

(** ** Option as the result of a call that may dereference a null table *)

Definition bind {A B : Type} (o : option A) (k : A -> option B) : option B :=
  match o with
  | Some a => k a
  | None => None
  end.

Notation "x <- o ;; k" := (bind o (fun x => k))
  (at level 61, o at next level, right associativity).

(** ** Types of the header *)

Inductive PicomimiChip : Type :=
  | PICOMIMI_RP2040
  | PICOMIMI_RP2350.

Inductive PowerProfile : Type :=
  | PROFILE_ULTRA_LOW
  | PROFILE_POWERSAVE
  | PROFILE_BALANCED
  | PROFILE_PERFORMANCE
  | PROFILE_TURBO
  | PROFILE_COUNT.

(** The enumerator values; profiles are compared through them. *)
Definition ord (p : PowerProfile) : Z :=
  match p with
  | PROFILE_ULTRA_LOW => 0
  | PROFILE_POWERSAVE => 1
  | PROFILE_BALANCED => 2
  | PROFILE_PERFORMANCE => 3
  | PROFILE_TURBO => 4
  | PROFILE_COUNT => 5
  end.

Definition chip_eqb (a b : PicomimiChip) : bool :=
  match a, b with
  | PICOMIMI_RP2040, PICOMIMI_RP2040 | PICOMIMI_RP2350, PICOMIMI_RP2350 => true
  | _, _ => false
  end.

Definition profile_eqb (a b : PowerProfile) : bool := ord a =? ord b.
Definition profile_ltb (a b : PowerProfile) : bool := ord a <? ord b.
Definition profile_leb (a b : PowerProfile) : bool := ord a <=? ord b.

(** The SDK's regulator settings that [_toVreg] can return. *)
Inductive vreg_voltage : Type :=
  | VREG_VOLTAGE_0_85 | VREG_VOLTAGE_0_90 | VREG_VOLTAGE_0_95
  | VREG_VOLTAGE_1_00 | VREG_VOLTAGE_1_05 | VREG_VOLTAGE_1_10
  | VREG_VOLTAGE_1_15 | VREG_VOLTAGE_1_20 | VREG_VOLTAGE_1_25
  | VREG_VOLTAGE_1_30.

(** What the governor asks of the hardware, in the order of the calls
    (the newest event is the head of [hw_log]).  [EvSetClock khz ok] is a
    call of [set_sys_clock_khz] and its answer. *)
Inductive HwEvent : Type :=
  | EvAdcInit
  | EvAdcTempSensor (on : bool)
  | EvAdcSelect (input : Z)
  | EvVreg (v : vreg_voltage)
  | EvBusyWait (us : Z)
  | EvSetClock (khz : Z) (ok : bool)
  | EvWfi
  | EvDelay (ms : Z)
  | EvDelayMicros (us : Z).

(** ** The governor object *)

Record State : Type := Build_State {
  _init : bool;
  _manual : bool;
  _chip : PicomimiChip;
  _profile : PowerProfile;
  _freq_khz : Z;
  _temp : float;
  _last_run_us : Z;
  _run_start_us : Z;
  _total_loop_time_us : Z;
  _total_idle_time_us : Z;
  _period_start_us : Z;
  _avg_load : float;
  _instant_load : float;
  _last_scale_ms : Z;
  _turbo_start_ms : Z;
  _boost_start_ms : Z;
  _override_end_ms : Z;
  _turbo_on : bool;
  _throttled : bool;
  _boost_on : bool;
  _override_on : bool;
  _override_profile : PowerProfile;
  _adc_init : bool;
  _first_run : bool;
  _freq_tbl : option (list Z);
  _volt_tbl : option (list Z);
  _cmd : string;
  hw_log : list HwEvent
}.

Definition set_profile (v : PowerProfile) (s : State) : State :=
  Build_State (_init s) (_manual s) (_chip s) v (_freq_khz s) (_temp s) (_last_run_us s)
    (_run_start_us s) (_total_loop_time_us s) (_total_idle_time_us s) (_period_start_us s)
    (_avg_load s) (_instant_load s) (_last_scale_ms s) (_turbo_start_ms s) (_boost_start_ms s)
    (_override_end_ms s) (_turbo_on s) (_throttled s) (_boost_on s) (_override_on s)
    (_override_profile s) (_adc_init s) (_first_run s) (_freq_tbl s) (_volt_tbl s) (_cmd s) (hw_log
    s).
Definition set_freq_khz (v : Z) (s : State) : State :=
  Build_State (_init s) (_manual s) (_chip s) (_profile s) v (_temp s) (_last_run_us s)
    (_run_start_us s) (_total_loop_time_us s) (_total_idle_time_us s) (_period_start_us s)
    (_avg_load s) (_instant_load s) (_last_scale_ms s) (_turbo_start_ms s) (_boost_start_ms s)
    (_override_end_ms s) (_turbo_on s) (_throttled s) (_boost_on s) (_override_on s)
    (_override_profile s) (_adc_init s) (_first_run s) (_freq_tbl s) (_volt_tbl s) (_cmd s) (hw_log
    s).
Definition set_temp (v : float) (s : State) : State :=
  Build_State (_init s) (_manual s) (_chip s) (_profile s) (_freq_khz s) v (_last_run_us s)
    (_run_start_us s) (_total_loop_time_us s) (_total_idle_time_us s) (_period_start_us s)
    (_avg_load s) (_instant_load s) (_last_scale_ms s) (_turbo_start_ms s) (_boost_start_ms s)
    (_override_end_ms s) (_turbo_on s) (_throttled s) (_boost_on s) (_override_on s)
    (_override_profile s) (_adc_init s) (_first_run s) (_freq_tbl s) (_volt_tbl s) (_cmd s) (hw_log
    s).
Definition set_last_run_us (v : Z) (s : State) : State :=
  Build_State (_init s) (_manual s) (_chip s) (_profile s) (_freq_khz s) (_temp s) v
    (_run_start_us s) (_total_loop_time_us s) (_total_idle_time_us s) (_period_start_us s)
    (_avg_load s) (_instant_load s) (_last_scale_ms s) (_turbo_start_ms s) (_boost_start_ms s)
    (_override_end_ms s) (_turbo_on s) (_throttled s) (_boost_on s) (_override_on s)
    (_override_profile s) (_adc_init s) (_first_run s) (_freq_tbl s) (_volt_tbl s) (_cmd s) (hw_log
    s).
Definition set_total_loop_time_us (v : Z) (s : State) : State :=
  Build_State (_init s) (_manual s) (_chip s) (_profile s) (_freq_khz s) (_temp s) (_last_run_us
    s) (_run_start_us s) v (_total_idle_time_us s) (_period_start_us s) (_avg_load s) (_instant_load
    s) (_last_scale_ms s) (_turbo_start_ms s) (_boost_start_ms s) (_override_end_ms s) (_turbo_on s)
    (_throttled s) (_boost_on s) (_override_on s) (_override_profile s) (_adc_init s) (_first_run s)
    (_freq_tbl s) (_volt_tbl s) (_cmd s) (hw_log s).
Definition set_total_idle_time_us (v : Z) (s : State) : State :=
  Build_State (_init s) (_manual s) (_chip s) (_profile s) (_freq_khz s) (_temp s) (_last_run_us
    s) (_run_start_us s) (_total_loop_time_us s) v (_period_start_us s) (_avg_load s) (_instant_load
    s) (_last_scale_ms s) (_turbo_start_ms s) (_boost_start_ms s) (_override_end_ms s) (_turbo_on s)
    (_throttled s) (_boost_on s) (_override_on s) (_override_profile s) (_adc_init s) (_first_run s)
    (_freq_tbl s) (_volt_tbl s) (_cmd s) (hw_log s).
Definition set_period_start_us (v : Z) (s : State) : State :=
  Build_State (_init s) (_manual s) (_chip s) (_profile s) (_freq_khz s) (_temp s) (_last_run_us
    s) (_run_start_us s) (_total_loop_time_us s) (_total_idle_time_us s) v (_avg_load s)
    (_instant_load s) (_last_scale_ms s) (_turbo_start_ms s) (_boost_start_ms s) (_override_end_ms
    s) (_turbo_on s) (_throttled s) (_boost_on s) (_override_on s) (_override_profile s) (_adc_init
    s) (_first_run s) (_freq_tbl s) (_volt_tbl s) (_cmd s) (hw_log s).
Definition set_avg_load (v : float) (s : State) : State :=
  Build_State (_init s) (_manual s) (_chip s) (_profile s) (_freq_khz s) (_temp s) (_last_run_us
    s) (_run_start_us s) (_total_loop_time_us s) (_total_idle_time_us s) (_period_start_us s) v
    (_instant_load s) (_last_scale_ms s) (_turbo_start_ms s) (_boost_start_ms s) (_override_end_ms
    s) (_turbo_on s) (_throttled s) (_boost_on s) (_override_on s) (_override_profile s) (_adc_init
    s) (_first_run s) (_freq_tbl s) (_volt_tbl s) (_cmd s) (hw_log s).
Definition set_instant_load (v : float) (s : State) : State :=
  Build_State (_init s) (_manual s) (_chip s) (_profile s) (_freq_khz s) (_temp s) (_last_run_us
    s) (_run_start_us s) (_total_loop_time_us s) (_total_idle_time_us s) (_period_start_us s)
    (_avg_load s) v (_last_scale_ms s) (_turbo_start_ms s) (_boost_start_ms s) (_override_end_ms s)
    (_turbo_on s) (_throttled s) (_boost_on s) (_override_on s) (_override_profile s) (_adc_init s)
    (_first_run s) (_freq_tbl s) (_volt_tbl s) (_cmd s) (hw_log s).
Definition set_last_scale_ms (v : Z) (s : State) : State :=
  Build_State (_init s) (_manual s) (_chip s) (_profile s) (_freq_khz s) (_temp s) (_last_run_us
    s) (_run_start_us s) (_total_loop_time_us s) (_total_idle_time_us s) (_period_start_us s)
    (_avg_load s) (_instant_load s) v (_turbo_start_ms s) (_boost_start_ms s) (_override_end_ms s)
    (_turbo_on s) (_throttled s) (_boost_on s) (_override_on s) (_override_profile s) (_adc_init s)
    (_first_run s) (_freq_tbl s) (_volt_tbl s) (_cmd s) (hw_log s).
Definition set_turbo_start_ms (v : Z) (s : State) : State :=
  Build_State (_init s) (_manual s) (_chip s) (_profile s) (_freq_khz s) (_temp s) (_last_run_us
    s) (_run_start_us s) (_total_loop_time_us s) (_total_idle_time_us s) (_period_start_us s)
    (_avg_load s) (_instant_load s) (_last_scale_ms s) v (_boost_start_ms s) (_override_end_ms s)
    (_turbo_on s) (_throttled s) (_boost_on s) (_override_on s) (_override_profile s) (_adc_init s)
    (_first_run s) (_freq_tbl s) (_volt_tbl s) (_cmd s) (hw_log s).
Definition set_boost_start_ms (v : Z) (s : State) : State :=
  Build_State (_init s) (_manual s) (_chip s) (_profile s) (_freq_khz s) (_temp s) (_last_run_us
    s) (_run_start_us s) (_total_loop_time_us s) (_total_idle_time_us s) (_period_start_us s)
    (_avg_load s) (_instant_load s) (_last_scale_ms s) (_turbo_start_ms s) v (_override_end_ms s)
    (_turbo_on s) (_throttled s) (_boost_on s) (_override_on s) (_override_profile s) (_adc_init s)
    (_first_run s) (_freq_tbl s) (_volt_tbl s) (_cmd s) (hw_log s).
Definition set_override_end_ms (v : Z) (s : State) : State :=
  Build_State (_init s) (_manual s) (_chip s) (_profile s) (_freq_khz s) (_temp s) (_last_run_us
    s) (_run_start_us s) (_total_loop_time_us s) (_total_idle_time_us s) (_period_start_us s)
    (_avg_load s) (_instant_load s) (_last_scale_ms s) (_turbo_start_ms s) (_boost_start_ms s) v
    (_turbo_on s) (_throttled s) (_boost_on s) (_override_on s) (_override_profile s) (_adc_init s)
    (_first_run s) (_freq_tbl s) (_volt_tbl s) (_cmd s) (hw_log s).
Definition set_turbo_on (v : bool) (s : State) : State :=
  Build_State (_init s) (_manual s) (_chip s) (_profile s) (_freq_khz s) (_temp s) (_last_run_us
    s) (_run_start_us s) (_total_loop_time_us s) (_total_idle_time_us s) (_period_start_us s)
    (_avg_load s) (_instant_load s) (_last_scale_ms s) (_turbo_start_ms s) (_boost_start_ms s)
    (_override_end_ms s) v (_throttled s) (_boost_on s) (_override_on s) (_override_profile s)
    (_adc_init s) (_first_run s) (_freq_tbl s) (_volt_tbl s) (_cmd s) (hw_log s).
Definition set_throttled (v : bool) (s : State) : State :=
  Build_State (_init s) (_manual s) (_chip s) (_profile s) (_freq_khz s) (_temp s) (_last_run_us
    s) (_run_start_us s) (_total_loop_time_us s) (_total_idle_time_us s) (_period_start_us s)
    (_avg_load s) (_instant_load s) (_last_scale_ms s) (_turbo_start_ms s) (_boost_start_ms s)
    (_override_end_ms s) (_turbo_on s) v (_boost_on s) (_override_on s) (_override_profile s)
    (_adc_init s) (_first_run s) (_freq_tbl s) (_volt_tbl s) (_cmd s) (hw_log s).
Definition set_boost_on (v : bool) (s : State) : State :=
  Build_State (_init s) (_manual s) (_chip s) (_profile s) (_freq_khz s) (_temp s) (_last_run_us
    s) (_run_start_us s) (_total_loop_time_us s) (_total_idle_time_us s) (_period_start_us s)
    (_avg_load s) (_instant_load s) (_last_scale_ms s) (_turbo_start_ms s) (_boost_start_ms s)
    (_override_end_ms s) (_turbo_on s) (_throttled s) v (_override_on s) (_override_profile s)
    (_adc_init s) (_first_run s) (_freq_tbl s) (_volt_tbl s) (_cmd s) (hw_log s).
Definition set_override_on (v : bool) (s : State) : State :=
  Build_State (_init s) (_manual s) (_chip s) (_profile s) (_freq_khz s) (_temp s) (_last_run_us
    s) (_run_start_us s) (_total_loop_time_us s) (_total_idle_time_us s) (_period_start_us s)
    (_avg_load s) (_instant_load s) (_last_scale_ms s) (_turbo_start_ms s) (_boost_start_ms s)
    (_override_end_ms s) (_turbo_on s) (_throttled s) (_boost_on s) v (_override_profile s)
    (_adc_init s) (_first_run s) (_freq_tbl s) (_volt_tbl s) (_cmd s) (hw_log s).
Definition set_override_profile (v : PowerProfile) (s : State) : State :=
  Build_State (_init s) (_manual s) (_chip s) (_profile s) (_freq_khz s) (_temp s) (_last_run_us
    s) (_run_start_us s) (_total_loop_time_us s) (_total_idle_time_us s) (_period_start_us s)
    (_avg_load s) (_instant_load s) (_last_scale_ms s) (_turbo_start_ms s) (_boost_start_ms s)
    (_override_end_ms s) (_turbo_on s) (_throttled s) (_boost_on s) (_override_on s) v (_adc_init s)
    (_first_run s) (_freq_tbl s) (_volt_tbl s) (_cmd s) (hw_log s).
Definition set_first_run (v : bool) (s : State) : State :=
  Build_State (_init s) (_manual s) (_chip s) (_profile s) (_freq_khz s) (_temp s) (_last_run_us
    s) (_run_start_us s) (_total_loop_time_us s) (_total_idle_time_us s) (_period_start_us s)
    (_avg_load s) (_instant_load s) (_last_scale_ms s) (_turbo_start_ms s) (_boost_start_ms s)
    (_override_end_ms s) (_turbo_on s) (_throttled s) (_boost_on s) (_override_on s)
    (_override_profile s) (_adc_init s) v (_freq_tbl s) (_volt_tbl s) (_cmd s) (hw_log s).
Definition set_cmd (v : string) (s : State) : State :=
  Build_State (_init s) (_manual s) (_chip s) (_profile s) (_freq_khz s) (_temp s) (_last_run_us
    s) (_run_start_us s) (_total_loop_time_us s) (_total_idle_time_us s) (_period_start_us s)
    (_avg_load s) (_instant_load s) (_last_scale_ms s) (_turbo_start_ms s) (_boost_start_ms s)
    (_override_end_ms s) (_turbo_on s) (_throttled s) (_boost_on s) (_override_on s)
    (_override_profile s) (_adc_init s) (_first_run s) (_freq_tbl s) (_volt_tbl s) v (hw_log s).
Definition set_hw_log (v : list HwEvent) (s : State) : State :=
  Build_State (_init s) (_manual s) (_chip s) (_profile s) (_freq_khz s) (_temp s) (_last_run_us
    s) (_run_start_us s) (_total_loop_time_us s) (_total_idle_time_us s) (_period_start_us s)
    (_avg_load s) (_instant_load s) (_last_scale_ms s) (_turbo_start_ms s) (_boost_start_ms s)
    (_override_end_ms s) (_turbo_on s) (_throttled s) (_boost_on s) (_override_on s)
    (_override_profile s) (_adc_init s) (_first_run s) (_freq_tbl s) (_volt_tbl s) (_cmd s) v.

Definition log (ev : HwEvent) (s : State) : State :=
  set_hw_log (ev :: hw_log s) s.

(** ** Tables and thresholds *)

Definition RP2040_FREQ : list Z := [50000; 100000; 133000; 200000; 250000].
Definition RP2040_VOLT : list Z := [950; 1000; 1050; 1100; 1150].
Definition RP2350_FREQ : list Z := [50000; 100000; 150000; 250000; 300000].
Definition RP2350_VOLT : list Z := [950; 1000; 1050; 1100; 1250].
Definition PROFILE_NAMES : list string :=
  ["ULTRA_LOW"; "POWERSAVE"; "BALANCED"; "PERFORMANCE"; "TURBO"]%string.

Definition IDLE_THRESHOLD_US : Z := 100.

Definition TURBO_UP : Z := 70.
Definition TURBO_DOWN : Z := 55.
Definition PERF_UP : Z := 45.
Definition PERF_DOWN : Z := 30.
Definition BAL_UP : Z := 20.
Definition BAL_DOWN : Z := 12.
Definition SAVE_DOWN : Z := 5.
Definition ULTRA_DOWN : Z := 2.

Definition LOAD_PERIOD_MS : Z := 200.
Definition SCALE_INTERVAL_MS : Z := 100.
Definition TURBO_MAX_MS : Z := 10000.
Definition BOOST_DURATION_MS : Z := 300.
Definition THERMAL_THROTTLE : float := F32.of_Z 70.
Definition THERMAL_CRITICAL : float := F32.of_Z 80.
Definition THERMAL_RELEASE : float := F32.of_Z 60.
Definition LOAD_SMOOTH : float := F32.lit 3 10.

(** [tbl[p]] through a table pointer: no result through the null pointer. *)
Definition tbl_at (tbl : option (list Z)) (p : PowerProfile) : option Z :=
  match tbl with
  | None => None
  | Some t => nth_error t (Z.to_nat (ord p))
  end.

(** ** The constructor *)

Definition PicomimiGovernorClass : State :=
  {| _init := false; _manual := false; _chip := PICOMIMI_RP2040;
     _profile := PROFILE_BALANCED; _freq_khz := 133000;
     _temp := F32.of_Z 25;
     _last_run_us := 0; _run_start_us := 0; _total_loop_time_us := 0;
     _total_idle_time_us := 0; _period_start_us := 0;
     _avg_load := F32.of_Z 0; _instant_load := F32.of_Z 0;
     _last_scale_ms := 0;
     _turbo_start_ms := 0; _boost_start_ms := 0; _override_end_ms := 0;
     _turbo_on := false; _throttled := false; _boost_on := false;
     _override_on := false; _override_profile := PROFILE_BALANCED;
     _adc_init := false; _first_run := true;
     _freq_tbl := None; _volt_tbl := None;
     _cmd := EmptyString; hw_log := [] |}.

(** ** Internal: setup, voltage, actuation *)

Definition _setupTables (chip : PicomimiChip) : list Z * list Z :=
  (if chip_eqb chip PICOMIMI_RP2350 then RP2350_FREQ else RP2040_FREQ,
   if chip_eqb chip PICOMIMI_RP2350 then RP2350_VOLT else RP2040_VOLT).

Definition _wfi (s : State) : State := log EvWfi s.

Definition _toVreg (mv : Z) : vreg_voltage :=
  if mv <=? 850 then VREG_VOLTAGE_0_85
  else if mv <=? 900 then VREG_VOLTAGE_0_90
  else if mv <=? 950 then VREG_VOLTAGE_0_95
  else if mv <=? 1000 then VREG_VOLTAGE_1_00
  else if mv <=? 1050 then VREG_VOLTAGE_1_05
  else if mv <=? 1100 then VREG_VOLTAGE_1_10
  else if mv <=? 1150 then VREG_VOLTAGE_1_15
  else if mv <=? 1200 then VREG_VOLTAGE_1_20
  else if mv <=? 1250 then VREG_VOLTAGE_1_25
  else VREG_VOLTAGE_1_30.

(** What the hardware answers while [_apply] runs: [hw_now_ms] is the
    millisecond clock if [_apply] reads it, [hw_clk_ok khz] the answer of
    [set_sys_clock_khz (khz, true)]. *)
Record Hw : Type := {
  hw_now_ms : Z;
  hw_clk_ok : Z -> bool
}.

Definition _setFreq (clk_ok : Z -> bool) (khz mv : Z) (s : State) : State :=
  let vr := _toVreg mv in
  let s :=
    if khz >? _freq_khz s then log (EvBusyWait 150) (log (EvVreg vr) s)
    else s in
  if negb (clk_ok khz) then
    let s := log (EvSetClock khz false) s in
    let s := log (EvSetClock 133000 (clk_ok 133000)) s in
    set_freq_khz 133000 s
  else
    let s := log (EvSetClock khz true) s in
    let s := if khz <? _freq_khz s then log (EvVreg vr) s else s in
    set_freq_khz khz s.

Definition _apply (h : Hw) (p : PowerProfile) (s : State) : option State :=
  if profile_leb PROFILE_COUNT p then Some s
  else
    khz <- tbl_at (_freq_tbl s) p ;;
    mv <- tbl_at (_volt_tbl s) p ;;
    let s := _setFreq (hw_clk_ok h) khz mv s in
    let s := set_profile p s in
    if profile_eqb p PROFILE_TURBO && negb (_turbo_on s) then
      Some (set_turbo_on true (set_turbo_start_ms (hw_now_ms h) s))
    else if negb (profile_eqb p PROFILE_TURBO) then
      Some (set_turbo_on false s)
    else Some s.

(** ** Internal: load calculation *)

(** [now_us] is what [time_us_64] answers inside [_updateLoad].  The local
    [work_ratio] of the source is computed and never used. *)
Definition _updateLoad (now_us : Z) (s : State) : State :=
  let period_elapsed := u64 (now_us - _period_start_us s) in
  if period_elapsed <? LOAD_PERIOD_MS * 1000 then s
  else
    let total := _total_loop_time_us s in
    let pct :=
      F32.mul (F32.div (F32.of_Z total) (F32.of_Z period_elapsed))
              (F32.of_Z 100) in
    let s :=
      if total <? IDLE_THRESHOLD_US * 10 then set_instant_load (F32.of_Z 0) s
      else if total <? 1000 then set_instant_load (F32.of_Z 0) s
      else if total <? 10000 then set_instant_load pct s
      else if total <? 50000 then set_instant_load pct s
      else if total <? 100000 then set_instant_load pct s
      else set_instant_load pct s in
    let s :=
      if F32.lt (_instant_load s) (F32.of_Z 0)
      then set_instant_load (F32.of_Z 0) s else s in
    let s :=
      if F32.gt (_instant_load s) (F32.of_Z 100)
      then set_instant_load (F32.of_Z 100) s else s in
    let s :=
      set_avg_load
        (F32.add (F32.mul (_avg_load s) (F32.sub (F32.of_Z 1) LOAD_SMOOTH))
                 (F32.mul (_instant_load s) LOAD_SMOOTH)) s in
    let s := set_period_start_us now_us s in
    set_total_loop_time_us 0 s.

(** ** Internal: scaling *)

(** The upward rules of [_scale], highest target first; the target starts
    as the current profile. *)
Definition scale_up (profile : PowerProfile) (load : float) : PowerProfile :=
  if F32.ge load (F32.of_Z TURBO_UP) && profile_ltb profile PROFILE_TURBO
  then PROFILE_TURBO
  else if F32.ge load (F32.of_Z PERF_UP)
          && profile_ltb profile PROFILE_PERFORMANCE
  then PROFILE_PERFORMANCE
  else if F32.ge load (F32.of_Z BAL_UP) && profile_ltb profile PROFILE_BALANCED
  then PROFILE_BALANCED
  else profile.

(** The downward rules of [_scale]; they overwrite the target. *)
Definition scale_down (profile : PowerProfile) (load : float)
    (target : PowerProfile) : PowerProfile :=
  if profile_eqb profile PROFILE_TURBO && F32.lt load (F32.of_Z TURBO_DOWN)
  then PROFILE_PERFORMANCE
  else if profile_eqb profile PROFILE_PERFORMANCE
          && F32.lt load (F32.of_Z PERF_DOWN)
  then PROFILE_BALANCED
  else if profile_eqb profile PROFILE_BALANCED
          && F32.lt load (F32.of_Z BAL_DOWN)
  then PROFILE_POWERSAVE
  else if profile_eqb profile PROFILE_POWERSAVE
          && F32.lt load (F32.of_Z SAVE_DOWN)
  then PROFILE_ULTRA_LOW
  else target.

(** The target [_scale] computes before it compares it with the profile. *)
Definition scale_target (s : State) : PowerProfile :=
  let target := _profile s in
  let load := _avg_load s in
  let can_up := negb (_throttled s) in
  let target := if can_up then scale_up (_profile s) load else target in
  let target := scale_down (_profile s) load target in
  if _throttled s && profile_ltb PROFILE_BALANCED target
  then PROFILE_BALANCED else target.

Definition _scale (h : Hw) (s : State) : option State :=
  if _boost_on s && profile_leb PROFILE_PERFORMANCE (_profile s) then Some s
  else
    let target := scale_target s in
    if negb (profile_eqb target (_profile s))
    then _apply h target s
    else Some s.

(** ** Internal: thermal *)

(** The temperature the source computes from the ADC reading [raw]. *)
Definition thermal_temp (raw : Z) : float :=
  F32.sub (F32.of_Z 27)
    (F32.div
       (F32.sub
          (F32.mul (F32.of_Z raw) (F32.div (F32.lit 33 10) (F32.of_Z 4096)))
          (F32.lit 706 1000))
       (F32.lit 1721 1000000)).

Definition _thermal (raw : Z) (h : Hw) (s : State) : option State :=
  let s := log (EvAdcSelect 4) s in
  let s := set_temp (thermal_temp raw) s in
  if F32.ge (_temp s) THERMAL_CRITICAL then
    let s := set_throttled true s in
    if profile_ltb PROFILE_POWERSAVE (_profile s)
    then _apply h PROFILE_POWERSAVE s
    else Some s
  else if F32.ge (_temp s) THERMAL_THROTTLE && negb (_throttled s) then
    let s := set_throttled true s in
    if profile_ltb PROFILE_BALANCED (_profile s)
    then _apply h PROFILE_BALANCED s
    else Some s
  else if F32.lt (_temp s) THERMAL_RELEASE then Some (set_throttled false s)
  else Some s.

(** ** Internal: timeouts *)

(** [now] is what [to_ms_since_boot] answers inside [_timeouts]. *)
Definition _timeouts (now : Z) (h : Hw) (s : State) : option State :=
  s <- (if _turbo_on s && (TURBO_MAX_MS <=? u32 (now - _turbo_start_ms s))
        then
          let s := set_turbo_on false s in
          if profile_eqb (_profile s) PROFILE_TURBO
          then _apply h PROFILE_PERFORMANCE s
          else Some s
        else Some s) ;;
  let s :=
    if _boost_on s && (BOOST_DURATION_MS <=? u32 (now - _boost_start_ms s))
    then set_boost_on false s else s in
  let s :=
    if _override_on s && (0 <? _override_end_ms s)
       && (_override_end_ms s <=? now)
    then set_override_end_ms 0 (set_override_on false s) else s in
  Some s.

(** ** Public API *)

(** [now_us] and [now_ms] are the two clock readings of [begin].  Console
    output is not part of the model. *)
Definition begin (chip : PicomimiChip) (manual : bool) (now_us now_ms : Z)
    (s : State) : option State :=
  let '(ft, vt) := _setupTables chip in
  khz <- tbl_at (Some ft) PROFILE_BALANCED ;;
  Some {| _init := true; _manual := manual; _chip := chip;
          _profile := PROFILE_BALANCED; _freq_khz := khz;
          _temp := _temp s;
          _last_run_us := now_us; _run_start_us := now_us;
          _total_loop_time_us := 0; _total_idle_time_us := 0;
          _period_start_us := now_us;
          _avg_load := _avg_load s; _instant_load := _instant_load s;
          _last_scale_ms := now_ms;
          _turbo_start_ms := _turbo_start_ms s;
          _boost_start_ms := _boost_start_ms s;
          _override_end_ms := _override_end_ms s;
          _turbo_on := _turbo_on s; _throttled := _throttled s;
          _boost_on := _boost_on s; _override_on := _override_on s;
          _override_profile := _override_profile s;
          _adc_init := true; _first_run := true;
          _freq_tbl := Some ft; _volt_tbl := Some vt;
          _cmd := _cmd s;
          hw_log := EvAdcTempSensor true :: EvAdcInit :: hw_log s |}.

Definition idle (ms : Z) (s : State) : State :=
  let s := set_total_idle_time_us (u64 (_total_idle_time_us s + u64 (ms * 1000))) s in
  log (EvDelay ms) s.

Definition idleMicros (us : Z) (s : State) : State :=
  let s := set_total_idle_time_us (u64 (_total_idle_time_us s + us)) s in
  log (EvDelayMicros us) s.

(** [now_ms] is the clock reading of [inputBoost]. *)
Definition inputBoost (now_ms : Z) (h : Hw) (s : State) : option State :=
  if negb (_init s) || _throttled s then Some s
  else
    let s := set_boost_start_ms now_ms s in
    let s := set_boost_on true s in
    if profile_ltb (_profile s) PROFILE_PERFORMANCE
    then _apply h PROFILE_PERFORMANCE s
    else Some s.

(** *** Status *)

Definition getFreqMHz (s : State) : Z := _freq_khz s / 1000.
Definition getCPULoad (s : State) : float := _avg_load s.
Definition getTemperature (s : State) : float := _temp s.
Definition getProfile (s : State) : PowerProfile := _profile s.
Definition getProfileName (s : State) : option string :=
  nth_error PROFILE_NAMES (Z.to_nat (ord (_profile s))).
Definition isTurbo (s : State) : bool := _turbo_on s.
Definition isThrottled (s : State) : bool := _throttled s.

(** *** Manual control *)

(** [now_ms] is the clock reading of [setProfile], made when the duration is
    not zero. *)
Definition setProfile (p : PowerProfile) (duration_sec : Z) (now_ms : Z)
    (h : Hw) (s : State) : option State :=
  if profile_leb PROFILE_COUNT p then Some s
  else
    let s := set_override_on true s in
    let s := set_override_profile p s in
    let s :=
      set_override_end_ms
        (if 0 <? duration_sec then u32 (now_ms + u32 (duration_sec * 1000))
         else 0) s in
    _apply h p s.

Definition setTurbo (sec : Z) (now_ms : Z) (h : Hw) (s : State)
    : option State :=
  setProfile PROFILE_TURBO sec now_ms h s.

Definition setPowersave (sec : Z) (now_ms : Z) (h : Hw) (s : State)
    : option State :=
  setProfile PROFILE_POWERSAVE sec now_ms h s.

Definition setAuto (s : State) : State :=
  set_override_end_ms 0 (set_override_on false s).

(** ** Manual mode

    The methods of the Arduino [String] class that [_handleSerial] calls,
    on Rocq strings.  [toInt] is the C library's [atol] on a 32-bit [long]. *)

Definition isspace (c : ascii) : bool :=
  let n := Z.of_nat (nat_of_ascii c) in
  (n =? 32) || ((9 <=? n) && (n <=? 13)).

Definition tolower (c : ascii) : ascii :=
  let n := nat_of_ascii c in
  if ((65 <=? n) && (n <=? 90))%nat then ascii_of_nat (n + 32) else c.

Fixpoint ltrim (s : string) : string :=
  match s with
  | EmptyString => EmptyString
  | String c r => if isspace c then ltrim r else s
  end.

Fixpoint rtrim (s : string) : string :=
  match s with
  | EmptyString => EmptyString
  | String c r =>
      match rtrim r with
      | EmptyString => if isspace c then EmptyString else String c EmptyString
      | r' => String c r'
      end
  end.

Definition trim (s : string) : string := rtrim (ltrim s).

Fixpoint toLowerCase (s : string) : string :=
  match s with
  | EmptyString => EmptyString
  | String c r => String (tolower c) (toLowerCase r)
  end.

Definition startsWith (s p : string) : bool := String.prefix p s.

Fixpoint indexOf (c : ascii) (s : string) : Z :=
  match s with
  | EmptyString => -1
  | String d r =>
      if Ascii.eqb c d then 0
      else let i := indexOf c r in if i <? 0 then -1 else i + 1
  end.

Fixpoint substring (from : nat) (s : string) : string :=
  match from, s with
  | O, _ => s
  | S n, String _ r => substring n r
  | S _, EmptyString => EmptyString
  end.

Fixpoint digits_value (acc : Z) (s : string) : Z :=
  match s with
  | EmptyString => acc
  | String c r =>
      let n := Z.of_nat (nat_of_ascii c) in
      if (48 <=? n) && (n <=? 57) then digits_value (10 * acc + (n - 48)) r
      else acc
  end.

Definition toInt (s : string) : Z :=
  let v :=
    match ltrim s with
    | String "-"%char r => - digits_value 0 r
    | String "+"%char r => digits_value 0 r
    | t => digits_value 0 t
    end in
  Z.max (- 2 ^ 31) (Z.min (2 ^ 31 - 1) v).

(** The seconds argument of a console command: the source's
    [sp = _cmd.indexOf(' '); if (sp > 0) sec = _cmd.substring(sp + 1).toInt()]
    with [sec] a [uint32_t] initialised to [dflt]. *)
Definition command_seconds (cmd : string) (dflt : Z) : Z :=
  let sp := indexOf " "%char cmd in
  if 0 <? sp then u32 (toInt (substring (Z.to_nat (sp + 1)) cmd)) else dflt.

(** One received line, already trimmed and lowered.  [now_ms] is the clock
    reading of [setProfile]. *)
Definition handle_command (cmd : string) (now_ms : Z) (h : Hw) (s : State)
    : option State :=
  if String.eqb cmd "gov" || String.eqb cmd "help" || String.eqb cmd "?"
  then Some s
  else if String.eqb cmd "status" || String.eqb cmd "s" then Some s
  else if String.eqb cmd "auto" || String.eqb cmd "a" then Some (setAuto s)
  else if startsWith cmd "turbo" then
    let sec := command_seconds cmd 30 in
    setTurbo (if 3600 <? sec then 3600 else sec) now_ms h s
  else if startsWith cmd "save" || startsWith cmd "power" then
    let sec := command_seconds cmd 60 in
    setPowersave sec now_ms h s
  else if startsWith cmd "bal" then
    let sec := command_seconds cmd 0 in
    setProfile PROFILE_BALANCED sec now_ms h s
  else if startsWith cmd "perf" then
    let sec := command_seconds cmd 0 in
    setProfile PROFILE_PERFORMANCE sec now_ms h s
  else if startsWith cmd "ultra" || startsWith cmd "low" then
    setProfile PROFILE_ULTRA_LOW 0 now_ms h s
  else Some s.

(** A byte waiting on the serial port, with what the hardware answers while
    the byte is handled. *)
Record SerialByte : Type := {
  sb_char : ascii;
  sb_now_ms : Z;
  sb_hw : Hw
}.

(** The body of the loop of [_handleSerial], for one received byte. *)
Definition serial_byte (b : SerialByte) (s : State) : option State :=
  let c := sb_char b in
  if Ascii.eqb c "010" || Ascii.eqb c "013" then
    let s := set_cmd (toLowerCase (trim (_cmd s))) s in
    s <- (if (0 <? String.length (_cmd s))%nat
          then handle_command (_cmd s) (sb_now_ms b) (sb_hw b) s
          else Some s) ;;
    Some (set_cmd EmptyString s)
  else Some (set_cmd (_cmd s ++ String c EmptyString) s).

(** The loop [while (Serial.available())] over the waiting bytes. *)
Fixpoint _handleSerial (input : list SerialByte) (s : State) : option State :=
  match input with
  | [] => Some s
  | b :: rest => s <- serial_byte b s ;; _handleSerial rest s
  end.

(** ** The tick *)

(** What the hardware answers during one call of [run], by the place that
    asks. *)
Record Env : Type := {
  env_us_entry : Z;     (* time_us_64 () on entry *)
  env_ms : Z;           (* to_ms_since_boot in run *)
  env_us_load : Z;      (* time_us_64 () in _updateLoad *)
  env_adc : Z;          (* adc_read () in _thermal *)
  env_ms_timeouts : Z;  (* to_ms_since_boot in _timeouts *)
  env_hw : Hw;          (* the answers to _apply *)
  env_serial : list SerialByte;
  env_us_exit : Z       (* time_us_64 () before run returns *)
}.

(** The work accounting at the head of [run]. *)
Definition work_time (now_us : Z) (s : State) : Z :=
  let user_code_time := u64 (now_us - _last_run_us s) in
  if user_code_time >? _total_idle_time_us s
  then user_code_time - _total_idle_time_us s
  else 0.

Definition account_work (now_us : Z) (s : State) : State :=
  let s :=
    if negb (_first_run s)
    then set_total_loop_time_us
           (u64 (_total_loop_time_us s + work_time now_us s)) s
    else s in
  let s := set_first_run false s in
  set_total_idle_time_us 0 s.

(** The scale-evaluation cycle of [run]. *)
Definition scale_cycle (e : Env) (now_ms : Z) (s : State) : option State :=
  s <- _thermal (env_adc e) (env_hw e) s ;;
  s <- _timeouts (env_ms_timeouts e) (env_hw e) s ;;
  s <- (if negb (_override_on s) then _scale (env_hw e) s else Some s) ;;
  Some (set_last_scale_ms now_ms s).

Definition run (e : Env) (s : State) : option State :=
  if negb (_init s) then Some s
  else
    let now_us := env_us_entry e in
    let s := account_work now_us s in
    let now_ms := env_ms e in
    let s := _updateLoad (env_us_load e) s in
    s <- (if SCALE_INTERVAL_MS <=? u64 (now_ms - _last_scale_ms s)
          then scale_cycle e now_ms s else Some s) ;;
    let s :=
      if chip_eqb (_chip s) PICOMIMI_RP2350
         && profile_eqb (_profile s) PROFILE_ULTRA_LOW
         && F32.lt (_avg_load s) (F32.of_Z ULTRA_DOWN)
         && negb (_throttled s)
      then _wfi s else s in
    s <- (if _manual s then _handleSerial (env_serial e) s else Some s) ;;
    Some (set_last_run_us (env_us_exit e) s).

(** ** Calls of the host application

    After [begin], the application calls the public functions in any order;
    each call comes with what the hardware answers during it. *)

Inductive Call : Type :=
  | CallRun (e : Env)
  | CallIdle (ms : Z)
  | CallIdleMicros (us : Z)
  | CallInputBoost (now_ms : Z) (h : Hw)
  | CallSetProfile (p : PowerProfile) (duration_sec : Z) (now_ms : Z) (h : Hw)
  | CallSetTurbo (sec : Z) (now_ms : Z) (h : Hw)
  | CallSetPowersave (sec : Z) (now_ms : Z) (h : Hw)
  | CallSetAuto.

Definition call (c : Call) (s : State) : option State :=
  match c with
  | CallRun e => run e s
  | CallIdle ms => Some (idle ms s)
  | CallIdleMicros us => Some (idleMicros us s)
  | CallInputBoost now_ms h => inputBoost now_ms h s
  | CallSetProfile p d now_ms h => setProfile p d now_ms h s
  | CallSetTurbo d now_ms h => setTurbo d now_ms h s
  | CallSetPowersave d now_ms h => setPowersave d now_ms h s
  | CallSetAuto => Some (setAuto s)
  end.

Fixpoint calls (cs : list Call) (s : State) : option State :=
  match cs with
  | [] => Some s
  | c :: rest => s' <- call c s ;; calls rest s'
  end.

(** A call of automatic operation: a tick during which no byte is waiting
    on the console, an input boost, or an idle annotation. *)
Definition automatic (c : Call) : bool :=
  match c with
  | CallRun e => match env_serial e with [] => true | _ => false end
  | CallIdle _ | CallIdleMicros _ | CallInputBoost _ _ => true
  | _ => false
  end.

(** ** Well-formed governor objects

    Both table pointers point to five entries and the profile is one of the
    five operating points.  [begin] establishes this and every call keeps
    it. *)

Definition tables_ok (s : State) : bool :=
  match _freq_tbl s, _volt_tbl s with
  | Some ft, Some vt => (List.length ft =? 5)%nat && (List.length vt =? 5)%nat
  | _, _ => false
  end.

Definition wf (s : State) : bool :=
  tables_ok s && profile_ltb (_profile s) PROFILE_COUNT.

(** The state [_apply] leaves when it applies a valid profile [p]: [khz] and
    [lg] are the frequency and the hardware log that [_setFreq] leaves. *)
Definition applied (h : Hw) (p : PowerProfile) (khz : Z) (lg : list HwEvent)
    (s : State) : State :=
  set_turbo_on (profile_eqb p PROFILE_TURBO)
    (set_turbo_start_ms
       (if profile_eqb p PROFILE_TURBO && negb (_turbo_on s)
        then hw_now_ms h else _turbo_start_ms s)
       (set_profile p (set_freq_khz khz (set_hw_log lg s)))).

(** ** Hysteresis bands

    For a profile, the threshold of its downward rule and the threshold of
    the lowest upward rule that can move it.  Between the two no rule of
    [_scale] fires.  The band is at least as wide as the one between the
    profile's own DOWN and UP constants. *)

Definition down_threshold (p : PowerProfile) : option Z :=
  match p with
  | PROFILE_TURBO => Some TURBO_DOWN
  | PROFILE_PERFORMANCE => Some PERF_DOWN
  | PROFILE_BALANCED => Some BAL_DOWN
  | PROFILE_POWERSAVE => Some SAVE_DOWN
  | _ => None
  end.

Definition up_threshold (p : PowerProfile) : option Z :=
  match p with
  | PROFILE_ULTRA_LOW | PROFILE_POWERSAVE => Some BAL_UP
  | PROFILE_BALANCED => Some PERF_UP
  | PROFILE_PERFORMANCE => Some TURBO_UP
  | _ => None
  end.

Definition in_band (p : PowerProfile) (load : float) : bool :=
  match down_threshold p with
  | Some d => F32.le (F32.of_Z d) load
  | None => true
  end
  &&
  match up_threshold p with
  | Some u => F32.lt load (F32.of_Z u)
  | None => true
  end.

(** Scale steps one after the other, each with its own hardware answers. *)
Fixpoint scales (hs : list Hw) (s : State) : option State :=
  match hs with
  | [] => Some s
  | h :: rest => s' <- _scale h s ;; scales rest s'
  end.

(** The order of two positive finite binary32 constants, read off their
    exponents and mantissas. *)
Definition lex_le (a b : spec_float) : bool :=
  match a, b with
  | S754_finite false ma ea, S754_finite false mb eb =>
      (ea <? eb) || ((ea =? eb) && (ma <=? mb)%positive)
  | _, _ => false
  end.

(** The governor right after [begin], called on a freshly constructed
    object. *)
Definition after_begin (chip : PicomimiChip) (manual : bool)
    (now_us now_ms : Z) : State :=
  match begin chip manual now_us now_ms PicomimiGovernorClass with
  | Some s => s
  | None => PicomimiGovernorClass
  end.

(** ** The load recomputation in the words of the specification

    The instantaneous load of a period with [work] microseconds of work in
    [elapsed] microseconds of wall time: zero below ten times the
    loop-overhead threshold, else the percentage clamped to [0, 100]; and
    the smoothing step. *)
Definition clamp_load (x : float) : float :=
  if F32.lt x (F32.of_Z 0) then F32.of_Z 0
  else if F32.gt x (F32.of_Z 100) then F32.of_Z 100
  else x.

Definition load_sample (work elapsed : Z) : float :=
  if work <? 10 * IDLE_THRESHOLD_US then F32.of_Z 0
  else clamp_load
         (F32.mul (F32.div (F32.of_Z work) (F32.of_Z elapsed)) (F32.of_Z 100)).

Definition smooth (avg inst : float) : float :=
  F32.add (F32.mul avg (F32.sub (F32.of_Z 1) LOAD_SMOOTH))
          (F32.mul inst LOAD_SMOOTH).

(** ** The thermal step in the words of the specification

    [thermal_spec t s s'] relates the governor before and after a thermal
    step that measured the temperature [t]: the chain of the specification,
    first case first.  In every case it fixes the throttled flag and the
    profile that the step leaves. *)
Definition cap_profile (cap p : PowerProfile) : PowerProfile :=
  if profile_ltb cap p then cap else p.

Definition thermal_spec (t : float) (s s' : State) : Prop :=
  if F32.ge t THERMAL_CRITICAL then
    _throttled s' = true
    /\ _profile s' = cap_profile PROFILE_POWERSAVE (_profile s)
  else if F32.ge t THERMAL_THROTTLE && negb (_throttled s) then
    _throttled s' = true
    /\ _profile s' = cap_profile PROFILE_BALANCED (_profile s)
  else if F32.lt t THERMAL_RELEASE then
    _throttled s' = false /\ _profile s' = _profile s
  else
    _throttled s' = _throttled s /\ _profile s' = _profile s.

(** ** Calls before [begin]

    The calls that return on an object that was never initialised: the
    tick, the idle annotations, the input boost and [setAuto]. *)
Definition pre_begin_call (c : Call) : bool :=
  match c with
  | CallRun _ | CallIdle _ | CallIdleMicros _ | CallInputBoost _ _
  | CallSetAuto => true
  | _ => false
  end.

(** ** The state of the load sampler

    The members that only the work accounting and the load recomputation
    write. *)
Definition sampler (s : State) : Z * Z * Z * bool * float * float :=
  (_total_loop_time_us s, _total_idle_time_us s, _period_start_us s,
   _first_run s, _avg_load s, _instant_load s).

(** The work a tick adds to the period total, in the words of the
    specification: nothing on the first tick, and otherwise the time since
    the previous tick less the annotated idle time, floored at zero. *)
Definition work_added (now_us : Z) (s : State) : Z :=
  if _first_run s then 0
  else Z.max (u64 (now_us - _last_run_us s) - _total_idle_time_us s) 0.

(** ** Invariants of the control state *)

(** What [begin] fixes for the lifetime of the object. *)
Definition config (s : State)
    : bool * bool * PicomimiChip * option (list Z) * option (list Z) :=
  (_init s, _manual s, _chip s, _freq_tbl s, _volt_tbl s).

(** Turbo-active implies that the current profile is TURBO. *)
Definition turbo_inv (s : State) : bool :=
  implb (_turbo_on s) (profile_eqb (_profile s) PROFILE_TURBO).

(** While throttled the profile is at most the one of ordinal [b]; with
    [b] the ordinal of BALANCED this is the throttle cap. *)
Definition capped_at (b : Z) (s : State) : bool :=
  implb (_throttled s) (ord (_profile s) <=? b).

(** What every control step keeps: well-formedness, the sampler, the
    configuration and the turbo invariant. *)
Definition step_ok (s s' : State) : Prop :=
  wf s' = true
  /\ sampler s' = sampler s
  /\ config s' = config s
  /\ (turbo_inv s = true -> turbo_inv s' = true).

(** The governor after the sampler part of a tick: the work accounting
    and the load recomputation. *)
Definition sampled (e : Env) (s : State) : State :=
  _updateLoad (env_us_load e) (account_work (env_us_entry e) s).

(** ** The value of a binary32 number

    [bpow e] is 2 to the power [e], [fval x] the real number that a finite
    [x] stands for. *)
Definition bpow (e : Z) : R := powerRZ 2 e.

Definition fval (x : spec_float) : R :=
  match x with
  | S754_finite false m e => (IZR (Zpos m) * bpow e)%R
  | S754_finite true m e => (- (IZR (Zpos m) * bpow e))%R
  | _ => 0%R
  end.

(** A positive mantissa and an exponent in the canonical form of binary32:
    at most 24 bits, the exponent at least -149, and a full 24-bit mantissa
    unless the exponent is the least one. *)
Definition canon (m : positive) (e : Z) : Prop :=
  -149 <= e /\ Zpos m < 2 ^ 24 /\ (e = -149 \/ 2 ^ 23 <= Zpos m).

(** The finite nonnegative canonical numbers. *)
Definition good (x : spec_float) : Prop :=
  match x with
  | S754_zero _ => True
  | S754_finite false m e => canon m e
  | _ => False
  end.

(** Nonnegative results: a zero, an infinity or a finite number with the
    sign bit clear. *)
Definition nonneg (x : spec_float) : Prop :=
  match x with
  | S754_nan => False
  | S754_zero s | S754_infinity s | S754_finite s _ _ => s = false
  end.

(** A load within [0, 100], and a governor whose two loads are. *)
Definition load_ok (x : spec_float) : Prop := good x /\ (fval x <= 100)%R.

Definition loads_ok (s : State) : Prop :=
  load_ok (_avg_load s) /\ load_ok (_instant_load s).

(** ** The upward rules in the words of the specification

    The threshold of the upward rule with target [t], and whether that rule
    applies at the profile [p] and the smoothed load [load]: the load is at
    or above the threshold and the profile is below the target. *)
Definition up_rule (t : PowerProfile) : option Z :=
  match t with
  | PROFILE_TURBO => Some TURBO_UP
  | PROFILE_PERFORMANCE => Some PERF_UP
  | PROFILE_BALANCED => Some BAL_UP
  | _ => None
  end.

Definition up_applies (p : PowerProfile) (load : float) (t : PowerProfile)
    : bool :=
  match up_rule t with
  | Some u => F32.ge load (F32.of_Z u) && profile_ltb p t
  | None => false
  end.

(** ** Ticks inside the hysteresis band

    A tick at which no byte waits on the console, the smoothed load that the
    scale step sees lies in the band of the current profile, the measured
    temperature is below the warn threshold and the turbo ceiling is not
    reached; and a sequence of ticks each of which is such a tick in the
    state the governor has when it comes. *)
Definition quiet_tick (e : Env) (s : State) : bool :=
  match env_serial e with [] => true | _ => false end
  && in_band (_profile s) (_avg_load (sampled e s))
  && negb (F32.ge (thermal_temp (env_adc e)) THERMAL_THROTTLE)
  && negb (_turbo_on s
           && (TURBO_MAX_MS <=? u32 (env_ms_timeouts e - _turbo_start_ms s))).

Fixpoint quiet_ticks (es : list Env) (s : State) : bool :=
  match es with
  | [] => true
  | e :: rest =>
      quiet_tick e s
      && match run e s with
         | Some s' => quiet_ticks rest s'
         | None => false
         end
  end.

(** ** Regulator settings in millivolts

    The output voltage that the name of an SDK regulator setting gives. *)
Definition vreg_mv (v : vreg_voltage) : Z :=
  match v with
  | VREG_VOLTAGE_0_85 => 850
  | VREG_VOLTAGE_0_90 => 900
  | VREG_VOLTAGE_0_95 => 950
  | VREG_VOLTAGE_1_00 => 1000
  | VREG_VOLTAGE_1_05 => 1050
  | VREG_VOLTAGE_1_10 => 1100
  | VREG_VOLTAGE_1_15 => 1150
  | VREG_VOLTAGE_1_20 => 1200
  | VREG_VOLTAGE_1_25 => 1250
  | VREG_VOLTAGE_1_30 => 1300
  end.

(** ** The actuation state

    The members that only [begin] and [_apply] write: the profile, the
    recorded frequency and the two table pointers. *)
Definition actuation (s : State)
    : PowerProfile * Z * option (list Z) * option (list Z) :=
  (_profile s, _freq_khz s, _freq_tbl s, _volt_tbl s).

(** The hardware answers that a call hands to [_apply]. *)
Definition call_hw (c : Call) : list Hw :=
  match c with
  | CallRun e => env_hw e :: map sb_hw (env_serial e)
  | CallInputBoost _ h => [h]
  | CallSetProfile _ _ _ h => [h]
  | CallSetTurbo _ _ h => [h]
  | CallSetPowersave _ _ h => [h]
  | CallIdle _ | CallIdleMicros _ | CallSetAuto => []
  end.

(** A clock setter that accepts every request. *)
Definition clock_accepts (h : Hw) : Prop :=
  forall khz, hw_clk_ok h khz = true.

(** The recorded frequency is the table entry of the current profile. *)
Definition freq_exact (s : State) : Prop :=
  tbl_at (_freq_tbl s) (_profile s) = Some (_freq_khz s).

(** The recorded frequency is the table entry of the current profile or
    the fallback frequency of [_setFreq]. *)
Definition freq_known (s : State) : Prop :=
  freq_exact s \/ _freq_khz s = 133000.

(** The hardware requests of a successful [_setFreq] from the profile
    [from] to the profile [to], newest first. *)
Definition actuation_events (from to : PowerProfile) (khz mv : Z)
    : list HwEvent :=
  if ord from <? ord to
  then [EvSetClock khz true; EvBusyWait 150; EvVreg (_toVreg mv)]
  else if ord to <? ord from
  then [EvVreg (_toVreg mv); EvSetClock khz true]
  else [EvSetClock khz true].

(** ** The scale step as a function of the profile

    The profile that [_scale] leaves, from the throttled flag, the boost
    flag, the smoothed load and the current profile. *)
Definition scale_next (thr boost : bool) (load : float) (p : PowerProfile)
    : PowerProfile :=
  if boost && profile_leb PROFILE_PERFORMANCE p then p
  else
    let target := if negb thr then scale_up p load else p in
    let target := scale_down p load target in
    if thr && profile_ltb PROFILE_BALANCED target
    then PROFILE_BALANCED else target.

(** [scale_next] as a function of the seven comparisons of the load with
    the thresholds: [g70], [g45], [g20] are [load >= 70], [load >= 45],
    [load >= 20], and [l55], [l30], [l12], [l5] are [load < 55],
    [load < 30], [load < 12], [load < 5]. *)
Definition scale_next_on (thr boost g70 g45 g20 l55 l30 l12 l5 : bool)
    (p : PowerProfile) : PowerProfile :=
  if boost && profile_leb PROFILE_PERFORMANCE p then p
  else
    let target :=
      if negb thr then
        if g70 && profile_ltb p PROFILE_TURBO then PROFILE_TURBO
        else if g45 && profile_ltb p PROFILE_PERFORMANCE
        then PROFILE_PERFORMANCE
        else if g20 && profile_ltb p PROFILE_BALANCED then PROFILE_BALANCED
        else p
      else p in
    let target :=
      if profile_eqb p PROFILE_TURBO && l55 then PROFILE_PERFORMANCE
      else if profile_eqb p PROFILE_PERFORMANCE && l30 then PROFILE_BALANCED
      else if profile_eqb p PROFILE_BALANCED && l12 then PROFILE_POWERSAVE
      else if profile_eqb p PROFILE_POWERSAVE && l5 then PROFILE_ULTRA_LOW
      else target in
    if thr && profile_ltb PROFILE_BALANCED target
    then PROFILE_BALANCED else target.

(** ** The accounting counters

    The two 64-bit accumulators hold values of their type. *)
Definition counters_ok (s : State) : Prop :=
  0 <= _total_loop_time_us s < 2 ^ 64
  /\ 0 <= _total_idle_time_us s < 2 ^ 64.

(** On the RP2040 the governor has never executed WFI. *)
Definition no_wfi (s : State) : Prop :=
  _chip s = PICOMIMI_RP2040 -> ~ In EvWfi (hw_log s).

(** ** The control state

    The members that the scale-evaluation cycle and the manual controls
    write. *)
Definition control (s : State)
    : PowerProfile * Z * option (list Z) * option (list Z) * float
      * bool * bool * Z * bool * Z * bool * Z * PowerProfile * Z :=
  (actuation s, _temp s, _throttled s, _turbo_on s, _turbo_start_ms s,
   _boost_on s, _boost_start_ms s, _override_on s, _override_end_ms s,
   _override_profile s, _last_scale_ms s).

(** A byte that ends a line on the console. *)
Definition is_eol (c : ascii) : bool :=
  Ascii.eqb c "010" || Ascii.eqb c "013".

(** What the console cannot change: the sampler, the configuration, the
    thermal state, the boost and the time stamps of the tick. *)
Definition beyond_console (s : State)
    : (Z * Z * Z * bool * float * float)
      * (bool * bool * PicomimiChip * option (list Z) * option (list Z))
      * float * bool * bool * Z * Z * Z :=
  (sampler s, config s, _temp s, _throttled s, _boost_on s,
   _boost_start_ms s, _last_scale_ms s, _last_run_us s).

(** * Properties *)

(** ** Basic facts *)

Lemma bind_some {A B : Type} (o : option A) (k : A -> option B) (a : A) :
  o = Some a -> bind o k = k a.
Proof. intros ->. reflexivity. Qed.

Lemma ord_inj (p q : PowerProfile) : ord p = ord q -> p = q.
Proof. destruct p, q; simpl; intros H; try reflexivity; discriminate H. Qed.

Lemma profile_eqb_eq (p q : PowerProfile) : profile_eqb p q = true <-> p = q.
Proof.
  unfold profile_eqb. rewrite Z.eqb_eq. split; [apply ord_inj | now intros ->].
Qed.

Lemma ord_range (p : PowerProfile) : 0 <= ord p <= 5.
Proof. destruct p; simpl; lia. Qed.

Lemma wf_tables (s : State) :
  wf s = true ->
  exists f0 f1 f2 f3 f4 v0 v1 v2 v3 v4,
    _freq_tbl s = Some [f0; f1; f2; f3; f4] /\
    _volt_tbl s = Some [v0; v1; v2; v3; v4].
Proof.
  unfold wf, tables_ok. intros H. apply andb_prop in H as [H _].
  destruct (_freq_tbl s) as [ft|]; [|discriminate].
  destruct (_volt_tbl s) as [vt|]; [|discriminate].
  apply andb_prop in H as [Hf Hv].
  apply Nat.eqb_eq in Hf. apply Nat.eqb_eq in Hv.
  do 6 (destruct ft as [|? ft]; try discriminate Hf).
  do 6 (destruct vt as [|? vt]; try discriminate Hv).
  repeat eexists.
Qed.

Lemma wf_profile (s : State) : wf s = true -> ord (_profile s) < 5.
Proof.
  unfold wf, profile_ltb. intros H. apply andb_prop in H as [_ H].
  apply Z.ltb_lt in H. exact H.
Qed.

Lemma setFreq_shape (ok : Z -> bool) (khz mv : Z) (s : State) :
  exists khz' lg,
    _setFreq ok khz mv s = set_freq_khz khz' (set_hw_log lg s).
Proof.
  unfold _setFreq, log.
  destruct (khz >? _freq_khz s), (ok khz); simpl;
    try destruct (khz <? _); destruct s; simpl; eexists; eexists; reflexivity.
Qed.

Lemma apply_shape (h : Hw) (p : PowerProfile) (s : State) :
  wf s = true -> ord p < 5 ->
  exists khz lg, _apply h p s = Some (applied h p khz lg s).
Proof.
  intros Hwf Hp.
  destruct (wf_tables s Hwf)
    as (f0 & f1 & f2 & f3 & f4 & v0 & v1 & v2 & v3 & v4 & Ef & Ev).
  unfold _apply, tbl_at. rewrite Ef, Ev.
  assert (Hc : profile_leb PROFILE_COUNT p = false)
    by (unfold profile_leb; apply Z.leb_gt; exact Hp).
  rewrite Hc.
  assert (exists khz mv,
            nth_error [f0; f1; f2; f3; f4] (Z.to_nat (ord p)) = Some khz /\
            nth_error [v0; v1; v2; v3; v4] (Z.to_nat (ord p)) = Some mv)
    as (khz & mv & -> & ->).
  { destruct p; simpl in Hp; try lia; simpl; eauto. }
  simpl bind.
  destruct (setFreq_shape (hw_clk_ok h) khz mv s) as (khz' & lg & ->).
  exists khz', lg. unfold applied.
  destruct s; simpl.
  destruct (profile_eqb p PROFILE_TURBO), _turbo_on0; reflexivity.
Qed.

Lemma apply_invalid (h : Hw) (p : PowerProfile) (s : State) :
  5 <= ord p -> _apply h p s = Some s.
Proof.
  intros Hp. unfold _apply.
  replace (profile_leb PROFILE_COUNT p) with true; [reflexivity|].
  symmetry. unfold profile_leb. apply Z.leb_le. exact Hp.
Qed.

Lemma applied_wf (h : Hw) (p : PowerProfile) (khz : Z) (lg : list HwEvent)
    (s : State) :
  wf s = true -> ord p < 5 -> wf (applied h p khz lg s) = true.
Proof.
  unfold wf, tables_ok, applied, profile_ltb. intros H Hp.
  apply andb_prop in H as [H _]. simpl. rewrite H. simpl.
  apply Z.ltb_lt. exact Hp.
Qed.

(** ** Comparison of binary32 numbers *)

Lemma SFcompare_antisym (x y : spec_float) :
  SFcompare y x = option_map CompOpp (SFcompare x y).
Proof.
  destruct x as [sx|sx| |sx mx ex], y as [sy|sy| |sy my ey]; simpl;
    try destruct sx; try destruct sy; try reflexivity;
    rewrite (Z.compare_antisym ex ey);
    destruct (ex ?= ey); simpl; try reflexivity;
    repeat f_equal; symmetry; exact (Pos.compare_cont_antisym mx my Eq).
Qed.

Lemma finite_compare (m1 m2 : positive) (e1 e2 : Z) :
  SFcompare (S754_finite false m1 e1) (S754_finite false m2 e2)
  = Some (match e1 ?= e2 with
          | Lt => Lt | Gt => Gt | Eq => (m1 ?= m2)%positive end).
Proof. reflexivity. Qed.

Ltac cmp_cases :=
  repeat match goal with
         | |- context [Z.compare ?a ?b] => destruct (Z.compare_spec a b)
         | |- context [Pos.compare ?a ?b] => destruct (Pos.compare_spec a b)
         end.

Lemma lex_le_spec a b : lex_le a b = true ->
  exists ma ea mb eb, a = S754_finite false ma ea /\ b = S754_finite false mb eb
   /\ (ea < eb \/ (ea = eb /\ (ma <= mb)%positive)).
Proof.
  destruct a as [| | |[] ma ea], b as [| | |[] mb eb]; simpl; try discriminate.
  intros H. exists ma, ea, mb, eb. repeat split.
  apply orb_prop in H as [H|H]; [left; lia|right].
  apply andb_prop in H as [H1 H2]. split; [lia|]. apply Pos.leb_le. exact H2.
Qed.

Lemma SFleb_lower_mono (a b x : spec_float) :
  lex_le a b = true -> SFleb b x = true -> SFleb a x = true.
Proof.
  intros H. destruct (lex_le_spec a b H) as (ma & ea & mb & eb & -> & -> & Hle).
  unfold SFleb.
  destruct x as [s|s| |s m e]; try destruct s; simpl; try congruence.
  change (PosDef.Pos.compare_cont Eq mb m) with (mb ?= m)%positive.
  change (PosDef.Pos.compare_cont Eq ma m) with (ma ?= m)%positive.
  cmp_cases; try congruence; try lia.
Qed.

Lemma SFltb_upper_mono (a b x : spec_float) :
  lex_le a b = true -> SFltb x a = true -> SFleb b x = false.
Proof.
  intros H. destruct (lex_le_spec a b H) as (ma & ea & mb & eb & -> & -> & Hle).
  unfold SFleb, SFltb.
  destruct x as [s|s| |s m e]; try destruct s; simpl; try congruence.
  change (PosDef.Pos.compare_cont Eq mb m) with (mb ?= m)%positive.
  change (PosDef.Pos.compare_cont Eq m ma) with (m ?= ma)%positive.
  cmp_cases; try congruence; try lia.
Qed.

Lemma le_not_lt (x y : float) : F32.le x y = true -> F32.lt y x = false.
Proof.
  unfold F32.le, F32.lt, SFleb, SFltb. rewrite (SFcompare_antisym x y).
  destruct (SFcompare x y) as [[ | | ]|]; simpl; congruence.
Qed.

Lemma lt_not_ge (x y : float) : F32.lt x y = true -> F32.ge x y = false.
Proof.
  unfold F32.ge, F32.lt, SFleb, SFltb. rewrite (SFcompare_antisym x y).
  destruct (SFcompare x y) as [[ | | ]|]; simpl; congruence.
Qed.

(** ** The scale step *)

Lemma PowerProfile_eq_dec (p q : PowerProfile) : {p = q} + {p <> q}.
Proof. decide equality. Defined.

(** C8, as the claim states it, fails: from ULTRA_LOW at a smoothed load of
    70 the upward rules choose TURBO, four steps up, and [_scale] applies
    it. *)
Lemma C8_counterexample :
  ord (scale_up PROFILE_ULTRA_LOW (F32.of_Z 70)) > ord PROFILE_ULTRA_LOW + 1
  /\ option_map _profile
       (bind (begin PICOMIMI_RP2040 false 0 0 PicomimiGovernorClass)
          (fun s =>
             _scale {| hw_now_ms := 0; hw_clk_ok := fun _ => true |}
               (set_avg_load (F32.of_Z 70)
                  (set_profile PROFILE_ULTRA_LOW s))))
     = Some PROFILE_TURBO.
Proof. split; vm_compute; reflexivity. Qed.

(** C8 (amended): the upward rules choose one target per cycle, the highest
    target whose rule applies (TURBO at a load of 70 or more, PERFORMANCE at
    45 or more, BALANCED at 20 or more, each only from a profile below it),
    and the current profile exactly when no rule applies.  So the target is
    never below the current profile, and it can be more than one step above
    it.  The rules are consulted only when the governor is not throttled:
    then the target of the scale step is the upward target unless a
    downward rule replaces it, and when the governor is throttled the target
    of the scale step is never above the current profile. *)
Theorem C8_scale_up_highest_target (s : State) :
  let p := _profile s in
  let load := _avg_load s in
  (forall t, up_applies p load t = true -> ord t <= ord (scale_up p load))
  /\ (scale_up p load <> p -> up_applies p load (scale_up p load) = true)
  /\ (scale_up p load = p <-> forall t, up_applies p load t = false)
  /\ ord p <= ord (scale_up p load)
  /\ (_throttled s = false ->
      scale_target s = scale_down p load (scale_up p load))
  /\ (_throttled s = true -> ord (scale_target s) <= ord p).
Proof.
  cbv zeta.
  assert (Hthr : _throttled s = true ->
                 ord (scale_target s) <= ord (_profile s)).
  { intros Ht. unfold scale_target, scale_down. rewrite Ht.
    cbn [negb andb].
    destruct (F32.lt (_avg_load s) (F32.of_Z TURBO_DOWN)),
             (F32.lt (_avg_load s) (F32.of_Z PERF_DOWN)),
             (F32.lt (_avg_load s) (F32.of_Z BAL_DOWN)),
             (F32.lt (_avg_load s) (F32.of_Z SAVE_DOWN));
      destruct (_profile s); cbn; lia. }
  assert (Hfree : _throttled s = false ->
                  scale_target s
                  = scale_down (_profile s) (_avg_load s)
                      (scale_up (_profile s) (_avg_load s))).
  { intros Ht. unfold scale_target. rewrite Ht. reflexivity. }
  generalize (_profile s) (_avg_load s) Hthr Hfree. clear Hthr Hfree.
  intros p load Hthr Hfree.
  assert (Hmax : forall t, up_applies p load t = true ->
                           ord t <= ord (scale_up p load)).
  { intros t. unfold up_applies, up_rule, scale_up.
    destruct p, t; cbn;
      repeat match goal with
             | |- context [F32.ge ?a ?b] => destruct (F32.ge a b)
             end;
      cbn; intros H; try discriminate H; lia. }
  assert (Hfire : scale_up p load <> p ->
                  up_applies p load (scale_up p load) = true).
  { unfold scale_up.
    destruct (F32.ge load (F32.of_Z TURBO_UP)) eqn:E70,
             (F32.ge load (F32.of_Z PERF_UP)) eqn:E45,
             (F32.ge load (F32.of_Z BAL_UP)) eqn:E20;
      destruct p; cbn; intros H; try congruence;
      unfold up_applies, up_rule; cbn;
      rewrite ?E70, ?E45, ?E20; reflexivity. }
  split; [exact Hmax|]. split; [exact Hfire|]. split; [split|].
  - intros E t. destruct (up_applies p load t) eqn:Ea; [|reflexivity].
    pose proof (Hmax t Ea) as Hle. rewrite E in Hle.
    unfold up_applies in Ea. destruct (up_rule t); [|discriminate].
    apply andb_prop in Ea as [_ Ea]. unfold profile_ltb in Ea.
    apply Z.ltb_lt in Ea. lia.
  - intros Hnone.
    destruct (PowerProfile_eq_dec (scale_up p load) p) as [E|Hne];
      [exact E|].
    rewrite (Hnone (scale_up p load)) in Hfire. specialize (Hfire Hne).
    discriminate.
  - split; [|split; assumption].
    unfold scale_up.
    destruct (F32.ge load (F32.of_Z TURBO_UP)),
             (F32.ge load (F32.of_Z PERF_UP)),
             (F32.ge load (F32.of_Z BAL_UP));
      destruct p; cbn; lia.
Qed.

Lemma lt_const_not_ge (x : float) (u v : Z) :
  lex_le (F32.of_Z u) (F32.of_Z v) = true ->
  F32.lt x (F32.of_Z u) = true -> F32.ge x (F32.of_Z v) = false.
Proof. intros Huv Hx. exact (SFltb_upper_mono _ _ _ Huv Hx). Qed.

Lemma scale_target_in_band (s : State) :
  _throttled s = false ->
  in_band (_profile s) (_avg_load s) = true ->
  scale_target s = _profile s.
Proof.
  intros Ht Hb. unfold scale_target, scale_up, scale_down. rewrite Ht.
  unfold in_band in Hb. apply andb_prop in Hb as [Hd Hu].
  cbn [negb andb].
  destruct (_profile s); cbn [down_threshold up_threshold] in Hd, Hu;
    cbn [profile_eqb profile_ltb ord Z.eqb Z.ltb Z.compare Pos.compare
         Pos.compare_cont andb];
    try (apply le_not_lt in Hd; rewrite Hd);
    try (match type of Hu with
         | F32.lt _ (F32.of_Z ?u) = true =>
             try rewrite (lt_const_not_ge _ u TURBO_UP eq_refl Hu);
             try rewrite (lt_const_not_ge _ u PERF_UP eq_refl Hu);
             try rewrite (lt_const_not_ge _ u BAL_UP eq_refl Hu)
         end);
    cbn [andb];
    repeat match goal with
           | |- context [?b && false] => rewrite (andb_false_r b)
           end;
    reflexivity.
Qed.

Lemma scale_in_band (h : Hw) (s : State) :
  _throttled s = false ->
  in_band (_profile s) (_avg_load s) = true ->
  _scale h s = Some s.
Proof.
  intros Ht Hb. unfold _scale.
  destruct (_boost_on s && profile_leb PROFILE_PERFORMANCE (_profile s));
    [reflexivity|].
  rewrite (scale_target_in_band s Ht Hb).
  replace (profile_eqb (_profile s) (_profile s)) with true; [reflexivity|].
  symmetry. apply profile_eqb_eq. reflexivity.
Qed.

Lemma scales_in_band (hs : list Hw) (s : State) :
  _throttled s = false ->
  in_band (_profile s) (_avg_load s) = true ->
  scales hs s = Some s.
Proof.
  intros Ht Hb. induction hs as [|h hs IH]; simpl; [reflexivity|].
  rewrite (scale_in_band h s Ht Hb). simpl. exact IH.
Qed.

(** ** The thermal step *)

Lemma ge_critical_ge_throttle (t : float) :
  F32.ge t THERMAL_CRITICAL = true -> F32.ge t THERMAL_THROTTLE = true.
Proof. apply SFleb_lower_mono. reflexivity. Qed.

Lemma lt_release_not_ge_throttle (t : float) :
  F32.lt t THERMAL_RELEASE = true -> F32.ge t THERMAL_THROTTLE = false.
Proof. apply SFltb_upper_mono. reflexivity. Qed.

(** C3: the thermal step is total on a well-formed governor, stores the
    measured temperature, and follows the chain of the hysteresis band: at
    80 and above it throttles and caps the profile at POWERSAVE; else at 70
    and above, when not yet throttled, it throttles and caps the profile at
    BALANCED; else below 60 it releases the throttle and keeps the profile;
    else it leaves the throttled flag and the profile as they are.  Hence
    from 60 up to 70 nothing changes, a set flag is cleared only below 60, a
    clear flag is set only at 70 or above, and below 80 the profile of a
    governor that is already throttled is kept. *)
Theorem C3_thermal_hysteresis (raw : Z) (h : Hw) (s : State) :
  wf s = true ->
  exists s',
    _thermal raw h s = Some s'
    /\ _temp s' = thermal_temp raw
    /\ thermal_spec (thermal_temp raw) s s'
    /\ (F32.ge (thermal_temp raw) THERMAL_RELEASE = true ->
        F32.lt (thermal_temp raw) THERMAL_THROTTLE = true ->
        _throttled s' = _throttled s /\ _profile s' = _profile s)
    /\ (_throttled s = true -> _throttled s' = false ->
        F32.lt (thermal_temp raw) THERMAL_RELEASE = true)
    /\ (_throttled s = false -> _throttled s' = true ->
        F32.ge (thermal_temp raw) THERMAL_THROTTLE = true)
    /\ (_throttled s = true ->
        F32.ge (thermal_temp raw) THERMAL_CRITICAL = false ->
        _profile s' = _profile s).
Proof.
  intros Hwf.
  assert (exists s',
            _thermal raw h s = Some s'
            /\ _temp s' = thermal_temp raw
            /\ thermal_spec (thermal_temp raw) s s') as (s' & E & Et & Hs).
  { unfold _thermal, thermal_spec, cap_profile.
    cbn [_temp set_temp log _profile _throttled set_hw_log set_throttled].
    destruct (F32.ge (thermal_temp raw) THERMAL_CRITICAL);
      [|destruct (F32.ge (thermal_temp raw) THERMAL_THROTTLE
                  && negb (_throttled s));
        [|destruct (F32.lt (thermal_temp raw) THERMAL_RELEASE)]].
    1,2: match goal with
         | |- context [profile_ltb ?c (_profile ?x)] =>
             destruct (profile_ltb c (_profile x))
         end.
    all: repeat match goal with
         | |- context [_apply ?h0 ?p ?s1] =>
             destruct (apply_shape h0 p s1) as (khz & lg & ->);
               [exact Hwf | simpl; lia |]
         end.
    all: eexists; (split; [reflexivity|]); cbn; repeat split; reflexivity. }
  exists s'. split; [exact E|]. split; [exact Et|]. split; [exact Hs|].
  unfold thermal_spec in Hs. set (t := thermal_temp raw) in *.
  destruct (F32.ge t THERMAL_CRITICAL) eqn:Ec.
  - pose proof (ge_critical_ge_throttle t Ec) as Ew.
    destruct Hs as (Hs & _).
    split; [intros _ Hlt; apply lt_not_ge in Hlt; unfold F32.ge in *;
            congruence|].
    split; [congruence|]. split; [intros; exact Ew|]. discriminate.
  - destruct (F32.ge t THERMAL_THROTTLE) eqn:Ew.
    + assert (El : F32.lt t THERMAL_RELEASE = false).
      { destruct (F32.lt t THERMAL_RELEASE) eqn:El; [|reflexivity].
        apply lt_release_not_ge_throttle in El. congruence. }
      split; [intros _ Hlt; apply lt_not_ge in Hlt; unfold F32.ge in *;
              congruence|].
      destruct (_throttled s); cbn [andb negb] in Hs.
      * rewrite El in Hs. destruct Hs as (Hs & Hp).
        split; [congruence|]. split; [discriminate|]. intros _ _. exact Hp.
      * destruct Hs as (Hs & Hp).
        split; [discriminate|]. split; [reflexivity|]. discriminate.
    + cbn [andb] in Hs.
      destruct (F32.lt t THERMAL_RELEASE) eqn:El; destruct Hs as (Hs & Hp).
      * split; [intros Hge; apply le_not_lt in Hge; unfold F32.lt in *;
                congruence|].
        split; [reflexivity|]. split; [congruence|]. intros _ _. exact Hp.
      * split; [intros _ _; split; assumption|].
        split; [congruence|]. split; [congruence|]. intros _ _. exact Hp.
Qed.

Lemma C3_witness :
  let s := set_profile PROFILE_TURBO (after_begin PICOMIMI_RP2350 false 0 0) in
  let h := {| hw_now_ms := 0; hw_clk_ok := fun _ => true |} in
  wf s = true
  /\ exists s',
       _thermal 700 h s = Some s'
       /\ _temp s' = thermal_temp 700
       /\ _throttled s' = true
       /\ _profile s' = PROFILE_POWERSAVE.
Proof.
  intros s h. split; [reflexivity|].
  destruct (C3_thermal_hysteresis 700 h s eq_refl)
    as (s' & E & Et & Hs & _).
  exists s'. split; [exact E|]. split; [exact Et|].
  unfold thermal_spec in Hs.
  change (F32.ge (thermal_temp 700) THERMAL_CRITICAL) with true in Hs.
  exact Hs.
Defined.

(** ** The timing supervisor *)

(** C5: in a scale-evaluation cycle at which turbo is active and the
    millisecond clock is at least TURBO_MAX_MS past the recorded turbo
    start, [_timeouts] returns, clears turbo-active and, when the profile is
    still TURBO, leaves the profile at PERFORMANCE; a profile other than
    TURBO is left as it is. *)
Theorem C5_turbo_expiry (now : Z) (h : Hw) (s : State) :
  wf s = true ->
  _turbo_on s = true ->
  TURBO_MAX_MS <= u32 (now - _turbo_start_ms s) ->
  exists s',
    _timeouts now h s = Some s'
    /\ _turbo_on s' = false
    /\ (_profile s = PROFILE_TURBO -> _profile s' = PROFILE_PERFORMANCE)
    /\ (_profile s <> PROFILE_TURBO -> _profile s' = _profile s).
Proof.
  intros Hwf Hon Hexp. unfold _timeouts. rewrite Hon.
  apply Z.leb_le in Hexp. rewrite Hexp. cbn [andb].
  cbn [_profile set_turbo_on].
  destruct (profile_eqb (_profile s) PROFILE_TURBO) eqn:Ep.
  - apply profile_eqb_eq in Ep.
    match goal with
    | |- context [_apply h ?p ?s1] =>
        destruct (apply_shape h p s1) as (khz & lg & ->);
          [exact Hwf | simpl; lia |]
    end.
    cbn [bind]. eexists. split; [reflexivity|].
    repeat match goal with
           | |- context [if ?b then _ else _] => destruct b
           end; cbn; repeat split; congruence.
  - assert (Hne : _profile s <> PROFILE_TURBO).
    { intros E. apply profile_eqb_eq in E. congruence. }
    cbn [bind]. eexists. split; [reflexivity|].
    repeat match goal with
           | |- context [if ?b then _ else _] => destruct b
           end; cbn; repeat split; congruence.
Qed.

Lemma C5_witness :
  let h := {| hw_now_ms := 12000; hw_clk_ok := fun _ => true |} in
  let s :=
    set_turbo_on true
      (set_turbo_start_ms 1500
         (set_profile PROFILE_TURBO (after_begin PICOMIMI_RP2040 false 0 0))) in
  wf s = true
  /\ _turbo_on s = true
  /\ TURBO_MAX_MS <= u32 (11500 - _turbo_start_ms s)
  /\ exists s',
       _timeouts 11500 h s = Some s'
       /\ _turbo_on s' = false
       /\ (_profile s = PROFILE_TURBO -> _profile s' = PROFILE_PERFORMANCE)
       /\ (_profile s <> PROFILE_TURBO -> _profile s' = _profile s).
Proof.
  intros h s.
  assert (Hexp : TURBO_MAX_MS <= u32 (11500 - _turbo_start_ms s))
    by (vm_compute; discriminate).
  split; [reflexivity|]. split; [reflexivity|]. split; [exact Hexp|].
  apply C5_turbo_expiry; [reflexivity | reflexivity | exact Hexp].
Defined.

(** ** The load recomputation *)

Lemma updateLoad_before_period (now : Z) (s : State) :
  u64 (now - _period_start_us s) < LOAD_PERIOD_MS * 1000 ->
  _updateLoad now s = s.
Proof.
  intros H. unfold _updateLoad. apply Z.ltb_lt in H. rewrite H. reflexivity.
Qed.

Lemma updateLoad_instant (now : Z) (s : State) :
  LOAD_PERIOD_MS * 1000 <= u64 (now - _period_start_us s) ->
  _instant_load (_updateLoad now s)
  = load_sample (_total_loop_time_us s) (u64 (now - _period_start_us s)).
Proof.
  intros H. unfold _updateLoad, load_sample, clamp_load.
  apply Z.ltb_ge in H. rewrite H.
  change (IDLE_THRESHOLD_US * 10) with 1000.
  change (10 * IDLE_THRESHOLD_US) with 1000.
  destruct (_total_loop_time_us s <? 1000) eqn:E1.
  - cbn. reflexivity.
  - destruct (_total_loop_time_us s <? 10000),
             (_total_loop_time_us s <? 50000),
             (_total_loop_time_us s <? 100000); cbn;
      match goal with
      | |- context [F32.lt ?x (F32.of_Z 0)] =>
          destruct (F32.lt x (F32.of_Z 0)); cbn;
            [reflexivity | destruct (F32.gt x (F32.of_Z 100)); reflexivity]
      end.
Qed.

Lemma updateLoad_resets (now : Z) (s : State) :
  LOAD_PERIOD_MS * 1000 <= u64 (now - _period_start_us s) ->
  _total_loop_time_us (_updateLoad now s) = 0.
Proof.
  intros H. unfold _updateLoad. apply Z.ltb_ge in H. rewrite H.
  reflexivity.
Qed.

(** C4: when at least the sampling period (200 ms, in microseconds) has
    passed since the period start, the recomputation sets the instantaneous
    load to zero if the period's work is below 1000 us (ten times the 100 us
    loop-overhead threshold) and to 100 * work / elapsed clamped to
    [0, 100] otherwise, replaces the smoothed load by
    smoothed * (1 - 0.3) + instantaneous * 0.3, restarts the period at the
    current time and resets the work counter.  The arithmetic is that of
    single precision, in the order (work / elapsed) * 100. *)
Theorem C4_load_recomputation (now : Z) (s : State) :
  LOAD_PERIOD_MS * 1000 <= u64 (now - _period_start_us s) ->
  let s' := _updateLoad now s in
  _instant_load s'
  = load_sample (_total_loop_time_us s) (u64 (now - _period_start_us s))
  /\ _avg_load s' = smooth (_avg_load s) (_instant_load s')
  /\ _period_start_us s' = now
  /\ _total_loop_time_us s' = 0.
Proof.
  intros H s'. split; [apply updateLoad_instant; exact H|].
  subst s'. unfold _updateLoad, smooth.
  apply Z.ltb_ge in H. rewrite H.
  repeat match goal with
         | |- context [if ?b then _ else _] => destruct b
         end; cbn; repeat split; reflexivity.
Qed.

Lemma C4_witness :
  let s :=
    set_total_loop_time_us 150000 (after_begin PICOMIMI_RP2350 false 0 0) in
  LOAD_PERIOD_MS * 1000 <= u64 (200000 - _period_start_us s)
  /\ (let s' := _updateLoad 200000 s in
      _instant_load s'
      = load_sample (_total_loop_time_us s) (u64 (200000 - _period_start_us s))
      /\ _avg_load s' = smooth (_avg_load s) (_instant_load s')
      /\ _period_start_us s' = 200000
      /\ _total_loop_time_us s' = 0).
Proof.
  intros s.
  assert (H : LOAD_PERIOD_MS * 1000 <= u64 (200000 - _period_start_us s))
    by (vm_compute; discriminate).
  split; [exact H|]. apply C4_load_recomputation. exact H.
Defined.

(** The scenario of the specification: 150 ms of work in a 200 ms period
    give an instantaneous load of 75 and, from a smoothed load of 0, a
    smoothed load of 22.5. *)
Example load_scenario :
  let s :=
    _updateLoad 200000
      (set_total_loop_time_us 150000
         (after_begin PICOMIMI_RP2350 false 0 0)) in
  _instant_load s = F32.of_Z 75
  /\ _avg_load s = F32.lit 45 2.
Proof. vm_compute. split; reflexivity. Qed.

(** ** Calls before [begin] *)

(** C1, as the claim states it, fails: [idle] on a freshly constructed
    object changes the idle accumulator. *)
Lemma C1_counterexample :
  _init PicomimiGovernorClass = false
  /\ idle 50 PicomimiGovernorClass <> PicomimiGovernorClass.
Proof.
  split; [reflexivity|]. intros H.
  apply (f_equal _total_idle_time_us) in H. vm_compute in H. discriminate H.
Qed.

(** Before [begin] the table pointers are null: a manual profile request
    has no result. *)
Lemma setProfile_before_begin (d now_ms : Z) (h : Hw) :
  setProfile PROFILE_TURBO d now_ms h PicomimiGovernorClass = None.
Proof. reflexivity. Qed.

Lemma run_before_begin (e : Env) (s : State) :
  _init s = false -> run e s = Some s.
Proof. intros H. unfold run. rewrite H. reflexivity. Qed.

Lemma inputBoost_before_begin (now_ms : Z) (h : Hw) (s : State) :
  _init s = false -> inputBoost now_ms h s = Some s.
Proof. intros H. unfold inputBoost. rewrite H. reflexivity. Qed.

Lemma pre_begin_calls_shape (cs : list Call) (idle_us : Z)
    (lg : list HwEvent) :
  forallb pre_begin_call cs = true ->
  exists idle_us' lg',
    calls cs (set_hw_log lg
                (set_total_idle_time_us idle_us PicomimiGovernorClass))
    = Some (set_hw_log lg'
              (set_total_idle_time_us idle_us' PicomimiGovernorClass)).
Proof.
  revert idle_us lg. induction cs as [|c cs IH]; intros idle_us lg H.
  - exists idle_us, lg. reflexivity.
  - cbn [forallb] in H. apply andb_prop in H as [Hc Hcs].
    cbn [calls].
    destruct c; try discriminate Hc; cbn [call].
    + rewrite run_before_begin by reflexivity. cbn [bind]. apply IH, Hcs.
    + cbn [bind]. apply (IH _ _ Hcs).
    + cbn [bind]. apply (IH _ _ Hcs).
    + rewrite inputBoost_before_begin by reflexivity. cbn [bind].
      apply IH, Hcs.
    + cbn [bind]. apply (IH _ _ Hcs).
Qed.

(** C1 (amended): after any calls of [run], [inputBoost], [idle],
    [idleMicros] and [setAuto] on an object on which [begin] was never
    called, every status accessor returns its default value, [run] and
    [inputBoost] are no-ops and [setAuto] leaves the object as it is;
    [idle] and [idleMicros] wait and add to the idle accumulator and change
    nothing else. *)
Theorem C1_before_begin (cs : list Call) :
  forallb pre_begin_call cs = true ->
  exists s,
    calls cs PicomimiGovernorClass = Some s
    /\ _init s = false
    /\ (getFreqMHz s = 133 /\ getCPULoad s = F32.of_Z 0
        /\ getTemperature s = F32.of_Z 25
        /\ getProfile s = PROFILE_BALANCED
        /\ getProfileName s = Some "BALANCED"%string
        /\ isTurbo s = false /\ isThrottled s = false)
    /\ (forall e, run e s = Some s)
    /\ (forall now_ms h, inputBoost now_ms h s = Some s)
    /\ setAuto s = s
    /\ (forall ms,
          idle ms s
          = set_hw_log (EvDelay ms :: hw_log s)
              (set_total_idle_time_us
                 (u64 (_total_idle_time_us s + u64 (ms * 1000))) s))
    /\ (forall us,
          idleMicros us s
          = set_hw_log (EvDelayMicros us :: hw_log s)
              (set_total_idle_time_us (u64 (_total_idle_time_us s + us)) s)).
Proof.
  intros H.
  destruct (pre_begin_calls_shape cs 0 [] H) as (idle_us & lg & E).
  change (set_hw_log [] (set_total_idle_time_us 0 PicomimiGovernorClass))
    with PicomimiGovernorClass in E.
  eexists. split; [exact E|].
  repeat split.
Qed.

Lemma C1_witness :
  let h := {| hw_now_ms := 0; hw_clk_ok := fun _ => true |} in
  let e :=
    {| env_us_entry := 10; env_ms := 0; env_us_load := 10; env_adc := 876;
       env_ms_timeouts := 0; env_hw := h; env_serial := [];
       env_us_exit := 11 |} in
  let cs := [CallIdle 50; CallRun e; CallInputBoost 3 h; CallSetAuto] in
  forallb pre_begin_call cs = true
  /\ exists s,
       calls cs PicomimiGovernorClass = Some s
       /\ _init s = false
       /\ (getFreqMHz s = 133 /\ getCPULoad s = F32.of_Z 0
           /\ getTemperature s = F32.of_Z 25
           /\ getProfile s = PROFILE_BALANCED
           /\ getProfileName s = Some "BALANCED"%string
           /\ isTurbo s = false /\ isThrottled s = false)
       /\ (forall e, run e s = Some s)
       /\ (forall now_ms h, inputBoost now_ms h s = Some s)
       /\ setAuto s = s
       /\ (forall ms,
             idle ms s
             = set_hw_log (EvDelay ms :: hw_log s)
                 (set_total_idle_time_us
                    (u64 (_total_idle_time_us s + u64 (ms * 1000))) s))
       /\ (forall us,
             idleMicros us s
             = set_hw_log (EvDelayMicros us :: hw_log s)
                 (set_total_idle_time_us (u64 (_total_idle_time_us s + us)) s)).
Proof.
  intros h e cs. split; [reflexivity|].
  apply C1_before_begin. reflexivity.
Defined.

(** ** Control steps keep the governor well-formed *)

Lemma step_ok_refl (s : State) : wf s = true -> step_ok s s.
Proof. intros H. repeat split; auto. Qed.

Lemma step_ok_trans (s1 s2 s3 : State) :
  step_ok s1 s2 -> step_ok s2 s3 -> step_ok s1 s3.
Proof.
  intros (_ & S12 & C12 & T12) (W3 & S23 & C23 & T23).
  repeat split; [exact W3 | congruence | congruence | auto].
Qed.

Lemma step_ok_wf (s s' : State) : step_ok s s' -> wf s' = true.
Proof. intros (H & _). exact H. Qed.

(** Opens every [_apply] of the goal on a well-formed state. *)
Ltac open_apply Hwf :=
  repeat match goal with
         | |- context [_apply ?h ?p ?s1] =>
             let khz := fresh "khz" in
             let lg := fresh "lg" in
             destruct (apply_shape h p s1) as (khz & lg & ->);
               [exact Hwf | try (simpl; lia) |]
         end.

Ltac split_ifs :=
  repeat match goal with
         | |- context [if ?b then _ else _] => destruct b eqn:?
         end.

Lemma wf_valid_profile (s : State) (b : bool) :
  wf s = true -> b = true -> tables_ok s && b = true.
Proof.
  unfold wf. intros H ->. apply andb_prop in H as [H _]. rewrite H.
  reflexivity.
Qed.

Lemma applied_step (h : Hw) (p : PowerProfile) (khz : Z)
    (lg : list HwEvent) (s : State) :
  wf s = true -> ord p < 5 -> step_ok s (applied h p khz lg s).
Proof.
  intros Hwf Hp. split; [apply applied_wf; assumption|].
  split; [reflexivity|]. split; [reflexivity|].
  intros _. unfold turbo_inv, applied. cbn.
  destruct (profile_eqb p PROFILE_TURBO); reflexivity.
Qed.

Lemma apply_step (h : Hw) (p : PowerProfile) (s : State) :
  wf s = true ->
  exists s', _apply h p s = Some s' /\ step_ok s s'.
Proof.
  intros Hwf. destruct (Z_lt_le_dec (ord p) 5) as [Hp|Hp].
  - destruct (apply_shape h p s Hwf Hp) as (khz & lg & ->).
    eexists. split; [reflexivity|]. apply applied_step; assumption.
  - rewrite (apply_invalid h p s Hp). eexists. split; [reflexivity|].
    apply step_ok_refl, Hwf.
Qed.

(** A step that only rewrites members outside the sampler, the
    configuration, the profile and the turbo flag. *)
Ltac frame_step Hwf :=
  split; [exact Hwf|]; split; [reflexivity|]; split; [reflexivity|];
  intros Hti; exact Hti.

Lemma thermal_step (raw : Z) (h : Hw) (s : State) :
  wf s = true ->
  exists s', _thermal raw h s = Some s' /\ step_ok s s'.
Proof.
  intros Hwf. unfold _thermal.
  cbn [_temp set_temp log _profile _throttled set_hw_log set_throttled].
  split_ifs;
    try (match goal with
         | |- context [_apply ?h ?p ?s1] =>
             destruct (apply_step h p s1 Hwf) as (s' & -> & Hs');
               exists s'; split; [reflexivity|];
               refine (step_ok_trans s s1 s' _ Hs'); frame_step Hwf
         end);
    eexists; (split; [reflexivity|]); frame_step Hwf.
Qed.

Lemma timeouts_step (now : Z) (h : Hw) (s : State) :
  wf s = true ->
  exists s', _timeouts now h s = Some s' /\ step_ok s s'.
Proof.
  intros Hwf. unfold _timeouts.
  assert (Hflags : forall s1, step_ok s s1 ->
            step_ok s
              (let s2 :=
                 if _boost_on s1
                    && (BOOST_DURATION_MS <=? u32 (now - _boost_start_ms s1))
                 then set_boost_on false s1 else s1 in
               if _override_on s2 && (0 <? _override_end_ms s2)
                  && (_override_end_ms s2 <=? now)
               then set_override_end_ms 0 (set_override_on false s2)
               else s2)).
  { intros s1 H1. refine (step_ok_trans _ _ _ H1 _).
    pose proof (step_ok_wf _ _ H1) as W1.
    cbv zeta. split_ifs; frame_step W1. }
  destruct (_turbo_on s && (TURBO_MAX_MS <=? u32 (now - _turbo_start_ms s)))
    eqn:Ex.
  - cbn [_profile set_turbo_on].
    destruct (profile_eqb (_profile s) PROFILE_TURBO) eqn:Ep.
    + match goal with
      | |- context [_apply ?h ?p ?s1] =>
          destruct (apply_shape h p s1) as (khz & lg & ->);
            [exact Hwf | simpl; lia |]
      end.
      cbn [bind]. eexists. split; [reflexivity|]. apply Hflags.
      split; [apply applied_wf; [exact Hwf|simpl; lia]|].
      split; [reflexivity|]. split; [reflexivity|]. intros _. reflexivity.
    + cbn [bind]. eexists. split; [reflexivity|]. apply Hflags.
      split; [exact Hwf|]. split; [reflexivity|]. split; [reflexivity|].
      intros _. reflexivity.
  - cbn [bind]. eexists. split; [reflexivity|]. apply Hflags.
    apply step_ok_refl, Hwf.
Qed.

Lemma scale_target_valid (s : State) :
  wf s = true ->
  ord (scale_target s) < 5
  /\ (_throttled s = true -> ord (scale_target s) <= ord PROFILE_BALANCED).
Proof.
  intros Hwf. apply wf_profile in Hwf.
  unfold scale_target, scale_up, scale_down.
  destruct (_throttled s); cbn [negb andb];
    destruct (_profile s); cbn in Hwf |- *; try lia;
    split_ifs; cbn; split; try lia; intros; try discriminate; lia.
Qed.

Lemma scale_step (h : Hw) (s : State) :
  wf s = true ->
  exists s', _scale h s = Some s' /\ step_ok s s'.
Proof.
  intros Hwf. unfold _scale.
  destruct (_boost_on s && profile_leb PROFILE_PERFORMANCE (_profile s)).
  - eexists. split; [reflexivity|]. apply step_ok_refl, Hwf.
  - destruct (negb (profile_eqb (scale_target s) (_profile s))).
    + apply apply_step, Hwf.
    + eexists. split; [reflexivity|]. apply step_ok_refl, Hwf.
Qed.

Lemma scale_cycle_step (e : Env) (now_ms : Z) (s : State) :
  wf s = true ->
  exists s', scale_cycle e now_ms s = Some s' /\ step_ok s s'.
Proof.
  intros Hwf. unfold scale_cycle.
  destruct (thermal_step (env_adc e) (env_hw e) s Hwf) as (s1 & -> & H1).
  cbn [bind]. pose proof (step_ok_wf _ _ H1) as W1.
  destruct (timeouts_step (env_ms_timeouts e) (env_hw e) s1 W1)
    as (s2 & -> & H2).
  cbn [bind]. pose proof (step_ok_wf _ _ H2) as W2.
  assert (exists s3,
            (if negb (_override_on s2) then _scale (env_hw e) s2 else Some s2)
            = Some s3 /\ step_ok s2 s3) as (s3 & -> & H3).
  { destruct (negb (_override_on s2)).
    - apply scale_step, W2.
    - eexists. split; [reflexivity|]. apply step_ok_refl, W2. }
  cbn [bind]. eexists. split; [reflexivity|].
  refine (step_ok_trans _ _ _ H1 (step_ok_trans _ _ _ H2
            (step_ok_trans _ _ _ H3 _))).
  frame_step (step_ok_wf _ _ H3).
Qed.

Lemma setProfile_step (p : PowerProfile) (d now_ms : Z) (h : Hw)
    (s : State) :
  wf s = true ->
  exists s', setProfile p d now_ms h s = Some s' /\ step_ok s s'.
Proof.
  intros Hwf. unfold setProfile.
  destruct (profile_leb PROFILE_COUNT p).
  - eexists. split; [reflexivity|]. apply step_ok_refl, Hwf.
  - match goal with
    | |- context [_apply ?h ?p ?s1] =>
        destruct (apply_step h p s1 Hwf) as (s' & -> & Hs');
          exists s'; split; [reflexivity|];
          refine (step_ok_trans s s1 s' _ Hs'); frame_step Hwf
    end.
Qed.

Lemma setAuto_step (s : State) : wf s = true -> step_ok s (setAuto s).
Proof. intros Hwf. unfold setAuto. frame_step Hwf. Qed.

Lemma handle_command_step (cmd : string) (now_ms : Z) (h : Hw) (s : State) :
  wf s = true ->
  exists s', handle_command cmd now_ms h s = Some s' /\ step_ok s s'.
Proof.
  intros Hwf. unfold handle_command, setTurbo, setPowersave.
  split_ifs;
    first [ apply setProfile_step, Hwf
          | eexists; split; [reflexivity|];
            first [apply step_ok_refl, Hwf | apply setAuto_step, Hwf] ].
Qed.

Lemma serial_byte_step (b : SerialByte) (s : State) :
  wf s = true ->
  exists s', serial_byte b s = Some s' /\ step_ok s s'.
Proof.
  intros Hwf. unfold serial_byte.
  destruct (Ascii.eqb (sb_char b) "010" || Ascii.eqb (sb_char b) "013").
  - cbv zeta.
    set (s0 := set_cmd (toLowerCase (trim (_cmd s))) s).
    assert (H0 : step_ok s s0) by (subst s0; frame_step Hwf).
    destruct (0 <? String.length (_cmd s0))%nat.
    + destruct (handle_command_step (_cmd s0) (sb_now_ms b) (sb_hw b) s0
                  (step_ok_wf _ _ H0)) as (s2 & -> & H2).
      cbn [bind]. eexists. split; [reflexivity|].
      refine (step_ok_trans _ _ _ H0 (step_ok_trans _ _ _ H2 _)).
      frame_step (step_ok_wf _ _ H2).
    + cbn [bind]. eexists. split; [reflexivity|].
      refine (step_ok_trans _ _ _ H0 _).
      frame_step (step_ok_wf _ _ H0).
  - eexists. split; [reflexivity|]. frame_step Hwf.
Qed.

Lemma handleSerial_step (input : list SerialByte) (s : State) :
  wf s = true ->
  exists s', _handleSerial input s = Some s' /\ step_ok s s'.
Proof.
  revert s. induction input as [|b rest IH]; intros s Hwf.
  - eexists. split; [reflexivity|]. apply step_ok_refl, Hwf.
  - cbn [_handleSerial].
    destruct (serial_byte_step b s Hwf) as (s1 & -> & H1). cbn [bind].
    destruct (IH s1 (step_ok_wf _ _ H1)) as (s2 & -> & H2).
    eexists. split; [reflexivity|]. exact (step_ok_trans _ _ _ H1 H2).
Qed.

Lemma inputBoost_step (now_ms : Z) (h : Hw) (s : State) :
  wf s = true ->
  exists s', inputBoost now_ms h s = Some s' /\ step_ok s s'.
Proof.
  intros Hwf. unfold inputBoost.
  destruct (negb (_init s) || _throttled s).
  - eexists. split; [reflexivity|]. apply step_ok_refl, Hwf.
  - cbn [_profile set_boost_on set_boost_start_ms].
    destruct (profile_ltb (_profile s) PROFILE_PERFORMANCE).
    + match goal with
      | |- context [_apply ?h ?p ?s1] =>
          destruct (apply_step h p s1 Hwf) as (s' & -> & Hs');
            exists s'; split; [reflexivity|];
            refine (step_ok_trans s s1 s' _ Hs'); frame_step Hwf
      end.
    + eexists. split; [reflexivity|]. frame_step Hwf.
Qed.

(** ** What the thermal step and the timing supervisor change *)

Lemma thermal_effect (raw : Z) (h : Hw) (s : State) :
  wf s = true ->
  exists s',
    _thermal raw h s = Some s' /\ wf s' = true
    /\ _throttled s'
       = (if F32.ge (thermal_temp raw) THERMAL_CRITICAL then true
          else if F32.ge (thermal_temp raw) THERMAL_THROTTLE
                  && negb (_throttled s) then true
          else if F32.lt (thermal_temp raw) THERMAL_RELEASE then false
          else _throttled s)
    /\ _profile s'
       = (if F32.ge (thermal_temp raw) THERMAL_CRITICAL
          then cap_profile PROFILE_POWERSAVE (_profile s)
          else if F32.ge (thermal_temp raw) THERMAL_THROTTLE
                  && negb (_throttled s)
          then cap_profile PROFILE_BALANCED (_profile s)
          else _profile s)
    /\ _temp s' = thermal_temp raw
    /\ _avg_load s' = _avg_load s
    /\ _boost_on s' = _boost_on s /\ _boost_start_ms s' = _boost_start_ms s
    /\ _override_on s' = _override_on s
    /\ _override_end_ms s' = _override_end_ms s
    /\ _turbo_start_ms s' = _turbo_start_ms s
    /\ (_turbo_on s' = _turbo_on s \/ _turbo_on s' = false).
Proof.
  intros Hwf. unfold _thermal, cap_profile.
  cbn [_temp set_temp log _profile _throttled set_hw_log set_throttled].
  destruct (F32.ge (thermal_temp raw) THERMAL_CRITICAL);
    [|destruct (F32.ge (thermal_temp raw) THERMAL_THROTTLE
                && negb (_throttled s));
      [|destruct (F32.lt (thermal_temp raw) THERMAL_RELEASE)]].
  1,2: match goal with
       | |- context [profile_ltb ?c (_profile ?x)] =>
           destruct (profile_ltb c (_profile x))
       end.
  all: open_apply Hwf.
  all: eexists; (split; [reflexivity|]);
    (split; [first [apply applied_wf; [exact Hwf|simpl; lia] | exact Hwf]|]);
    cbn; repeat split; try reflexivity; auto.
Qed.

Lemma timeouts_effect (now : Z) (h : Hw) (s : State) :
  wf s = true ->
  exists s',
    _timeouts now h s = Some s' /\ wf s' = true
    /\ _throttled s' = _throttled s
    /\ _profile s'
       = (if _turbo_on s && (TURBO_MAX_MS <=? u32 (now - _turbo_start_ms s))
             && profile_eqb (_profile s) PROFILE_TURBO
          then PROFILE_PERFORMANCE else _profile s)
    /\ _avg_load s' = _avg_load s
    /\ _boost_on s'
       = _boost_on s
         && negb (BOOST_DURATION_MS <=? u32 (now - _boost_start_ms s))
    /\ _override_on s'
       = _override_on s
         && negb ((0 <? _override_end_ms s) && (_override_end_ms s <=? now))
    /\ _override_end_ms s'
       = (if _override_on s && (0 <? _override_end_ms s)
             && (_override_end_ms s <=? now)
          then 0 else _override_end_ms s)
    /\ _boost_start_ms s' = _boost_start_ms s.
Proof.
  intros Hwf. unfold _timeouts.
  assert (Hflags : forall s1, wf s1 = true ->
            exists s',
              Some
                (let s2 :=
                   if _boost_on s1
                      && (BOOST_DURATION_MS <=? u32 (now - _boost_start_ms s1))
                   then set_boost_on false s1 else s1 in
                 if _override_on s2 && (0 <? _override_end_ms s2)
                    && (_override_end_ms s2 <=? now)
                 then set_override_end_ms 0 (set_override_on false s2)
                 else s2) = Some s'
              /\ wf s' = true
              /\ _throttled s' = _throttled s1
              /\ _profile s' = _profile s1
              /\ _avg_load s' = _avg_load s1
              /\ _boost_on s'
                 = _boost_on s1
                   && negb (BOOST_DURATION_MS
                            <=? u32 (now - _boost_start_ms s1))
              /\ _override_on s'
                 = _override_on s1
                   && negb ((0 <? _override_end_ms s1)
                            && (_override_end_ms s1 <=? now))
              /\ _override_end_ms s'
                 = (if _override_on s1 && (0 <? _override_end_ms s1)
                       && (_override_end_ms s1 <=? now)
                    then 0 else _override_end_ms s1)
              /\ _boost_start_ms s' = _boost_start_ms s1).
  { intros s1 W1. eexists. split; [reflexivity|]. cbv zeta.
    destruct (_boost_on s1
              && (BOOST_DURATION_MS <=? u32 (now - _boost_start_ms s1)))
      eqn:Eb;
      cbn [_override_on _override_end_ms set_boost_on];
      destruct (_override_on s1 && (0 <? _override_end_ms s1)
                && (_override_end_ms s1 <=? now)) eqn:Eo;
      (split; [exact W1|]); cbn;
      destruct (_boost_on s1), (_override_on s1),
        (BOOST_DURATION_MS <=? u32 (now - _boost_start_ms s1)),
        (0 <? _override_end_ms s1), (_override_end_ms s1 <=? now);
      cbn in Eb, Eo |- *; try discriminate; repeat split; reflexivity. }
  destruct (_turbo_on s && (TURBO_MAX_MS <=? u32 (now - _turbo_start_ms s))).
  - cbn [andb _profile set_turbo_on].
    destruct (profile_eqb (_profile s) PROFILE_TURBO).
    + destruct (apply_shape h PROFILE_PERFORMANCE (set_turbo_on false s))
        as (khz & lg & ->); [exact Hwf | simpl; lia |].
      cbn [bind].
      destruct (Hflags (applied h PROFILE_PERFORMANCE khz lg
                          (set_turbo_on false s)))
        as (s' & E' & W' & T' & P' & A' & B' & O' & E2' & S');
        [apply applied_wf; [exact Hwf|simpl; lia]|].
      exists s'. split; [exact E'|]. split; [exact W'|].
      repeat split; assumption.
    + cbn [bind].
      destruct (Hflags (set_turbo_on false s) Hwf)
        as (s' & E' & W' & T' & P' & A' & B' & O' & E2' & S').
      exists s'. split; [exact E'|]. split; [exact W'|].
      repeat split; assumption.
  - cbn [andb bind].
    destruct (Hflags s Hwf) as (s' & E' & W' & T' & P' & A' & B' & O' & E2' & S').
    exists s'. split; [exact E'|]. split; [exact W'|].
    repeat split; assumption.
Qed.

(** ** A whole scale-evaluation cycle inside the hysteresis band

    The thermal monitor and the timing supervisor run before the scale step.
    When the measured temperature is below the warn threshold and the turbo
    ceiling is not reached, a whole cycle of a governor that is not throttled
    and whose load is in the band of its profile leaves the profile as it
    is. *)

Lemma thermal_below_warn (raw : Z) (h : Hw) (s : State) :
  _throttled s = false ->
  F32.ge (thermal_temp raw) THERMAL_THROTTLE = false ->
  exists s',
    _thermal raw h s = Some s'
    /\ _throttled s' = false
    /\ _profile s' = _profile s /\ _avg_load s' = _avg_load s
    /\ _turbo_on s' = _turbo_on s
    /\ _turbo_start_ms s' = _turbo_start_ms s.
Proof.
  intros Ht Hw. unfold _thermal.
  cbn [_temp set_temp log _profile _throttled set_hw_log set_throttled].
  assert (Hc : F32.ge (thermal_temp raw) THERMAL_CRITICAL = false).
  { destruct (F32.ge (thermal_temp raw) THERMAL_CRITICAL) eqn:E;
      [|reflexivity].
    apply ge_critical_ge_throttle in E. congruence. }
  rewrite Hc, Hw. cbn [andb].
  destruct (F32.lt (thermal_temp raw) THERMAL_RELEASE);
    eexists; (split; [reflexivity|]); cbn; repeat split; assumption.
Qed.

Lemma timeouts_before_turbo_ceiling (now : Z) (h : Hw) (s : State) :
  _turbo_on s && (TURBO_MAX_MS <=? u32 (now - _turbo_start_ms s)) = false ->
  exists s',
    _timeouts now h s = Some s'
    /\ _throttled s' = _throttled s
    /\ _profile s' = _profile s /\ _avg_load s' = _avg_load s.
Proof.
  intros Hturbo. unfold _timeouts. rewrite Hturbo. cbn [bind].
  eexists. split; [reflexivity|].
  split_ifs; cbn; repeat split; reflexivity.
Qed.

Lemma cycle_in_band (e : Env) (now_ms : Z) (s : State) :
  _throttled s = false ->
  in_band (_profile s) (_avg_load s) = true ->
  F32.ge (thermal_temp (env_adc e)) THERMAL_THROTTLE = false ->
  _turbo_on s
  && (TURBO_MAX_MS <=? u32 (env_ms_timeouts e - _turbo_start_ms s)) = false ->
  exists s',
    scale_cycle e now_ms s = Some s'
    /\ _profile s' = _profile s /\ _throttled s' = false.
Proof.
  intros Ht Hb Hw Hturbo. unfold scale_cycle.
  destruct (thermal_below_warn (env_adc e) (env_hw e) s Ht Hw)
    as (s1 & -> & T1 & P1 & A1 & O1 & S1).
  cbn [bind].
  destruct (timeouts_before_turbo_ceiling (env_ms_timeouts e) (env_hw e) s1)
    as (s2 & -> & T2 & P2 & A2); [rewrite O1, S1; exact Hturbo|].
  cbn [bind].
  assert (T2' : _throttled s2 = false) by congruence.
  assert (B2 : in_band (_profile s2) (_avg_load s2) = true) by congruence.
  destruct (negb (_override_on s2)).
  - rewrite (scale_in_band (env_hw e) s2 T2' B2). cbn [bind].
    eexists. split; [reflexivity|]. cbn. split; congruence.
  - cbn [bind]. eexists. split; [reflexivity|]. cbn. split; congruence.
Qed.

Lemma sampled_turbo (e : Env) (s : State) :
  _turbo_on (sampled e s) = _turbo_on s
  /\ _turbo_start_ms (sampled e s) = _turbo_start_ms s
  /\ _throttled (sampled e s) = _throttled s
  /\ _profile (sampled e s) = _profile s.
Proof.
  unfold sampled, _updateLoad, account_work.
  split_ifs; cbn; repeat split; reflexivity.
Qed.

Lemma run_in_band (e : Env) (s : State) :
  _throttled s = false -> quiet_tick e s = true ->
  exists s',
    run e s = Some s' /\ _profile s' = _profile s /\ _throttled s' = false.
Proof.
  intros Ht Hq. unfold quiet_tick in Hq.
  apply andb_prop in Hq as [Hq Hturbo]. apply andb_prop in Hq as [Hq Htemp].
  apply andb_prop in Hq as [Hser Hband].
  apply negb_true_iff in Hturbo. apply negb_true_iff in Htemp.
  destruct (env_serial e) eqn:Es; [clear Hser|discriminate].
  unfold run. destruct (negb (_init s)); [eauto|].
  fold (sampled e s).
  destruct (sampled_turbo e s) as (Eon & Est & Eth & Ep).
  set (s0 := sampled e s) in *. rewrite Es.
  assert (exists s1,
            (if SCALE_INTERVAL_MS <=? u64 (env_ms e - _last_scale_ms s0)
             then scale_cycle e (env_ms e) s0 else Some s0) = Some s1
            /\ _profile s1 = _profile s /\ _throttled s1 = false)
    as (s1 & -> & P1 & T1).
  { destruct (SCALE_INTERVAL_MS <=? u64 (env_ms e - _last_scale_ms s0)).
    - destruct (cycle_in_band e (env_ms e) s0) as (s1 & E1 & P1 & T1);
        [congruence | rewrite Ep; exact Hband | exact Htemp
        | rewrite Eon, Est; exact Hturbo |].
      exists s1. split; [exact E1|]. split; congruence.
    - exists s0. split; [reflexivity|]. split; congruence. }
  cbn [bind].
  assert (Hser' : forall s2 : State,
            (if _manual s2 then _handleSerial [] s2 else Some s2) = Some s2)
    by (intros s2; destruct (_manual s2); reflexivity).
  rewrite Hser'. cbn [bind]. eexists. split; [reflexivity|].
  unfold _wfi, log. split_ifs; cbn; split; assumption.
Qed.

(** C9, as the claim states it, fails: with no override, no boost, not
    throttled, at TURBO with a smoothed load of 60 (in the band of TURBO,
    which starts at 55) and 27 degrees, the scale-evaluation cycle that
    comes 10 seconds after the turbo start leaves PERFORMANCE; and a cycle
    that comes earlier and measures 77 degrees leaves BALANCED. *)
Lemma C9_counterexample :
  let h := {| hw_now_ms := 0; hw_clk_ok := fun _ => true |} in
  let e :=
    {| env_us_entry := 10000000; env_ms := 10000; env_us_load := 10000000;
       env_adc := 876; env_ms_timeouts := 10000; env_hw := h;
       env_serial := []; env_us_exit := 10000050 |} in
  let e' :=
    {| env_us_entry := 500000; env_ms := 500; env_us_load := 500000;
       env_adc := 770; env_ms_timeouts := 500; env_hw := h;
       env_serial := []; env_us_exit := 500050 |} in
  exists s,
    option_map (set_avg_load (F32.of_Z 60))
      (calls [CallSetTurbo 0 0 h; CallSetAuto]
         (after_begin PICOMIMI_RP2040 false 0 0)) = Some s
    /\ _override_on s = false /\ _boost_on s = false
    /\ _throttled s = false
    /\ _profile s = PROFILE_TURBO
    /\ in_band (_profile s) (_avg_load s) = true
    /\ F32.lt (thermal_temp (env_adc e)) THERMAL_RELEASE = true
    /\ option_map _profile (scale_cycle e 10000 s) = Some PROFILE_PERFORMANCE
    /\ option_map _profile (scale_cycle e' 500 s) = Some PROFILE_BALANCED.
Proof.
  intros h e e'. eexists. split; [vm_compute; reflexivity|].
  repeat split; vm_compute; reflexivity.
Qed.

(** C9 (amended): when the governor is not throttled, the profile never
    changes across ticks, and so across their scale-evaluation cycles, as
    long as at each tick no byte waits on the console, the smoothed load
    lies in the hysteresis band of the current profile (at or above its
    down-threshold, below the threshold of its next upward rule), the
    measured temperature is below the warn threshold and the turbo ceiling
    is not reached; an override or a boost does not matter.  In the band the
    scale step changes nothing, however many scale steps are taken. *)
Theorem C9_hysteresis_holds (es : list Env) (s : State) :
  _throttled s = false ->
  quiet_ticks es s = true ->
  exists s',
    calls (map CallRun es) s = Some s'
    /\ _profile s' = _profile s
    /\ _throttled s' = false
    /\ (in_band (_profile s) (_avg_load s) = true ->
        forall hs, scales hs s = Some s).
Proof.
  intros Ht Hq.
  assert (exists s',
            calls (map CallRun es) s = Some s'
            /\ _profile s' = _profile s /\ _throttled s' = false)
    as (s' & E & P & T).
  { revert s Ht Hq. induction es as [|e es IH]; intros s Ht Hq.
    - exists s. auto.
    - cbn [quiet_ticks] in Hq. apply andb_prop in Hq as [Hq Hrest].
      destruct (run_in_band e s Ht Hq) as (s1 & E1 & P1 & T1).
      rewrite E1 in Hrest.
      destruct (IH s1 T1 Hrest) as (s2 & E2 & P2 & T2).
      exists s2. cbn [map calls call]. rewrite E1. cbn [bind].
      split; [exact E2|]. split; congruence. }
  exists s'. split; [exact E|]. split; [exact P|]. split; [exact T|].
  intros Hb hs. apply scales_in_band; assumption.
Qed.

Lemma C9_witness :
  let h := {| hw_now_ms := 7; hw_clk_ok := fun _ => true |} in
  let e1 :=
    {| env_us_entry := 100000; env_ms := 100; env_us_load := 100000;
       env_adc := 876; env_ms_timeouts := 100; env_hw := h;
       env_serial := []; env_us_exit := 100050 |} in
  let e2 :=
    {| env_us_entry := 200000; env_ms := 200; env_us_load := 200000;
       env_adc := 876; env_ms_timeouts := 200; env_hw := h;
       env_serial := []; env_us_exit := 200050 |} in
  let s := set_avg_load (F32.of_Z 15) (after_begin PICOMIMI_RP2350 false 0 0) in
  _throttled s = false
  /\ quiet_ticks [e1; e2] s = true
  /\ exists s',
       calls [CallRun e1; CallRun e2] s = Some s'
       /\ _profile s' = PROFILE_BALANCED
       /\ _throttled s' = false.
Proof.
  intros h e1 e2 s.
  assert (Hq : quiet_ticks [e1; e2] s = true) by (vm_compute; reflexivity).
  split; [reflexivity|]. split; [exact Hq|].
  destruct (C9_hysteresis_holds [e1; e2] s eq_refl Hq)
    as (s' & E & P & T & _).
  exists s'. auto.
Defined.

(** ** The tick and the calls keep the governor well-formed *)

Lemma sampled_control (e : Env) (s : State) :
  wf (sampled e s) = wf s
  /\ turbo_inv (sampled e s) = turbo_inv s
  /\ config (sampled e s) = config s
  /\ _override_on (sampled e s) = _override_on s
  /\ _throttled (sampled e s) = _throttled s
  /\ _profile (sampled e s) = _profile s.
Proof.
  unfold sampled, _updateLoad, account_work.
  split_ifs; cbn; repeat split; reflexivity.
Qed.

Lemma run_step (e : Env) (s : State) :
  wf s = true -> _init s = true ->
  exists s', run e s = Some s' /\ step_ok (sampled e s) s'.
Proof.
  intros Hwf Hinit. unfold run. rewrite Hinit. cbn [negb].
  fold (sampled e s).
  destruct (sampled_control e s) as (Ew & _).
  assert (W0 : wf (sampled e s) = true) by congruence.
  set (s0 := sampled e s) in *.
  assert (exists s1,
            (if SCALE_INTERVAL_MS <=? u64 (env_ms e - _last_scale_ms s0)
             then scale_cycle e (env_ms e) s0 else Some s0) = Some s1
            /\ step_ok s0 s1) as (s1 & -> & H1).
  { destruct (SCALE_INTERVAL_MS <=? u64 (env_ms e - _last_scale_ms s0)).
    - apply scale_cycle_step, W0.
    - eexists. split; [reflexivity|]. apply step_ok_refl, W0. }
  cbn [bind]. pose proof (step_ok_wf _ _ H1) as W1.
  set (s2 := if chip_eqb (_chip s1) PICOMIMI_RP2350
                && profile_eqb (_profile s1) PROFILE_ULTRA_LOW
                && F32.lt (_avg_load s1) (F32.of_Z ULTRA_DOWN)
                && negb (_throttled s1)
             then _wfi s1 else s1).
  assert (H2 : step_ok s1 s2).
  { subst s2. unfold _wfi, log. split_ifs; frame_step W1. }
  pose proof (step_ok_wf _ _ H2) as W2.
  assert (exists s3,
            (if _manual s2 then _handleSerial (env_serial e) s2 else Some s2)
            = Some s3 /\ step_ok s2 s3) as (s3 & -> & H3).
  { destruct (_manual s2).
    - apply handleSerial_step, W2.
    - eexists. split; [reflexivity|]. apply step_ok_refl, W2. }
  cbn [bind]. eexists. split; [reflexivity|].
  refine (step_ok_trans _ _ _ H1 (step_ok_trans _ _ _ H2
            (step_ok_trans _ _ _ H3 _))).
  frame_step (step_ok_wf _ _ H3).
Qed.

Lemma call_keeps (c : Call) (s : State) :
  wf s = true ->
  exists s',
    call c s = Some s'
    /\ wf s' = true
    /\ config s' = config s
    /\ (turbo_inv s = true -> turbo_inv s' = true).
Proof.
  intros Hwf.
  assert (Hstep : forall o, (exists s', o = Some s' /\ step_ok s s') ->
            exists s', o = Some s' /\ wf s' = true /\ config s' = config s
                       /\ (turbo_inv s = true -> turbo_inv s' = true)).
  { intros o (s' & -> & W & _ & C & T). eauto. }
  destruct c; cbn [call].
  - destruct (_init s) eqn:Hinit.
    + destruct (run_step e s Hwf Hinit) as (s' & -> & W & _ & C & T).
      destruct (sampled_control e s) as (_ & Et & Ec & _).
      eexists. split; [reflexivity|]. split; [exact W|].
      split; [congruence|]. intros H. apply T. congruence.
    + rewrite (run_before_begin e s Hinit). eauto.
  - eexists. split; [reflexivity|]. unfold idle, log. cbn. auto.
  - eexists. split; [reflexivity|]. unfold idleMicros, log. cbn. auto.
  - apply Hstep, inputBoost_step, Hwf.
  - apply Hstep, setProfile_step, Hwf.
  - apply Hstep, setProfile_step, Hwf.
  - apply Hstep, setProfile_step, Hwf.
  - apply Hstep. eexists. split; [reflexivity|]. apply setAuto_step, Hwf.
Qed.

Lemma calls_keep (cs : list Call) (s : State) :
  wf s = true ->
  exists s',
    calls cs s = Some s'
    /\ wf s' = true
    /\ config s' = config s
    /\ (turbo_inv s = true -> turbo_inv s' = true).
Proof.
  revert s. induction cs as [|c cs IH]; intros s Hwf.
  - exists s. auto.
  - cbn [calls].
    destruct (call_keeps c s Hwf) as (s1 & -> & W1 & C1 & T1). cbn [bind].
    destruct (IH s1 W1) as (s2 & -> & W2 & C2 & T2).
    exists s2. repeat split; [exact W2 | congruence | auto].
Qed.

Lemma after_begin_wf (chip : PicomimiChip) (manual : bool)
    (now_us now_ms : Z) :
  wf (after_begin chip manual now_us now_ms) = true
  /\ turbo_inv (after_begin chip manual now_us now_ms) = true
  /\ _init (after_begin chip manual now_us now_ms) = true
  /\ begin chip manual now_us now_ms PicomimiGovernorClass
     = Some (after_begin chip manual now_us now_ms).
Proof. destruct chip; repeat split. Qed.

Lemma turbo_inv_spec (s : State) :
  turbo_inv s = true <->
  (_turbo_on s = true -> _profile s = PROFILE_TURBO).
Proof.
  unfold turbo_inv. destruct (_turbo_on s); cbn [implb].
  - rewrite profile_eqb_eq. tauto.
  - split; [discriminate | reflexivity].
Qed.

Lemma begin_shape (chip : PicomimiChip) (manual : bool) (now_us now_ms : Z)
    (s0 : State) :
  exists s1,
    begin chip manual now_us now_ms s0 = Some s1
    /\ wf s1 = true
    /\ _profile s1 = PROFILE_BALANCED
    /\ _turbo_on s1 = _turbo_on s0.
Proof.
  unfold begin. destruct chip; cbn; eexists; repeat split.
Qed.

(** C10, as the claim states it, fails: [begin] is an operation too, and it
    sets the profile to BALANCED and leaves turbo-active as it was.  After
    [begin], [setTurbo] and a second [begin], turbo-active is set and the
    profile is BALANCED. *)
Lemma C10_counterexample :
  let h := {| hw_now_ms := 5; hw_clk_ok := fun _ => true |} in
  option_map (fun s => (_turbo_on s, _profile s))
    (bind (calls [CallSetTurbo 30 5 h] (after_begin PICOMIMI_RP2040 false 0 0))
       (begin PICOMIMI_RP2040 false 9000 9))
  = Some (true, PROFILE_BALANCED).
Proof. vm_compute. reflexivity. Qed.

(** C10 (amended): after [begin] on a governor whose turbo-active flag is
    clear (a freshly constructed one in particular) and any sequence of
    calls of the other operations, each call returns and, in the state it
    leaves, turbo-active implies that the current profile is TURBO.  In such
    a state applying a profile sets turbo-active exactly when the profile is
    TURBO; applying TURBO while turbo-active is set keeps the recorded turbo
    start, and applying it while turbo-active is clear records the current
    time; and the expiry path of the timing supervisor clears turbo-active
    and leaves a profile other than TURBO. *)
Theorem C10_turbo_flag_means_turbo_profile (chip : PicomimiChip)
    (manual : bool) (now_us now_ms : Z) (cs : list Call) (s0 : State) :
  _turbo_on s0 = false ->
  exists s1 s,
    begin chip manual now_us now_ms s0 = Some s1
    /\ calls cs s1 = Some s
    /\ (_turbo_on s = true -> _profile s = PROFILE_TURBO)
    /\ (forall h p,
          ord p < ord PROFILE_COUNT ->
          exists s',
            _apply h p s = Some s'
            /\ _profile s' = p
            /\ _turbo_on s' = profile_eqb p PROFILE_TURBO
            /\ (p = PROFILE_TURBO ->
                _turbo_start_ms s'
                = if _turbo_on s then _turbo_start_ms s else hw_now_ms h))
    /\ (forall now h,
          _turbo_on s = true ->
          TURBO_MAX_MS <= u32 (now - _turbo_start_ms s) ->
          exists s',
            _timeouts now h s = Some s'
            /\ _turbo_on s' = false
            /\ _profile s' = PROFILE_PERFORMANCE).
Proof.
  intros Hoff.
  destruct (begin_shape chip manual now_us now_ms s0)
    as (s1 & E1 & W1 & P1 & T1).
  assert (I1 : turbo_inv s1 = true).
  { unfold turbo_inv. rewrite T1, Hoff. reflexivity. }
  destruct (calls_keep cs _ W1) as (s & E & W & _ & T).
  pose proof (proj1 (turbo_inv_spec s) (T I1)) as Hinv.
  exists s1, s. split; [exact E1|]. split; [exact E|]. split; [exact Hinv|].
  split.
  - intros h p Hp.
    destruct (apply_shape h p s W Hp) as (khz & lg & ->).
    eexists. split; [reflexivity|]. unfold applied. cbn.
    split; [reflexivity|]. split; [reflexivity|].
    intros ->. cbn. destruct (_turbo_on s); reflexivity.
  - intros now h Hon Hexp. specialize (Hinv Hon).
    unfold _timeouts. rewrite Hon.
    apply Z.leb_le in Hexp. rewrite Hexp. cbn [andb].
    cbn [_profile set_turbo_on]. rewrite Hinv.
    change (profile_eqb PROFILE_TURBO PROFILE_TURBO) with true.
    cbv iota.
    destruct (apply_shape h PROFILE_PERFORMANCE (set_turbo_on false s))
      as (khz & lg & ->); [exact W | simpl; lia |].
    cbn [bind]. eexists. split; [reflexivity|].
    split_ifs; cbn; split; reflexivity.
Qed.

Lemma C10_witness :
  let h := {| hw_now_ms := 5; hw_clk_ok := fun _ => true |} in
  _turbo_on PicomimiGovernorClass = false
  /\ exists s1 s,
       begin PICOMIMI_RP2350 false 0 0 PicomimiGovernorClass = Some s1
       /\ calls [CallSetTurbo 30 5 h; CallSetAuto] s1 = Some s
       /\ (_turbo_on s = true -> _profile s = PROFILE_TURBO).
Proof.
  intros h. split; [reflexivity|].
  destruct (C10_turbo_flag_means_turbo_profile PICOMIMI_RP2350 false 0 0
              [CallSetTurbo 30 5 h; CallSetAuto] PicomimiGovernorClass
              eq_refl) as (s1 & s & E1 & E & Hinv & _).
  exists s1, s. auto.
Defined.

(** ** The throttle cap under automatic operation *)

(** Decides a goal about the profile and the throttled flag of [s] by
    cases. *)
Ltac by_profile s :=
  unfold capped_at in *;
  repeat match goal with
         | H : context [_profile s] |- _ => revert H
         | H : context [_throttled s] |- _ => revert H
         end;
  unfold profile_leb, profile_ltb, profile_eqb;
  destruct (_profile s), (_throttled s); cbn;
  intros; try reflexivity; try discriminate; try congruence;
  try (apply Z.leb_le;
       repeat match goal with
              | H : (_ <=? _) = true |- _ => apply Z.leb_le in H
              end; lia).

Lemma sampled_capped (b : Z) (e : Env) (s : State) :
  capped_at b (sampled e s) = capped_at b s.
Proof.
  unfold capped_at.
  destruct (sampled_control e s) as (_ & _ & _ & _ & Et & Ep).
  rewrite Et, Ep. reflexivity.
Qed.

Lemma thermal_capped (b : Z) (raw : Z) (h : Hw) (s : State) :
  wf s = true -> ord PROFILE_BALANCED <= b -> capped_at b s = true ->
  exists s',
    _thermal raw h s = Some s'
    /\ capped_at b s' = true /\ _override_on s' = _override_on s.
Proof.
  intros Hwf Hb Hcap. cbn in Hb. unfold _thermal.
  cbn [_temp set_temp log _profile _throttled set_hw_log set_throttled].
  split_ifs; open_apply Hwf;
    (eexists; split; [reflexivity|]); (split; [|reflexivity]);
    unfold capped_at, applied; cbn; by_profile s.
Qed.

Lemma timeouts_capped (b : Z) (now : Z) (h : Hw) (s : State) :
  wf s = true -> ord PROFILE_BALANCED <= b -> capped_at b s = true ->
  exists s',
    _timeouts now h s = Some s'
    /\ capped_at b s' = true
    /\ (_override_on s = false -> _override_on s' = false).
Proof.
  intros Hwf Hb Hcap. cbn in Hb. unfold _timeouts.
  destruct (_turbo_on s && (TURBO_MAX_MS <=? u32 (now - _turbo_start_ms s))).
  - cbn [_profile set_turbo_on].
    destruct (profile_eqb (_profile s) PROFILE_TURBO) eqn:Ep.
    + open_apply Hwf. cbn [bind]. eexists. split; [reflexivity|].
      split_ifs; unfold capped_at, applied; cbn;
        (split; [by_profile s | try congruence; try reflexivity]).
    + cbn [bind]. eexists. split; [reflexivity|].
      split_ifs; unfold capped_at; cbn;
        (split; [by_profile s | try congruence; try reflexivity]).
  - cbn [bind]. eexists. split; [reflexivity|].
    split_ifs; unfold capped_at; cbn;
      (split; [by_profile s | try congruence; try reflexivity]).
Qed.

Lemma scale_capped (b : Z) (h : Hw) (s : State) :
  wf s = true -> ord PROFILE_BALANCED <= b -> capped_at b s = true ->
  exists s',
    _scale h s = Some s'
    /\ capped_at b s' = true /\ _override_on s' = _override_on s.
Proof.
  intros Hwf Hb Hcap. unfold _scale.
  destruct (scale_target_valid s Hwf) as (Hv & Ht).
  destruct (_boost_on s && profile_leb PROFILE_PERFORMANCE (_profile s)).
  - eexists. split; [reflexivity|]. split; [exact Hcap | reflexivity].
  - destruct (negb (profile_eqb (scale_target s) (_profile s))).
    + destruct (apply_shape h (scale_target s) s Hwf Hv) as (khz & lg & ->).
      eexists. split; [reflexivity|]. split; [|reflexivity].
      unfold capped_at, applied. cbn.
      destruct (_throttled s); [|reflexivity]. cbn.
      apply Z.leb_le. specialize (Ht eq_refl). lia.
    + eexists. split; [reflexivity|]. split; [exact Hcap | reflexivity].
Qed.

Lemma scale_cycle_capped (b : Z) (e : Env) (now_ms : Z) (s : State) :
  wf s = true -> ord PROFILE_BALANCED <= b -> capped_at b s = true ->
  _override_on s = false ->
  exists s',
    scale_cycle e now_ms s = Some s'
    /\ capped_at b s' = true /\ _override_on s' = false.
Proof.
  intros Hwf Hb Hcap Hov. unfold scale_cycle.
  destruct (thermal_step (env_adc e) (env_hw e) s Hwf) as (s1 & E1 & H1).
  destruct (thermal_capped b (env_adc e) (env_hw e) s Hwf Hb Hcap)
    as (s1' & E1' & C1 & O1).
  rewrite E1 in E1'. injection E1' as <-. rewrite E1. cbn [bind].
  pose proof (step_ok_wf _ _ H1) as W1.
  destruct (timeouts_step (env_ms_timeouts e) (env_hw e) s1 W1)
    as (s2 & E2 & H2).
  destruct (timeouts_capped b (env_ms_timeouts e) (env_hw e) s1 W1 Hb C1)
    as (s2' & E2' & C2 & O2).
  rewrite E2 in E2'. injection E2' as <-. rewrite E2. cbn [bind].
  pose proof (step_ok_wf _ _ H2) as W2.
  assert (Hov2 : _override_on s2 = false) by (apply O2; congruence).
  rewrite Hov2. cbn [negb].
  destruct (scale_capped b (env_hw e) s2 W2 Hb C2) as (s3 & -> & C3 & O3).
  cbn [bind]. eexists. split; [reflexivity|].
  split; [exact C3 | cbn; congruence].
Qed.

Lemma run_capped (b : Z) (e : Env) (s : State) :
  wf s = true -> ord PROFILE_BALANCED <= b -> capped_at b s = true ->
  _override_on s = false ->
  env_serial e = [] ->
  exists s',
    run e s = Some s' /\ capped_at b s' = true /\ _override_on s' = false.
Proof.
  intros Hwf Hb Hcap Hov Hser. unfold run.
  destruct (_init s); cbn [negb]; [|eauto].
  fold (sampled e s).
  destruct (sampled_control e s) as (Ew & _ & _ & Eo & _).
  pose proof (sampled_capped b e s) as Ec.
  assert (W0 : wf (sampled e s) = true) by congruence.
  assert (C0 : capped_at b (sampled e s) = true) by congruence.
  assert (O0 : _override_on (sampled e s) = false) by congruence.
  set (s0 := sampled e s) in *.
  assert (exists s1,
            (if SCALE_INTERVAL_MS <=? u64 (env_ms e - _last_scale_ms s0)
             then scale_cycle e (env_ms e) s0 else Some s0) = Some s1
            /\ capped_at b s1 = true /\ _override_on s1 = false)
    as (s1 & -> & C1 & O1).
  { destruct (SCALE_INTERVAL_MS <=? u64 (env_ms e - _last_scale_ms s0)).
    - apply scale_cycle_capped; assumption.
    - eauto. }
  cbn [bind]. rewrite Hser.
  assert (Hser' : forall s2 : State,
            (if _manual s2 then _handleSerial [] s2 else Some s2) = Some s2)
    by (intros s2; destruct (_manual s2); reflexivity).
  rewrite Hser'. cbn [bind]. eexists. split; [reflexivity|].
  unfold _wfi, log. split_ifs; unfold capped_at; cbn; split; assumption.
Qed.

Lemma inputBoost_throttled (now_ms : Z) (h : Hw) (s : State) :
  _throttled s = true -> inputBoost now_ms h s = Some s.
Proof.
  intros H. unfold inputBoost. rewrite H, orb_true_r. reflexivity.
Qed.

Lemma inputBoost_capped (b : Z) (now_ms : Z) (h : Hw) (s : State) :
  wf s = true -> capped_at b s = true ->
  exists s',
    inputBoost now_ms h s = Some s'
    /\ capped_at b s' = true /\ _override_on s' = _override_on s.
Proof.
  intros Hwf Hcap. unfold inputBoost.
  destruct (_throttled s) eqn:Et.
  - rewrite orb_true_r. eauto.
  - rewrite orb_false_r. destruct (negb (_init s)); [eauto|].
    cbn [_profile set_boost_on set_boost_start_ms].
    destruct (profile_ltb (_profile s) PROFILE_PERFORMANCE).
    + open_apply Hwf. eexists. split; [reflexivity|].
      unfold capped_at, applied. cbn. rewrite Et. split; reflexivity.
    + eexists. split; [reflexivity|]. unfold capped_at. cbn. rewrite Et.
      split; reflexivity.
Qed.

Lemma automatic_call_capped (b : Z) (c : Call) (s : State) :
  wf s = true -> ord PROFILE_BALANCED <= b -> capped_at b s = true ->
  _override_on s = false ->
  automatic c = true ->
  exists s',
    call c s = Some s'
    /\ wf s' = true /\ capped_at b s' = true /\ _override_on s' = false.
Proof.
  intros Hwf Hb Hcap Hov Ha.
  destruct (call_keeps c s Hwf) as (s' & E & W & _).
  exists s'. split; [exact E|]. split; [exact W|].
  destruct c; try discriminate Ha; cbn [call automatic] in *.
  - destruct (env_serial e) eqn:Hser; [|discriminate Ha].
    destruct (run_capped b e s Hwf Hb Hcap Hov Hser) as (s1 & E1 & C1 & O1).
    rewrite E in E1. injection E1 as <-. split; assumption.
  - injection E as <-. unfold idle, log, capped_at. cbn. split; assumption.
  - injection E as <-. unfold idleMicros, log, capped_at. cbn.
    split; assumption.
  - destruct (inputBoost_capped b now_ms h s Hwf Hcap)
      as (s1 & E1 & C1 & O1).
    rewrite E in E1. injection E1 as <-. split; congruence.
Qed.

Lemma capped_at_spec (b : Z) (s : State) :
  capped_at b s = true <->
  (_throttled s = true -> ord (_profile s) <= b).
Proof.
  unfold capped_at. destruct (_throttled s); cbn [implb].
  - rewrite Z.leb_le. tauto.
  - split; [discriminate | reflexivity].
Qed.

Lemma automatic_calls_capped (b : Z) (cs : list Call) (s : State) :
  wf s = true -> ord PROFILE_BALANCED <= b -> capped_at b s = true ->
  _override_on s = false ->
  forallb automatic cs = true ->
  exists s',
    calls cs s = Some s'
    /\ wf s' = true /\ capped_at b s' = true /\ _override_on s' = false.
Proof.
  revert s. induction cs as [|c cs IH]; intros s Hwf Hb Hcap Hov Ha.
  - exists s. auto.
  - cbn [forallb] in Ha. apply andb_prop in Ha as [Hc Hcs].
    destruct (automatic_call_capped b c s Hwf Hb Hcap Hov Hc)
      as (s1 & E1 & W1 & C1 & O1).
    cbn [calls]. rewrite E1. cbn [bind]. apply IH; assumption.
Qed.

(** The scale step of a throttled governor: skipped when a boost holds the
    profile at PERFORMANCE or above, and otherwise it leaves a profile of at
    most BALANCED. *)
Lemma scale_flags (h : Hw) (s : State) :
  wf s = true ->
  exists s',
    _scale h s = Some s'
    /\ _throttled s' = _throttled s
    /\ _override_on s' = _override_on s
    /\ _boost_on s' = _boost_on s
    /\ _boost_start_ms s' = _boost_start_ms s
    /\ (_throttled s = true ->
        if _boost_on s && profile_leb PROFILE_PERFORMANCE (_profile s)
        then s' = s
        else ord (_profile s') <= ord PROFILE_BALANCED).
Proof.
  intros Hwf. unfold _scale.
  destruct (scale_target_valid s Hwf) as (Hv & Ht).
  destruct (_boost_on s && profile_leb PROFILE_PERFORMANCE (_profile s)).
  - exists s. repeat split; reflexivity.
  - destruct (profile_eqb (scale_target s) (_profile s)) eqn:Et;
      cbn [negb].
    + apply profile_eqb_eq in Et. exists s.
      repeat split; try reflexivity. intros Hthr. rewrite <- Et. auto.
    + destruct (apply_shape h (scale_target s) s Hwf Hv) as (khz & lg & ->).
      eexists. split; [reflexivity|]. cbn.
      repeat split; try reflexivity. exact Ht.
Qed.

Lemma cycle_throttled (e : Env) (now_ms : Z) (s : State) :
  wf s = true -> _override_on s = false ->
  exists s',
    scale_cycle e now_ms s = Some s'
    /\ _override_on s' = false
    /\ (_throttled s' = true ->
        ord (_profile s') <= ord PROFILE_BALANCED
        \/ (_boost_on s' = true
            /\ ord PROFILE_PERFORMANCE <= ord (_profile s')
            /\ u32 (env_ms_timeouts e - _boost_start_ms s')
               < BOOST_DURATION_MS)).
Proof.
  intros Hwf Hov. unfold scale_cycle.
  destruct (thermal_effect (env_adc e) (env_hw e) s Hwf)
    as (s1 & -> & W1 & _ & _ & _ & _ & _ & _ & O1 & _).
  cbn [bind].
  destruct (timeouts_effect (env_ms_timeouts e) (env_hw e) s1 W1)
    as (s2 & -> & W2 & _ & _ & _ & B2 & O2 & _ & S2).
  cbn [bind].
  assert (Hov2 : _override_on s2 = false).
  { rewrite O2, O1, Hov. reflexivity. }
  rewrite Hov2. cbn [negb].
  destruct (scale_flags (env_hw e) s2 W2)
    as (s3 & -> & T3 & O3 & B3 & S3 & H3).
  cbn [bind]. eexists. split; [reflexivity|]. cbn.
  split; [congruence|]. intros Hthr. rewrite T3 in Hthr.
  specialize (H3 Hthr).
  destruct (_boost_on s2 && profile_leb PROFILE_PERFORMANCE (_profile s2))
    eqn:Eb; [right|left; exact H3].
  subst s3. apply andb_prop in Eb as [Eon Ep].
  split; [exact Eon|]. split; [apply Z.leb_le; exact Ep|].
  rewrite Eon in B2. symmetry in B2. apply andb_prop in B2 as [_ B2].
  apply negb_true_iff in B2. apply Z.leb_gt in B2. rewrite S2. exact B2.
Qed.

(** C2, as the claim states it, fails.  A tick that throttles, [setTurbo]
    and [setAuto] leave a governor with no override pending that is
    throttled at TURBO; in the tick that comes 10 seconds later the timing
    supervisor sets the profile to PERFORMANCE while the governor is
    throttled, and the clock is set to the PERFORMANCE frequency before the
    scale step clamps the profile. *)
Lemma C2_counterexample :
  let h := {| hw_now_ms := 150; hw_clk_ok := fun _ => true |} in
  let e1 :=
    {| env_us_entry := 100000; env_ms := 100; env_us_load := 100000;
       env_adc := 770; env_ms_timeouts := 100; env_hw := h;
       env_serial := []; env_us_exit := 100050 |} in
  let e2 :=
    {| env_us_entry := 10200000; env_ms := 10200; env_us_load := 10200000;
       env_adc := 770; env_ms_timeouts := 10200; env_hw := h;
       env_serial := []; env_us_exit := 10200050 |} in
  exists s s',
    calls [CallRun e1; CallSetTurbo 0 150 h; CallSetAuto]
      (after_begin PICOMIMI_RP2040 false 0 0) = Some s
    /\ _override_on s = false /\ _throttled s = true
    /\ automatic (CallRun e2) = true
    /\ option_map (fun x => (_throttled x, _profile x))
         (bind (_thermal (env_adc e2) h s) (_timeouts 10200 h))
       = Some (true, PROFILE_PERFORMANCE)
    /\ call (CallRun e2) s = Some s'
    /\ _throttled s' = true
    /\ In (EvSetClock 200000 true) (hw_log s').
Proof.
  intros h e1 e2. eexists. eexists.
  split; [vm_compute; reflexivity|].
  split; [reflexivity|]. split; [reflexivity|]. split; [reflexivity|].
  split; [vm_compute; reflexivity|].
  split; [vm_compute; reflexivity|].
  split; [reflexivity|]. cbn. tauto.
Qed.

(** C2 (amended): take a well-formed governor with no override pending.
    Every sequence of automatic calls (ticks with no console byte waiting,
    input boosts, idle annotations) returns and leaves no override pending,
    and automatic operation never raises the profile of a throttled
    governor above BALANCED: if the governor is throttled afterwards, its
    profile is at most BALANCED when at the start it was not throttled or
    its profile was at most BALANCED, and at most the profile of the start
    otherwise.  In a throttled state the target of the scale step is at most
    BALANCED whatever the smoothed load, and [inputBoost] is a no-op.  Every
    scale-evaluation cycle from such a state ends, if throttled, with a
    profile of at most BALANCED, unless an input boost less than 300 ms old
    holds the profile at PERFORMANCE or above and the scale step is
    skipped. *)
Theorem C2_throttled_caps_profile (cs : list Call) (s : State) :
  wf s = true ->
  _override_on s = false ->
  forallb automatic cs = true ->
  exists s',
    calls cs s = Some s'
    /\ _override_on s' = false
    /\ (_throttled s' = true ->
        ord (_profile s')
        <= (if _throttled s
            then Z.max (ord PROFILE_BALANCED) (ord (_profile s))
            else ord PROFILE_BALANCED)
        /\ ord (scale_target s') <= ord PROFILE_BALANCED
        /\ forall now_ms h, inputBoost now_ms h s' = Some s')
    /\ (forall e now_ms,
          exists s2,
            scale_cycle e now_ms s' = Some s2
            /\ _override_on s2 = false
            /\ (_throttled s2 = true ->
                ord (_profile s2) <= ord PROFILE_BALANCED
                \/ (_boost_on s2 = true
                    /\ ord PROFILE_PERFORMANCE <= ord (_profile s2)
                    /\ u32 (env_ms_timeouts e - _boost_start_ms s2)
                       < BOOST_DURATION_MS))).
Proof.
  intros Hwf Hov Ha.
  set (b := if _throttled s
            then Z.max (ord PROFILE_BALANCED) (ord (_profile s))
            else ord PROFILE_BALANCED).
  assert (Hb : ord PROFILE_BALANCED <= b)
    by (subst b; destruct (_throttled s); lia).
  assert (Hcap : capped_at b s = true).
  { apply capped_at_spec. intros Ht. subst b. rewrite Ht. lia. }
  destruct (automatic_calls_capped b cs s Hwf Hb Hcap Hov Ha)
    as (s' & E & W & C & O).
  exists s'. split; [exact E|]. split; [exact O|]. split.
  - intros Ht. split; [apply capped_at_spec; assumption|].
    split; [apply scale_target_valid; assumption|].
    intros now_ms h. apply inputBoost_throttled, Ht.
  - intros e now_ms. apply cycle_throttled; assumption.
Qed.

Lemma C2_witness :
  let h := {| hw_now_ms := 100; hw_clk_ok := fun _ => true |} in
  let e1 :=
    {| env_us_entry := 100000; env_ms := 100; env_us_load := 100000;
       env_adc := 770; env_ms_timeouts := 100; env_hw := h;
       env_serial := []; env_us_exit := 100050 |} in
  let e2 :=
    {| env_us_entry := 300000; env_ms := 300; env_us_load := 300000;
       env_adc := 770; env_ms_timeouts := 300; env_hw := h;
       env_serial := []; env_us_exit := 300050 |} in
  let s := after_begin PICOMIMI_RP2350 false 0 0 in
  let cs := [CallRun e1; CallInputBoost 150 h; CallRun e2] in
  wf s = true
  /\ _override_on s = false
  /\ forallb automatic cs = true
  /\ exists s',
       calls cs s = Some s'
       /\ _override_on s' = false
       /\ (_throttled s' = true ->
           ord (_profile s') <= ord PROFILE_BALANCED).
Proof.
  intros h e1 e2 s cs.
  split; [reflexivity|]. split; [reflexivity|]. split; [reflexivity|].
  destruct (C2_throttled_caps_profile cs s eq_refl eq_refl eq_refl)
    as (s' & E & O & H & _).
  exists s'. split; [exact E|]. split; [exact O|].
  intros Ht. exact (proj1 (H Ht)).
Defined.

(** An ADC reading of 770 is about 77 degrees: the tick throttles. *)
Example throttled_run :
  let h := {| hw_now_ms := 100; hw_clk_ok := fun _ => true |} in
  let e1 :=
    {| env_us_entry := 100000; env_ms := 100; env_us_load := 100000;
       env_adc := 770; env_ms_timeouts := 100; env_hw := h;
       env_serial := []; env_us_exit := 100050 |} in
  option_map (fun s => (_throttled s, _profile s))
    (run e1 (after_begin PICOMIMI_RP2350 false 0 0))
  = Some (true, PROFILE_POWERSAVE).
Proof. vm_compute. reflexivity. Qed.

(** ** Work accounting *)

Lemma work_time_max (now_us : Z) (s : State) :
  work_time now_us s
  = Z.max (u64 (now_us - _last_run_us s) - _total_idle_time_us s) 0.
Proof.
  unfold work_time.
  destruct (u64 (now_us - _last_run_us s) >? _total_idle_time_us s) eqn:E.
  - apply Z.gtb_lt in E. lia.
  - rewrite Z.gtb_ltb in E. apply Z.ltb_ge in E. lia.
Qed.

Lemma account_work_total (now_us : Z) (s : State) :
  _total_loop_time_us (account_work now_us s)
  = (if _first_run s then _total_loop_time_us s
     else u64 (_total_loop_time_us s + work_added now_us s))
  /\ _total_idle_time_us (account_work now_us s) = 0
  /\ _first_run (account_work now_us s) = false
  /\ _period_start_us (account_work now_us s) = _period_start_us s.
Proof.
  unfold account_work, work_added. rewrite work_time_max.
  destruct (_first_run s); cbn; repeat split; reflexivity.
Qed.

Lemma idle_offsets_elapsed (ms now_us : Z) (s : State) :
  0 <= ms < 2 ^ 32 ->
  _total_idle_time_us s = 0 ->
  u64 (now_us - _last_run_us s) = ms * 1000 ->
  work_added now_us (idle ms s) = 0.
Proof.
  intros Hms Hidle Hel. unfold work_added, idle, log. cbn.
  destruct (_first_run s); [reflexivity|].
  rewrite Hel, Hidle. cbn [Z.add]. unfold u64.
  rewrite (Z.mod_small (ms * 1000)) by lia.
  rewrite (Z.mod_small (ms * 1000)) by lia.
  lia.
Qed.

(** C6: a tick of an initialised governor returns; its accounting step adds
    to the period's work total nothing on the first tick and, on every
    later tick, the time since the previous tick less the accumulated idle
    time, floored at zero (in 64-bit arithmetic), and resets the idle
    accumulator.  After the tick the idle accumulator is zero, and the work
    total is the accounted one unless the sampling period has elapsed, in
    which case the load sample is taken from the accounted total and the
    total restarts at zero.  A tick that follows [idle ms] by exactly [ms]
    milliseconds adds no work. *)
Theorem C6_work_accounting (e : Env) (s : State) :
  wf s = true ->
  _init s = true ->
  let now := env_us_entry e in
  let accounted :=
    if _first_run s then _total_loop_time_us s
    else u64 (_total_loop_time_us s + work_added now s) in
  let elapsed := u64 (env_us_load e - _period_start_us s) in
  (work_added now s
   = if _first_run s then 0
     else Z.max (u64 (now - _last_run_us s) - _total_idle_time_us s) 0)
  /\ _total_loop_time_us (account_work now s) = accounted
  /\ _total_idle_time_us (account_work now s) = 0
  /\ (exists s',
        run e s = Some s'
        /\ _total_idle_time_us s' = 0
        /\ _first_run s' = false
        /\ (elapsed < LOAD_PERIOD_MS * 1000 ->
            _total_loop_time_us s' = accounted)
        /\ (LOAD_PERIOD_MS * 1000 <= elapsed ->
            _total_loop_time_us s' = 0
            /\ _instant_load s' = load_sample accounted elapsed))
  /\ (forall ms,
        0 <= ms < 2 ^ 32 ->
        _total_idle_time_us s = 0 ->
        u64 (now - _last_run_us s) = ms * 1000 ->
        work_added now (idle ms s) = 0).
Proof.
  intros Hwf Hinit now accounted elapsed.
  destruct (account_work_total now s) as (Ht & Hi & Hf & Hp).
  split; [reflexivity|]. split; [exact Ht|]. split; [exact Hi|].
  split.
  - destruct (run_step e s Hwf Hinit) as (s' & E & _ & Hs & _).
    exists s'. split; [exact E|].
    unfold sampler in Hs. injection Hs as H1 H2 H3 H4 H5 H6.
    unfold sampled in *. fold now in H1, H2, H3, H4, H5, H6.
    assert (Hel : u64 (env_us_load e - _period_start_us (account_work now s))
                  = elapsed) by (rewrite Hp; reflexivity).
    destruct (Z_lt_le_dec elapsed (LOAD_PERIOD_MS * 1000)) as [Hlt|Hge].
    + rewrite updateLoad_before_period in H1, H2, H4 by (rewrite Hel; exact Hlt).
      split; [congruence|]. split; [congruence|].
      split; [intros _; unfold accounted; congruence | intros Hge; lia].
    + assert (Hge' : LOAD_PERIOD_MS * 1000
                     <= u64 (env_us_load e
                             - _period_start_us (account_work now s)))
        by (rewrite Hel; exact Hge).
      pose proof (updateLoad_instant _ _ Hge') as I1.
      pose proof (updateLoad_resets _ _ Hge') as I4.
      rewrite Hel, Ht in I1.
      assert (Hidle' : _total_idle_time_us
                         (_updateLoad (env_us_load e) (account_work now s)) = 0).
      { unfold _updateLoad. split_ifs; cbn; exact Hi. }
      assert (Hfirst' : _first_run
                          (_updateLoad (env_us_load e) (account_work now s))
                        = false).
      { unfold _updateLoad. split_ifs; cbn; exact Hf. }
      split; [congruence|]. split; [congruence|].
      split; [intros Hlt; lia | intros _].
      split; [congruence | unfold accounted; congruence].
  - intros ms Hms Hidle Hel. apply idle_offsets_elapsed; assumption.
Qed.

Lemma C6_witness :
  let h := {| hw_now_ms := 0; hw_clk_ok := fun _ => true |} in
  let e :=
    {| env_us_entry := 50000; env_ms := 50; env_us_load := 50000;
       env_adc := 876; env_ms_timeouts := 50; env_hw := h;
       env_serial := []; env_us_exit := 50020 |} in
  let s := set_first_run false (after_begin PICOMIMI_RP2040 false 0 0) in
  wf s = true
  /\ _init s = true
  /\ work_added 50000 s = 50000
  /\ work_added 50000 (idle 50 s) = 0.
Proof.
  intros h e s.
  split; [reflexivity|]. split; [reflexivity|].
  destruct (C6_work_accounting e s eq_refl eq_refl) as (H1 & _ & _ & _ & H5).
  split; [exact H1|].
  apply (H5 50); [lia | reflexivity | reflexivity].
Defined.

(** ** Binary32 rounding

    What the proofs about the loads need of IEEE-754 rounding to nearest
    even, from the definitions of [SpecFloat]. *)

Lemma bpow_pos e : (0 < bpow e)%R.
Proof. apply powerRZ_lt. lra. Qed.

Lemma bpow_add a b : bpow (a + b) = (bpow a * bpow b)%R.
Proof. apply powerRZ_add. lra. Qed.

Lemma bpow_IZR k : 0 <= k -> bpow k = IZR (2 ^ k).
Proof.
  intros Hk. unfold bpow. rewrite <- (Z2Nat.id k Hk) at 1.
  rewrite <- pow_powerRZ. rewrite pow_IZR. rewrite Z2Nat.id by exact Hk.
  reflexivity.
Qed.

Lemma bpow_le a b : a <= b -> (bpow a <= bpow b)%R.
Proof.
  intros H. replace b with (a + (b - a)) by lia. rewrite bpow_add.
  rewrite (bpow_IZR (b - a)) by lia.
  assert (H0 : 0 < 2 ^ (b - a)) by (apply Z.pow_pos_nonneg; lia).
  assert (H1 : 1 <= 2 ^ (b - a)) by lia.
  apply IZR_le in H1. pose proof (bpow_pos a). nra.
Qed.

Lemma bpow_lt a b : a < b -> (bpow a < bpow b)%R.
Proof.
  intros H. replace b with (a + (b - a)) by lia. rewrite bpow_add.
  rewrite (bpow_IZR (b - a)) by lia.
  assert (H0 : 2 ^ 1 <= 2 ^ (b - a)) by (apply Z.pow_le_mono_r; lia).
  change (2 ^ 1) with 2 in H0.
  apply IZR_le in H0. pose proof (bpow_pos a). nra.
Qed.

(** [IZR a * bpow (e + k) = IZR (a * 2 ^ k) * bpow e] *)
Lemma bpow_scale (a e k : Z) :
  0 <= k -> (IZR a * bpow (e + k) = IZR (a * 2 ^ k) * bpow e)%R.
Proof.
  intros Hk. rewrite bpow_add, (bpow_IZR k Hk), mult_IZR. ring.
Qed.

(** ** Number of binary digits *)
Lemma digits_bounds (p : positive) :
  2 ^ (Zpos (digits2_pos p) - 1) <= Zpos p < 2 ^ Zpos (digits2_pos p).
Proof.
  induction p as [p IH|p IH|]; cbn [digits2_pos].
  - rewrite Pos2Z.inj_succ.
    replace (Z.succ (Zpos (digits2_pos p)) - 1) with (Z.succ (Zpos (digits2_pos p) - 1)) by lia.
    rewrite !Z.pow_succ_r by lia. lia.
  - rewrite Pos2Z.inj_succ.
    replace (Z.succ (Zpos (digits2_pos p)) - 1) with (Z.succ (Zpos (digits2_pos p) - 1)) by lia.
    rewrite !Z.pow_succ_r by lia. lia.
  - cbn. lia.
Qed.

(** ** Shifting right *)

Lemma iter_pos_nat {A} (f : A -> A) (p : positive) (x : A) :
  iter_pos f p x = Nat.iter (Pos.to_nat p) f x.
Proof.
  revert x. induction p as [p IH|p IH|]; intros x; cbn [iter_pos].
  - rewrite !IH.
    replace (Pos.to_nat p~1) with (Pos.to_nat p + (Pos.to_nat p + 1))%nat
      by lia.
    rewrite !Nat.iter_add. reflexivity.
  - rewrite !IH.
    replace (Pos.to_nat p~0) with (Pos.to_nat p + Pos.to_nat p)%nat by lia.
    rewrite Nat.iter_add. reflexivity.
  - reflexivity.
Qed.

Lemma shr_1_spec (m : Z) (r s : bool) :
  0 <= m ->
  shr_1 (Build_shr_record m r s)
  = Build_shr_record (m / 2) (Z.odd m) (r || s).
Proof.
  intros Hm. destruct m as [|p|p]; [reflexivity| |lia].
  destruct p as [p|p|]; cbn [shr_1 Z.odd].
  - f_equal. rewrite Pos2Z.inj_xI.
    apply Z.div_unique with 1; lia.
  - f_equal. rewrite Pos2Z.inj_xO.
    apply Z.div_unique with 0; lia.
  - reflexivity.
Qed.

(** After [n] shifts of [(m, false, false)]: the quotient, and the round and
    sticky bits locate the remainder. *)
Lemma shr_iter_spec (m : Z) (n : nat) :
  0 <= m ->
  let rec := Nat.iter n shr_1 (Build_shr_record m false false) in
  let k := Z.of_nat n in
  shr_m rec = m / 2 ^ k
  /\ (shr_r rec = true <-> 2 ^ k <= 2 * (m mod 2 ^ k))
  /\ (shr_r rec || shr_s rec = true <-> m mod 2 ^ k <> 0).
Proof.
  intros Hm. induction n as [|n IH].
  - cbn. rewrite Z.div_1_r, Z.mod_1_r. repeat split; try lia; try discriminate.
  - cbv zeta in IH |- *.
    change (Nat.iter (S n) shr_1 (Build_shr_record m false false))
      with (shr_1 (Nat.iter n shr_1 (Build_shr_record m false false))).
    destruct (Nat.iter n shr_1 (Build_shr_record m false false))
      as [q r s] eqn:E.
    cbn [shr_m shr_r shr_s] in IH. destruct IH as (Hq & Hr & Hs).
    assert (Hq0 : 0 <= q) by (rewrite Hq; apply Z.div_pos; lia).
    rewrite (shr_1_spec q r s Hq0). cbn [shr_m shr_r shr_s].
    rewrite Nat2Z.inj_succ. set (k := Z.of_nat n) in *.
    assert (Hk : 0 <= k) by lia.
    rewrite Z.pow_succ_r by lia.
    assert (Hp : 0 < 2 ^ k) by (apply Z.pow_pos_nonneg; lia).
    assert (Hmod : m mod (2 ^ k * 2) = m mod 2 ^ k + 2 ^ k * (q mod 2)).
    { rewrite Z.rem_mul_r by lia. rewrite Hq. reflexivity. }
    replace (2 * 2 ^ k) with (2 ^ k * 2) by lia.
    rewrite Hmod.
    assert (Hr0 : 0 <= m mod 2 ^ k < 2 ^ k) by (apply Z.mod_pos_bound; lia).
    assert (Hodd : Z.odd q = true <-> q mod 2 = 1).
    { rewrite Zmod_odd. destruct (Z.odd q); split; intros; lia || congruence. }
    assert (Hq2 : q mod 2 = 0 \/ q mod 2 = 1)
      by (pose proof (Z.mod_pos_bound q 2); lia).
    split; [rewrite Hq; rewrite Z.div_div by lia; reflexivity|].
    split.
    + rewrite Hodd. split; intros H; nia.
    + rewrite orb_true_iff, Hodd, Hs. split; intros H; nia.
Qed.

(** ** Rounding to binary32 *)

Lemma fexp_eq (e : Z) : fexp 24 128 e = Z.max (e - 24) (-149).
Proof. reflexivity. Qed.

Lemma digits_le_24 (p : positive) :
  Zpos p < 2 ^ 24 -> Zpos (digits2_pos p) <= 24.
Proof.
  intros H. pose proof (digits_bounds p) as [Hl _].
  destruct (Z_le_gt_dec (Zpos (digits2_pos p)) 24) as [|Hgt]; [assumption|].
  assert (2 ^ 24 <= 2 ^ (Zpos (digits2_pos p) - 1))
    by (apply Z.pow_le_mono_r; lia).
  lia.
Qed.

Lemma shr_nonpos (mrs : shr_record) (e n : Z) :
  n <= 0 -> shr mrs e n = (mrs, e).
Proof. intros H. destruct n; [reflexivity | lia | reflexivity]. Qed.

Lemma shr_pos (m e n : Z) :
  0 <= m -> 0 <= n ->
  exists r s,
    shr (Build_shr_record m false false) e n
    = (Build_shr_record (m / 2 ^ n) r s, e + n)
    /\ (r = true <-> 2 ^ n <= 2 * (m mod 2 ^ n))
    /\ (r || s = true <-> m mod 2 ^ n <> 0).
Proof.
  intros Hm Hn. destruct n as [|p|p]; [| |lia].
  - exists false, false. cbn [shr]. rewrite Z.div_1_r, Z.mod_1_r, Z.add_0_r.
    repeat split; try lia; try discriminate.
  - cbn [shr]. rewrite iter_pos_nat.
    pose proof (shr_iter_spec m (Pos.to_nat p) Hm) as H. cbv zeta in H.
    rewrite positive_nat_Z in H.
    destruct (Nat.iter (Pos.to_nat p) shr_1 (Build_shr_record m false false))
      as [q r s].
    cbn [shr_m shr_r shr_s] in H. destruct H as (-> & Hr & Hs).
    exists r, s. auto.
Qed.

Lemma round_nearest_even_spec (q : Z) (r s : bool) :
  let mr := round_nearest_even q
              (loc_of_shr_record (Build_shr_record q r s)) in
  q <= mr <= q + 1
  /\ (mr = q + 1 -> r = true)
  /\ (r || s = false -> mr = q).
Proof.
  destruct r, s; cbn; try destruct (Z.even q); repeat split; intros;
    try lia; try reflexivity; try discriminate.
Qed.

Lemma round_aux_spec (mx : positive) (ex : Z) :
  let e' := fexp 24 128 (Zpos (digits2_pos mx) + ex) in
  let k := e' - ex in
  let q := Zpos mx / 2 ^ k in
  let rem := Zpos mx mod 2 ^ k in
  ex <= e' ->
  exists mr,
    q <= mr <= q + 1
    /\ (mr = q + 1 -> 2 ^ k <= 2 * rem)
    /\ (rem = 0 -> mr = q)
    /\ mr <= 2 ^ 24
    /\ (-149 < e' -> 2 ^ 23 <= mr)
    /\ ((mr = 0
         /\ binary_round_aux 24 128 false (Zpos mx) ex loc_Exact
            = S754_zero false)
        \/ (0 < mr /\ 104 <= e'
            /\ binary_round_aux 24 128 false (Zpos mx) ex loc_Exact
               = S754_infinity false)
        \/ (exists m e,
              binary_round_aux 24 128 false (Zpos mx) ex loc_Exact
              = S754_finite false m e
              /\ canon m e /\ e <= 104
              /\ ((e = e' /\ Zpos m = mr)
                  \/ (e = e' + 1 /\ Zpos m = 2 ^ 23 /\ mr = 2 ^ 24)))).
Proof.
  intros e' k q rem Hal.
  assert (Hk : 0 <= k) by (unfold k; lia).
  assert (He' : -149 <= e') by (unfold e'; rewrite fexp_eq; lia).
  pose proof (digits_bounds mx) as [Hdl Hdu].
  set (d := Zpos (digits2_pos mx)) in *.
  assert (Hp : 0 < 2 ^ k) by (apply Z.pow_pos_nonneg; lia).
  assert (Hq0 : 0 <= q) by (apply Z.div_pos; lia).
  assert (Hdk : d - k <= 24) by (unfold k, e'; rewrite fexp_eq; lia).
  assert (Hqu : q < 2 ^ 24).
  { apply Z.div_lt_upper_bound; [lia|].
    assert (2 ^ d <= 2 ^ k * 2 ^ 24).
    { rewrite <- Z.pow_add_r by lia. apply Z.pow_le_mono_r; lia. }
    lia. }
  assert (Hql : -149 < e' -> 2 ^ 23 <= q).
  { intros Hn. assert (Ek : k = d - 24)
      by (unfold k, e' in *; rewrite fexp_eq in *; lia).
    apply Z.div_le_lower_bound; [lia|].
    assert (2 ^ k * 2 ^ 23 = 2 ^ (d - 1)).
    { rewrite <- Z.pow_add_r by lia. f_equal. lia. }
    lia. }
  unfold binary_round_aux, shr_fexp.
  cbn [Zdigits2 shr_record_of_loc]. fold d. fold e'. fold k.
  destruct (shr_pos (Zpos mx) ex k) as (r & s & -> & Hr & Hs); [lia|lia|].
  fold q. fold rem in Hr, Hs.
  replace (ex + k) with e' by (unfold k; lia).
  cbn [shr_m].
  pose proof (round_nearest_even_spec q r s) as (Hm1 & Hm2 & Hm3).
  cbv zeta in Hm1, Hm2, Hm3.
  set (mr := round_nearest_even q
               (loc_of_shr_record (Build_shr_record q r s))) in *.
  exists mr. split; [exact Hm1|].
  split; [intros E; apply Hr, Hm2, E|].
  split.
  { intros E. apply Hm3. destruct (r || s) eqn:Ers; [|reflexivity].
    exfalso. apply Hs; [reflexivity | exact E]. }
  split; [lia|].
  split; [intros Hn; specialize (Hql Hn); lia|].
  destruct (Z.eq_dec mr 0) as [E0|N0].
  - left. split; [exact E0|]. rewrite E0. cbn [Zdigits2].
    rewrite shr_nonpos by (rewrite fexp_eq; lia). reflexivity.
  - right. assert (Hmr : 0 < mr) by lia.
    destruct mr as [|m|m] eqn:Emr; try lia.
    cbn [Zdigits2].
    destruct (Z_lt_le_dec (Zpos m) (2 ^ 24)) as [Hlt|Hge].
    + pose proof (digits_le_24 m Hlt) as Hd24.
      rewrite shr_nonpos by (rewrite fexp_eq; lia).
      cbn [shr_m]. change (128 - 24) with 104.
      destruct (e' <=? 104) eqn:Ee; [right|left].
      * apply Z.leb_le in Ee. exists m, e'.
        split; [reflexivity|]. split; [|split; [exact Ee|left; auto]].
        split; [exact He'|]. split; [exact Hlt|].
        destruct (Z.eq_dec e' (-149)); [left; assumption|right].
        specialize (Hql ltac:(lia)). lia.
      * apply Z.leb_gt in Ee. split; [lia|]. split; [lia|reflexivity].
    + assert (Em : Zpos m = 2 ^ 24) by lia.
      assert (Em' : m = (2 ^ 24)%positive) by (apply Pos2Z.inj; exact Em).
      subst m.
      replace (fexp 24 128 (Zpos (digits2_pos (2 ^ 24)) + e') - e') with 1
        by (change (Zpos (digits2_pos (2 ^ 24))) with 25;
            rewrite fexp_eq; lia).
      cbn [shr iter_pos shr_1 shr_m]. cbn.
      change (128 - 24) with 104.
      destruct (e' + 1 <=? 104) eqn:Ee; [right|left].
      * apply Z.leb_le in Ee. exists (2 ^ 23)%positive, (e' + 1).
        split; [reflexivity|]. split; [|split; [exact Ee|right; auto]].
        split; [lia|]. split; [reflexivity|]. right. reflexivity.
      * apply Z.leb_gt in Ee. split; [lia|]. split; [lia|reflexivity].
Qed.

Lemma bpow_succ (e : Z) : bpow (e + 1) = (2 * bpow e)%R.
Proof. rewrite bpow_add. unfold bpow at 2. simpl. ring. Qed.

Lemma IZR_bpow_lt (a b e : Z) :
  (IZR a * bpow e < IZR b * bpow e)%R -> a < b.
Proof.
  intros H. apply lt_IZR. pose proof (bpow_pos e). nra.
Qed.

Lemma IZR_bpow_le (a b e : Z) :
  a <= b -> (IZR a * bpow e <= IZR b * bpow e)%R.
Proof.
  intros H. apply IZR_le in H. pose proof (bpow_pos e). nra.
Qed.

(** ** Comparison and value of canonical numbers *)

Lemma canon_compare (m1 : positive) (e1 : Z) (m2 : positive) (e2 : Z) :
  canon m1 e1 -> canon m2 e2 ->
  match SFcompare (S754_finite false m1 e1) (S754_finite false m2 e2) with
  | Some Lt => (IZR (Zpos m1) * bpow e1 < IZR (Zpos m2) * bpow e2)%R
  | Some Eq => (IZR (Zpos m1) * bpow e1 = IZR (Zpos m2) * bpow e2)%R
  | Some Gt => (IZR (Zpos m2) * bpow e2 < IZR (Zpos m1) * bpow e1)%R
  | None => False
  end.
Proof.
  assert (Hlt : forall ma ea mb eb, canon ma ea -> canon mb eb -> ea < eb ->
            (IZR (Zpos ma) * bpow ea < IZR (Zpos mb) * bpow eb)%R).
  { intros ma ea mb eb (A1 & A2 & A3) (B1 & B2 & B3) Hl.
    assert (Hmb : 2 ^ 23 <= Zpos mb) by lia.
    replace eb with (ea + (eb - ea)) by lia. rewrite bpow_scale by lia.
    apply Rmult_lt_compat_r; [apply bpow_pos|]. apply IZR_lt.
    assert (2 ^ 1 <= 2 ^ (eb - ea)) by (apply Z.pow_le_mono_r; lia).
    change (2 ^ 1) with 2 in *. nia. }
  intros C1 C2. rewrite finite_compare.
  destruct (Z.compare_spec e1 e2) as [E|L|G].
  - subst e2. pose proof (bpow_pos e1).
    destruct (Pos.compare_spec m1 m2) as [E|L|G].
    + subst. reflexivity.
    + apply Rmult_lt_compat_r; [assumption|]. apply IZR_lt. lia.
    + apply Rmult_lt_compat_r; [assumption|]. apply IZR_lt. lia.
  - apply Hlt; assumption.
  - apply Hlt; assumption.
Qed.

Lemma good_nonneg (x : spec_float) : good x -> (0 <= fval x)%R.
Proof.
  destruct x as [s|s| |[] m e]; cbn; intros H; try lra; try contradiction.
  pose proof (bpow_pos e). assert (0 < IZR (Zpos m))%R by (apply IZR_lt; lia).
  nra.
Qed.

Lemma good_le_zero (x : spec_float) : good x -> SFleb (S754_zero false) x = true.
Proof. destruct x as [s|s| |[] m e]; cbn; intros H; try contradiction; reflexivity. Qed.

Lemma good_le_bound (x : spec_float) (mb : positive) (eb : Z) :
  good x -> canon mb eb ->
  (fval x <= IZR (Zpos mb) * bpow eb)%R ->
  SFleb x (S754_finite false mb eb) = true.
Proof.
  destruct x as [s|s| |[] m e]; cbn [good]; intros H Hb Hv;
    try contradiction; try reflexivity.
  pose proof (canon_compare m e mb eb H Hb) as Hc.
  unfold SFleb. cbn [fval] in Hv.
  destruct (SFcompare (S754_finite false m e) (S754_finite false mb eb))
    as [[ | | ]|]; try reflexivity; try contradiction. lra.
Qed.

Lemma good_not_gt_bound (x : spec_float) (mb : positive) (eb : Z) :
  good x -> canon mb eb ->
  SFltb (S754_finite false mb eb) x = false ->
  (fval x <= IZR (Zpos mb) * bpow eb)%R.
Proof.
  destruct x as [s|s| |[] m e]; cbn [good]; intros H Hb Hv;
    try contradiction.
  - cbn. pose proof (bpow_pos eb).
    assert (0 < IZR (Zpos mb))%R by (apply IZR_lt; lia). nra.
  - pose proof (canon_compare mb eb m e Hb H) as Hc.
    unfold SFltb in Hv. cbn [fval].
    destruct (SFcompare (S754_finite false mb eb) (S754_finite false m e))
      as [[ | | ]|]; try discriminate; try contradiction; lra.
Qed.

(** ** Signs *)

Lemma shr_1_nonneg (mrs : shr_record) :
  0 <= shr_m mrs -> 0 <= shr_m (shr_1 mrs).
Proof.
  destruct mrs as [m r s]. cbn [shr_m]. intros H.
  destruct m as [|p|p]; [cbn; lia| |lia].
  destruct p; cbn; lia.
Qed.

Lemma shr_nonneg (mrs : shr_record) (e n : Z) :
  0 <= shr_m mrs -> 0 <= shr_m (fst (shr mrs e n)).
Proof.
  intros H. destruct n as [|p|p]; cbn [shr fst]; try assumption.
  rewrite iter_pos_nat. induction (Pos.to_nat p) as [|k IH]; [exact H|].
  change (Nat.iter (S k) shr_1 mrs) with (shr_1 (Nat.iter k shr_1 mrs)).
  apply shr_1_nonneg, IH.
Qed.

Lemma round_aux_nonneg (mz ez : Z) (lz : location) :
  0 <= mz -> nonneg (binary_round_aux 24 128 false mz ez lz).
Proof.
  intros H. unfold binary_round_aux, shr_fexp.
  assert (H1 : 0 <= shr_m (shr_record_of_loc mz lz))
    by (destruct lz as [|[]]; exact H).
  pose proof (shr_nonneg (shr_record_of_loc mz lz) ez
                (fexp 24 128 (Zdigits2 mz + ez) - ez) H1) as H2.
  destruct (shr (shr_record_of_loc mz lz) ez
              (fexp 24 128 (Zdigits2 mz + ez) - ez)) as [mrs' e'].
  cbn [fst] in H2.
  set (mr := round_nearest_even (shr_m mrs') (loc_of_shr_record mrs')).
  assert (H3 : 0 <= mr).
  { subst mr. destruct mrs' as [m r s]. cbn [shr_m] in *.
    destruct r, s; cbn; try destruct (Z.even m); lia. }
  pose proof (shr_nonneg (shr_record_of_loc mr loc_Exact) e'
                (fexp 24 128 (Zdigits2 mr + e') - e') H3) as H4.
  destruct (shr (shr_record_of_loc mr loc_Exact) e'
              (fexp 24 128 (Zdigits2 mr + e') - e')) as [mrs'' e''].
  cbn [fst] in H4.
  destruct (shr_m mrs'') as [|p|p]; [reflexivity| |lia].
  destruct (e'' <=? 128 - 24); reflexivity.
Qed.

(** ** Alignment *)

Lemma iter_xO_value (d m : positive) :
  Zpos (Pos.iter xO m d) = Zpos m * 2 ^ Zpos d.
Proof.
  induction d as [|d IH] using Pos.peano_ind.
  - cbn. lia.
  - rewrite Pos.iter_succ, Pos2Z.inj_xO, IH, Pos2Z.inj_succ.
    rewrite Z.pow_succ_r by lia. lia.
Qed.

Lemma iter_xO_digits (d m : positive) :
  Zpos (digits2_pos (Pos.iter xO m d)) = Zpos (digits2_pos m) + Zpos d.
Proof.
  induction d as [|d IH] using Pos.peano_ind.
  - cbn [Pos.iter digits2_pos]. lia.
  - rewrite Pos.iter_succ. cbn [digits2_pos].
    rewrite Pos2Z.inj_succ, IH, Pos2Z.inj_succ. lia.
Qed.

Lemma shl_align_spec (mx : positive) (ex ex' : Z) :
  let '(m, e) := shl_align mx ex ex' in
  e = Z.min ex ex'
  /\ Zpos m = Zpos mx * 2 ^ (ex - e)
  /\ Zpos (digits2_pos m) = Zpos (digits2_pos mx) + (ex - e).
Proof.
  unfold shl_align. destruct (ex' - ex) as [|d|d] eqn:E.
  - replace (Z.min ex ex') with ex by lia.
    rewrite Z.sub_diag, Z.pow_0_r. repeat split; lia.
  - replace (Z.min ex ex') with ex by lia.
    rewrite Z.sub_diag, Z.pow_0_r. repeat split; lia.
  - replace (Z.min ex ex') with ex' by lia.
    replace (ex - ex') with (Zpos d) by lia.
    split; [reflexivity|].
    split; [apply iter_xO_value | apply iter_xO_digits].
Qed.

Lemma binary_round_finite (mx : positive) (ex : Z) :
  -149 <= ex ->
  Zpos (digits2_pos mx) + ex <= 100 ->
  exists m e, binary_round 24 128 false mx ex = S754_finite false m e.
Proof.
  intros Hex Hsmall. unfold binary_round.
  pose proof (shl_align_spec mx ex
                (fexp 24 128 (Zpos (digits2_pos mx) + ex))) as H.
  destruct (shl_align mx ex (fexp 24 128 (Zpos (digits2_pos mx) + ex)))
    as [mz ez].
  destruct H as (Ez & Em & Ed).
  assert (Ede : Zpos (digits2_pos mz) + ez = Zpos (digits2_pos mx) + ex)
    by lia.
  pose proof (round_aux_spec mz ez) as H. cbv zeta in H.
  rewrite Ede in H.
  set (e' := fexp 24 128 (Zpos (digits2_pos mx) + ex)) in *.
  assert (Hal : ez <= e') by lia.
  destruct (H Hal) as (mr & Hm1 & _ & Hm3 & _ & Hm5 & Hres).
  assert (He' : e' <= 76) by (unfold e'; rewrite fexp_eq; lia).
  destruct Hres as [(E0 & _) | [(_ & Hinf & _) | (m & e & -> & _)]].
  - exfalso.
    destruct (Z.eq_dec ez e') as [Ee|Ne].
    + rewrite Ee, Z.sub_diag, Z.pow_0_r, Z.div_1_r in Hm1. lia.
    + assert (Hn : -149 < e') by lia. specialize (Hm5 Hn). lia.
  - lia.
  - eauto.
Qed.

Lemma of_Z_finite (n : Z) :
  0 < n < 2 ^ 64 ->
  exists m e, F32.of_Z n = S754_finite false m e.
Proof.
  intros Hn. destruct n as [|p|p]; try lia.
  unfold F32.of_Z, binary_normalize. apply binary_round_finite; [lia|].
  pose proof (digits_bounds p) as [Hl _].
  destruct (Z_le_gt_dec (Zpos (digits2_pos p)) 64) as [|Hgt]; [lia|].
  assert (2 ^ 64 <= 2 ^ (Zpos (digits2_pos p) - 1))
    by (apply Z.pow_le_mono_r; lia).
  lia.
Qed.

Lemma of_Z_nonneg (n : Z) : 0 <= n -> nonneg (F32.of_Z n).
Proof.
  intros Hn. destruct n as [|p|p]; try lia; [reflexivity|].
  unfold F32.of_Z, binary_normalize, binary_round.
  destruct (shl_align p 0 (fexp F32.prec F32.emax (Zpos (digits2_pos p) + 0)))
    as [mz ez].
  apply round_aux_nonneg. lia.
Qed.

(** ** Values at a common exponent *)

Lemma val_lt (a ea b eb e0 : Z) :
  e0 <= ea -> e0 <= eb ->
  a * 2 ^ (ea - e0) < b * 2 ^ (eb - e0) ->
  (IZR a * bpow ea < IZR b * bpow eb)%R.
Proof.
  intros Ha Hb H.
  replace ea with (e0 + (ea - e0)) by lia.
  replace eb with (e0 + (eb - e0)) by lia.
  rewrite !bpow_scale by lia.
  apply Rmult_lt_compat_r; [apply bpow_pos | apply IZR_lt].
  replace (e0 + (ea - e0) - e0) with (ea - e0) by lia.
  replace (e0 + (eb - e0) - e0) with (eb - e0) by lia.
  exact H.
Qed.

Lemma val_le (a ea b eb e0 : Z) :
  e0 <= ea -> e0 <= eb ->
  a * 2 ^ (ea - e0) <= b * 2 ^ (eb - e0) ->
  (IZR a * bpow ea <= IZR b * bpow eb)%R.
Proof.
  intros Ha Hb H.
  replace ea with (e0 + (ea - e0)) by lia.
  replace eb with (e0 + (eb - e0)) by lia.
  rewrite !bpow_scale by lia.
  apply Rmult_le_compat_r; [apply Rlt_le, bpow_pos | apply IZR_le].
  replace (e0 + (ea - e0) - e0) with (ea - e0) by lia.
  replace (e0 + (eb - e0) - e0) with (eb - e0) by lia.
  exact H.
Qed.

Lemma val_mul (a ea c ec : Z) :
  ((IZR a * bpow ea) * (IZR c * bpow ec) = IZR (a * c) * bpow (ea + ec))%R.
Proof. rewrite mult_IZR, bpow_add. ring. Qed.

(** ** Multiplication by a 24-bit constant *)

Lemma mul_prealigned (m mc : positive) (e ec : Z) :
  2 ^ 23 <= Zpos mc ->
  e + ec <= fexp 24 128 (Zpos (digits2_pos (m * mc)) + (e + ec)).
Proof.
  intros Hc. rewrite fexp_eq.
  pose proof (digits_bounds (m * mc)) as [_ Hu].
  assert (Hd : 24 <= Zpos (digits2_pos (m * mc))).
  { destruct (Z_le_gt_dec 24 (Zpos (digits2_pos (m * mc)))) as [|Hgt];
      [assumption|].
    assert (2 ^ Zpos (digits2_pos (m * mc)) <= 2 ^ 23)
      by (apply Z.pow_le_mono_r; lia).
    rewrite Pos2Z.inj_mul in Hu. nia. }
  lia.
Qed.

Lemma mul_const_shape (y : spec_float) (mc : positive) (ec : Z) :
  nonneg y -> 2 ^ 23 <= Zpos mc ->
  good (SFmul 24 128 y (S754_finite false mc ec))
  \/ SFmul 24 128 y (S754_finite false mc ec) = S754_infinity false.
Proof.
  intros Hy Hc.
  destruct y as [s|s| |s m e]; cbn [nonneg] in Hy; try contradiction;
    subst s; cbn [SFmul xorb].
  - left. exact I.
  - right. reflexivity.
  - pose proof (round_aux_spec (m * mc) (e + ec)) as H. cbv zeta in H.
    destruct (H (mul_prealigned m mc e ec Hc))
      as (mr & _ & _ & _ & _ & _ & Hres).
    destruct Hres as [(_ & ->) | [(_ & _ & ->) | (m' & e' & -> & Hcn & _)]].
    + left. exact I.
    + right. reflexivity.
    + left. exact Hcn.
Qed.

(** ** Division *)

Lemma div_nonneg (x : spec_float) (my : positive) (ey : Z) :
  nonneg x -> nonneg (SFdiv 24 128 x (S754_finite false my ey)).
Proof.
  intros Hx.
  destruct x as [s|s| |s m e]; cbn [nonneg] in Hx; try contradiction;
    subst s; cbn [SFdiv xorb]; try reflexivity.
  unfold SFdiv_core_binary.
  set (e' := Z.min _ _). set (m' := match _ with Z0 => _ | _ => _ end).
  assert (Hm' : 0 <= m').
  { subst m'. destruct (e - ey - e') as [|p|p]; try lia.
    apply Z.shiftl_nonneg. lia. }
  pose proof (Z_div_mod m' (Zpos my) ltac:(lia)) as Hdm.
  destruct (Z.div_eucl m' (Zpos my)) as [q r]. destruct Hdm as [Hq Hr].
  apply round_aux_nonneg. nia.
Qed.

(** ** Rounding below a bound

    Throughout the section [(mb, eb)] is a canonical binary32 number, the
    bound.  A positive real below the midpoint of the bound and its
    successor rounds to at most the bound; the operations follow. *)

Section UpperBound.

Variables (mb : positive) (eb : Z).
Hypothesis Hcanon : canon mb eb.
Hypothesis Hexp : eb <= 103.

Lemma round_aux_le (mx : positive) (ex : Z) :
  ex <= fexp 24 128 (Zpos (digits2_pos mx) + ex) ->
  (IZR (Zpos mx) * bpow ex < IZR (2 * Zpos mb + 1) * bpow (eb - 1))%R ->
  good (binary_round_aux 24 128 false (Zpos mx) ex loc_Exact)
  /\ (fval (binary_round_aux 24 128 false (Zpos mx) ex loc_Exact)
      <= IZR (Zpos mb) * bpow eb)%R.
Proof.
  intros Hal Hlt. destruct Hcanon as (Hb1 & Hb2 & Hb3).
  pose proof Hexp as Hb4.
  pose proof (round_aux_spec mx ex) as H. cbv zeta in H.
  specialize (H Hal).
  pose proof (digits_bounds mx) as [Hdl Hdu].
  set (d := Zpos (digits2_pos mx)) in *.
  set (e' := fexp 24 128 (d + ex)) in *.
  assert (He' : -149 <= e') by (unfold e'; rewrite fexp_eq; lia).
  assert (HA : e' <= eb).
  { destruct (Z_le_gt_dec e' eb) as [|Hgt]; [assumption|exfalso].
    assert (Ee : e' = d + ex - 24)
      by (unfold e' in *; rewrite fexp_eq in *; lia).
    assert (H1 : (bpow (d - 1) <= IZR (Zpos mx))%R).
    { rewrite bpow_IZR by lia. apply IZR_le. exact Hdl. }
    assert (H2 : (IZR (2 * Zpos mb + 1) <= bpow 25)%R).
    { rewrite bpow_IZR by lia. apply IZR_le. lia. }
    assert (H3 : (bpow (eb - 1 + 25) <= bpow (d - 1 + ex))%R)
      by (apply bpow_le; lia).
    rewrite !bpow_add in H3.
    pose proof (bpow_pos ex). pose proof (bpow_pos (eb - 1)).
    pose proof (bpow_pos (d - 1)). pose proof (bpow_pos 25).
    nra. }
  assert (Hpos : (0 < IZR (Zpos mb) * bpow eb)%R).
  { apply Rmult_lt_0_compat; [apply IZR_lt; lia | apply bpow_pos]. }
  destruct H as (mr & Hm1 & Hm2 & Hm3 & Hm4 & _ & Hres).
  set (k := e' - ex) in *.
  assert (Hk : 0 <= k) by (unfold k; lia).
  assert (Hp : 0 < 2 ^ k) by (apply Z.pow_pos_nonneg; lia).
  set (q := Zpos mx / 2 ^ k) in *. set (rem := Zpos mx mod 2 ^ k) in *.
  assert (Hdm : Zpos mx = 2 ^ k * q + rem) by (apply Z.div_mod; lia).
  assert (Hrem : 0 <= rem < 2 ^ k) by (apply Z.mod_pos_bound; lia).
  (* the rounded mantissa, at the exponent e', is at most the bound *)
  assert (HB : mr <= Zpos mb * 2 ^ (eb - e')).
  { destruct (Z.eq_dec e' eb) as [Eeb|Neb].
    - rewrite Eeb, Z.sub_diag, Z.pow_0_r, Z.mul_1_r.
      destruct (Z.eq_dec k 0) as [Ek|Nk].
      + assert (Eex : ex = eb) by (unfold k in Ek; lia).
        assert (Hq : q = Zpos mx)
          by (unfold q; rewrite Ek, Z.pow_0_r; apply Z.div_1_r).
        assert (Hr0 : rem = 0)
          by (unfold rem; rewrite Ek, Z.pow_0_r; apply Z.mod_1_r).
        rewrite (Hm3 Hr0), Hq.
        rewrite Eex in Hlt.
        replace (bpow eb) with (2 * bpow (eb - 1))%R in Hlt
          by (rewrite <- bpow_succ; f_equal; lia).
        assert (Hlt' : (IZR (2 * Zpos mx) * bpow (eb - 1)
                        < IZR (2 * Zpos mb + 1) * bpow (eb - 1))%R).
        { rewrite mult_IZR. lra. }
        apply IZR_bpow_lt in Hlt'. lia.
      + assert (Hex : eb - 1 = ex + (k - 1)) by (unfold k; lia).
        rewrite Hex in Hlt. rewrite bpow_scale in Hlt by lia.
        apply IZR_bpow_lt in Hlt.
        assert (H2k : 2 ^ k = 2 * 2 ^ (k - 1)).
        { replace k with (Z.succ (k - 1)) at 1 by lia.
          apply Z.pow_succ_r. lia. }
        assert (Hp1 : 0 < 2 ^ (k - 1)) by (apply Z.pow_pos_nonneg; lia).
        destruct (Z.eq_dec mr (q + 1)) as [Eup|Nup].
        * specialize (Hm2 Eup). nia.
        * assert (mr = q) by lia. nia.
    - assert (Hj : 1 <= eb - e') by lia.
      assert (Hmb : 2 ^ 23 <= Zpos mb) by lia.
      assert (2 ^ 1 <= 2 ^ (eb - e')) by (apply Z.pow_le_mono_r; lia).
      change (2 ^ 1) with 2 in *. nia. }
  assert (HBR : (IZR mr * bpow e' <= IZR (Zpos mb) * bpow eb)%R).
  { replace eb with (e' + (eb - e')) at 1 by lia.
    rewrite bpow_scale by lia. apply IZR_bpow_le. exact HB. }
  destruct Hres as [(E0 & ->) | [(_ & Hinf & _) | (m & e & -> & Hc & He & Hv)]].
  - cbn. split; [exact I | lra].
  - lia.
  - cbn [good fval]. split; [exact Hc|].
    destruct Hv as [(-> & ->) | (-> & -> & Emr)].
    + lra.
    + rewrite Emr in HBR. rewrite bpow_succ.
      change (IZR (2 ^ 24)) with (IZR (2 * 2 ^ 23)) in HBR.
      rewrite mult_IZR in HBR. lra.
Qed.

Lemma binary_round_le (mx : positive) (ex : Z) :
  (IZR (Zpos mx) * bpow ex < IZR (2 * Zpos mb + 1) * bpow (eb - 1))%R ->
  good (binary_round 24 128 false mx ex)
  /\ (fval (binary_round 24 128 false mx ex) <= IZR (Zpos mb) * bpow eb)%R.
Proof.
  intros Hlt. unfold binary_round.
  pose proof (shl_align_spec mx ex
                (fexp 24 128 (Zpos (digits2_pos mx) + ex))) as H.
  destruct (shl_align mx ex (fexp 24 128 (Zpos (digits2_pos mx) + ex)))
    as [mz ez].
  destruct H as (Ez & Em & Ed).
  apply round_aux_le.
  - rewrite Ed. replace (Zpos (digits2_pos mx) + (ex - ez) + ez)
      with (Zpos (digits2_pos mx) + ex) by lia.
    lia.
  - rewrite Em. replace ex with (ez + (ex - ez)) in Hlt at 1 by lia.
    rewrite bpow_scale in Hlt by lia. exact Hlt.
Qed.

Lemma mul_const_le (x : spec_float) (mc : positive) (ec : Z) (bound : R) :
  good x -> 2 ^ 23 <= Zpos mc ->
  (fval x <= bound)%R ->
  (bound * (IZR (Zpos mc) * bpow ec)
   < IZR (2 * Zpos mb + 1) * bpow (eb - 1))%R ->
  good (SFmul 24 128 x (S754_finite false mc ec))
  /\ (fval (SFmul 24 128 x (S754_finite false mc ec))
      <= IZR (Zpos mb) * bpow eb)%R.
Proof.
  intros Hx Hc Hv Hlt.
  assert (Hpos : (0 < IZR (Zpos mb) * bpow eb)%R).
  { apply Rmult_lt_0_compat; [apply IZR_lt; lia | apply bpow_pos]. }
  assert (Hcpos : (0 < IZR (Zpos mc) * bpow ec)%R).
  { apply Rmult_lt_0_compat; [apply IZR_lt; lia | apply bpow_pos]. }
  destruct x as [s|s| |[] m e]; cbn [good] in Hx; try contradiction.
  - cbn. split; [exact I | lra].
  - cbn [SFmul xorb]. apply round_aux_le.
    + apply mul_prealigned, Hc.
    + rewrite Pos2Z.inj_mul, <- val_mul. cbn [fval] in Hv.
      apply Rle_lt_trans with (2 := Hlt).
      apply Rmult_le_compat_r; [lra|]. lra.
Qed.

Lemma add_le (x y : spec_float) :
  good x -> good y ->
  (fval x <= IZR (Zpos mb) * bpow eb)%R ->
  (fval y <= IZR (Zpos mb) * bpow eb)%R ->
  (fval x + fval y < IZR (2 * Zpos mb + 1) * bpow (eb - 1))%R ->
  good (SFadd 24 128 x y)
  /\ (fval (SFadd 24 128 x y) <= IZR (Zpos mb) * bpow eb)%R.
Proof.
  intros Hx Hy Hvx Hvy Hlt.
  assert (Hpos : (0 < IZR (Zpos mb) * bpow eb)%R).
  { apply Rmult_lt_0_compat; [apply IZR_lt; lia | apply bpow_pos]. }
  destruct x as [sx|sx| |[] mx ex]; cbn [good] in Hx; try contradiction;
    destruct y as [sy|sy| |[] my ey]; cbn [good] in Hy; try contradiction.
  - destruct sx, sy; cbn; split; try exact I; lra.
  - cbn [SFadd]. split; assumption.
  - cbn [SFadd]. split; assumption.
  - cbn [SFadd cond_Zopp].
    pose proof (shl_align_spec mx ex (Z.min ex ey)) as Hsx.
    pose proof (shl_align_spec my ey (Z.min ex ey)) as Hsy.
    destruct (shl_align mx ex (Z.min ex ey)) as [mx' ex'].
    destruct (shl_align my ey (Z.min ex ey)) as [my' ey'].
    cbn [fst]. destruct Hsx as (Ex & Emx & _). destruct Hsy as (Ey & Emy & _).
    assert (Ex' : ex' = Z.min ex ey) by lia.
    assert (Ey' : ey' = Z.min ex ey) by lia.
    cbn [Z.add binary_normalize].
    apply binary_round_le.
    cbn [fval] in Hlt.
    change (IntDef.Z.min ex ey) with (Z.min ex ey).
    set (ez := Z.min ex ey) in *.
    assert (Hsx : (IZR (Zpos mx) * bpow ex
                   = IZR (Zpos mx * 2 ^ (ex - ez)) * bpow ez)%R).
    { rewrite <- bpow_scale by lia. do 2 f_equal. lia. }
    assert (Hsy : (IZR (Zpos my) * bpow ey
                   = IZR (Zpos my * 2 ^ (ey - ez)) * bpow ez)%R).
    { rewrite <- bpow_scale by lia. do 2 f_equal. lia. }
    rewrite Pos2Z.inj_add, plus_IZR, Emx, Emy, Ex', Ey'. lra.
Qed.

End UpperBound.

(** ** The loads stay in range *)

Lemma val_hundred : (IZR 13107200 * bpow (-17) = 100)%R.
Proof.
  assert (H : (bpow (-17) * bpow 17 = 1)%R).
  { rewrite <- bpow_add. reflexivity. }
  rewrite (bpow_IZR 17) in H by lia.
  change (IZR (2 ^ 17)) with 131072%R in H. lra.
Qed.

Lemma canon_hundred : canon 13107200 (-17).
Proof. unfold canon. cbn. lia. Qed.

Lemma load_ok_zero : load_ok (F32.of_Z 0).
Proof.
  change (F32.of_Z 0) with (S754_zero false).
  split; [exact I | cbn; lra].
Qed.

Lemma load_ok_hundred : load_ok (F32.of_Z 100).
Proof.
  change (F32.of_Z 100) with (S754_finite false 13107200 (-17)).
  split; [exact canon_hundred|]. cbn [fval]. rewrite <- val_hundred. lra.
Qed.

Lemma load_ok_range (x : spec_float) :
  load_ok x ->
  F32.le (F32.of_Z 0) x = true /\ F32.le x (F32.of_Z 100) = true.
Proof.
  intros (Hg & Hv). split.
  - apply good_le_zero, Hg.
  - change (F32.of_Z 100) with (S754_finite false 13107200 (-17)).
    apply good_le_bound; [exact Hg | exact canon_hundred |].
    rewrite val_hundred. exact Hv.
Qed.

Lemma clamp_load_ok (x : spec_float) :
  good x \/ x = S754_infinity false -> load_ok (clamp_load x).
Proof.
  intros [Hg| ->].
  - unfold clamp_load.
    assert (H0 : F32.lt x (F32.of_Z 0) = false).
    { destruct x as [s|s| |[] m e]; cbn [good] in Hg; try contradiction;
        reflexivity. }
    rewrite H0.
    destruct (F32.gt x (F32.of_Z 100)) eqn:Egt; [apply load_ok_hundred|].
    split; [exact Hg|]. rewrite <- val_hundred.
    apply good_not_gt_bound; [exact Hg | exact canon_hundred | exact Egt].
  - exact load_ok_hundred.
Qed.

Lemma load_sample_ok (work elapsed : Z) :
  0 < elapsed < 2 ^ 64 -> load_ok (load_sample work elapsed).
Proof.
  intros Hel. unfold load_sample.
  destruct (work <? 10 * IDLE_THRESHOLD_US) eqn:Ew; [apply load_ok_zero|].
  apply Z.ltb_ge in Ew. change (10 * IDLE_THRESHOLD_US) with 1000 in Ew.
  apply clamp_load_ok.
  destruct (of_Z_finite elapsed Hel) as (me & ee & ->).
  change (F32.of_Z 100) with (S754_finite false 13107200 (-17)).
  apply mul_const_shape; [|cbn; lia].
  apply div_nonneg, of_Z_nonneg. lia.
Qed.

Lemma smooth_ok (avg inst : spec_float) :
  load_ok avg -> load_ok inst -> load_ok (smooth avg inst).
Proof.
  intros (Ga & Va) (Gi & Vi). unfold smooth.
  change F32.mul with (SFmul 24 128). change F32.add with (SFadd 24 128).
  change (F32.sub (F32.of_Z 1) LOAD_SMOOTH)
    with (S754_finite false 11744051 (-24)).
  change LOAD_SMOOTH with (S754_finite false 10066330 (-25)).
  rewrite <- val_hundred in Va, Vi.
  (* avg * 0.7 is at most 70 *)
  assert (C70 : canon 9175040 (-17)) by (unfold canon; cbn; lia).
  assert (C30 : canon 15728641 (-19)) by (unfold canon; cbn; lia).
  destruct (mul_const_le 9175040 (-17) C70 ltac:(lia) avg 11744051 (-24)
              (IZR 13107200 * bpow (-17)) Ga) as (G1 & V1);
    [cbn; lia | exact Va | |].
  { rewrite val_mul. apply val_lt with (e0 := -41); cbn; lia. }
  (* inst * 0.3 is at most the binary32 number next above 30 *)
  destruct (mul_const_le 15728641 (-19) C30 ltac:(lia) inst 10066330 (-25)
              (IZR 13107200 * bpow (-17)) Gi) as (G2 & V2);
    [cbn; lia | exact Vi | |].
  { rewrite val_mul. apply val_lt with (e0 := -42); cbn; lia. }
  set (p1 := SFmul 24 128 avg (S754_finite false 11744051 (-24))) in *.
  set (p2 := SFmul 24 128 inst (S754_finite false 10066330 (-25))) in *.
  assert (B1 : (IZR 9175040 * bpow (-17) <= IZR 13107200 * bpow (-17))%R)
    by (apply val_le with (e0 := -17); cbn; lia).
  assert (B2 : (IZR 15728641 * bpow (-19) <= IZR 13107200 * bpow (-17))%R)
    by (apply val_le with (e0 := -19); cbn; lia).
  assert (B3 : (IZR 9175040 * bpow (-17) + IZR 15728641 * bpow (-19)
                < IZR (2 * 13107200 + 1) * bpow (-17 - 1))%R).
  { replace (IZR 9175040 * bpow (-17))%R with (IZR 36700160 * bpow (-19))%R.
    - rewrite <- Rmult_plus_distr_r, <- plus_IZR.
      apply val_lt with (e0 := -19); cbn; lia.
    - replace (-17) with (-19 + 2) by lia. rewrite bpow_scale by lia.
      reflexivity. }
  unfold load_ok. rewrite <- val_hundred.
  apply (add_le 13107200 (-17) canon_hundred ltac:(lia));
    try assumption; lra.
Qed.

(** ** The loads of the governor *)

Lemma updateLoad_avg (now : Z) (s : State) :
  LOAD_PERIOD_MS * 1000 <= u64 (now - _period_start_us s) ->
  _avg_load (_updateLoad now s)
  = smooth (_avg_load s) (_instant_load (_updateLoad now s)).
Proof.
  intros H. unfold _updateLoad, smooth. apply Z.ltb_ge in H. rewrite H.
  split_ifs; reflexivity.
Qed.

Lemma updateLoad_loads_ok (now : Z) (s : State) :
  loads_ok s -> loads_ok (_updateLoad now s).
Proof.
  intros (Ha & Hi).
  destruct (Z_lt_le_dec (u64 (now - _period_start_us s))
              (LOAD_PERIOD_MS * 1000)) as [Hlt|Hge].
  - rewrite updateLoad_before_period by exact Hlt. split; assumption.
  - assert (Hin : load_ok (_instant_load (_updateLoad now s))).
    { rewrite updateLoad_instant by exact Hge. apply load_sample_ok.
      unfold LOAD_PERIOD_MS in Hge.
      pose proof (Z.mod_pos_bound (now - _period_start_us s) (2 ^ 64)
                    ltac:(lia)) as Hb.
      unfold u64 in *. lia. }
    split; [|exact Hin].
    rewrite updateLoad_avg by exact Hge. apply smooth_ok; assumption.
Qed.

Lemma sampled_loads_ok (e : Env) (s : State) :
  loads_ok s -> loads_ok (sampled e s).
Proof.
  intros H. unfold sampled. apply updateLoad_loads_ok.
  unfold loads_ok, account_work in *. split_ifs; cbn; exact H.
Qed.

Lemma sampler_loads_ok (s s' : State) :
  sampler s' = sampler s -> loads_ok s -> loads_ok s'.
Proof.
  unfold sampler, loads_ok. intros E H.
  injection E as _ _ _ _ -> ->. exact H.
Qed.

Lemma call_loads_ok (c : Call) (s : State) :
  wf s = true -> loads_ok s ->
  exists s', call c s = Some s' /\ wf s' = true /\ loads_ok s'.
Proof.
  intros Hwf Hl.
  assert (Hstep : forall o, (exists s', o = Some s' /\ step_ok s s') ->
            exists s', o = Some s' /\ wf s' = true /\ loads_ok s').
  { intros o (s' & -> & W & S & _). exists s'.
    split; [reflexivity|]. split; [exact W|].
    exact (sampler_loads_ok _ _ S Hl). }
  destruct c; cbn [call].
  - destruct (_init s) eqn:Hinit.
    + destruct (run_step e s Hwf Hinit) as (s' & -> & W & S & _).
      exists s'. split; [reflexivity|]. split; [exact W|].
      exact (sampler_loads_ok _ _ S (sampled_loads_ok e s Hl)).
    + rewrite (run_before_begin e s Hinit). eauto.
  - eexists. split; [reflexivity|]. unfold idle, log. cbn.
    split; [exact Hwf | exact Hl].
  - eexists. split; [reflexivity|]. unfold idleMicros, log. cbn.
    split; [exact Hwf | exact Hl].
  - apply Hstep, inputBoost_step, Hwf.
  - apply Hstep, setProfile_step, Hwf.
  - apply Hstep, setProfile_step, Hwf.
  - apply Hstep, setProfile_step, Hwf.
  - apply Hstep. eexists. split; [reflexivity|]. apply setAuto_step, Hwf.
Qed.

Lemma calls_loads_ok (cs : list Call) (s : State) :
  wf s = true -> loads_ok s ->
  exists s', calls cs s = Some s' /\ wf s' = true /\ loads_ok s'.
Proof.
  revert s. induction cs as [|c cs IH]; intros s Hwf Hl.
  - exists s. auto.
  - cbn [calls].
    destruct (call_loads_ok c s Hwf Hl) as (s1 & -> & W1 & L1). cbn [bind].
    apply IH; assumption.
Qed.

(** C7: after [begin] on a fresh object and any sequence of calls (ticks,
    idle annotations and all the others), each call returns and both the
    instantaneous and the smoothed load are at least 0 and at most 100, as
    binary32 numbers compared the way the program compares them. *)
Theorem C7_loads_within_0_100 (chip : PicomimiChip) (manual : bool)
    (now_us now_ms : Z) (cs : list Call) :
  exists s,
    calls cs (after_begin chip manual now_us now_ms) = Some s
    /\ F32.le (F32.of_Z 0) (_instant_load s) = true
    /\ F32.le (_instant_load s) (F32.of_Z 100) = true
    /\ F32.le (F32.of_Z 0) (_avg_load s) = true
    /\ F32.le (_avg_load s) (F32.of_Z 100) = true.
Proof.
  destruct (after_begin_wf chip manual now_us now_ms) as (W0 & _).
  assert (L0 : loads_ok (after_begin chip manual now_us now_ms)).
  { destruct chip; split; exact load_ok_zero. }
  destruct (calls_loads_ok cs _ W0 L0) as (s & E & _ & La & Li).
  exists s. split; [exact E|].
  destruct (load_ok_range _ La) as (A0 & A1).
  destruct (load_ok_range _ Li) as (I0 & I1).
  auto.
Qed.

(** * Further properties of the governor *)

(** ** The regulator setting of a voltage *)


(** ** Invariants of the actuation state

    A property of the actuation state that [_apply] keeps, when the
    hardware answers satisfy [A], is kept by every call whose hardware
    answers satisfy [A]. *)

Lemma wf_actuation (s s' : State) :
  actuation s' = actuation s -> wf s' = wf s.
Proof.
  unfold actuation, wf, tables_ok. intros E. injection E as -> _ -> ->.
  reflexivity.
Qed.

Lemma sampled_actuation (e : Env) (s : State) :
  actuation (sampled e s) = actuation s.
Proof.
  unfold sampled, _updateLoad, account_work. split_ifs; reflexivity.
Qed.

Section ActuationInvariant.

Variable A : Hw -> Prop.
Variable I : State -> Prop.

Hypothesis I_frame :
  forall s s',
    actuation s' = actuation s -> _chip s' = _chip s ->
    hw_log s' = hw_log s -> I s -> I s'.
Hypothesis I_log :
  forall ev s, ev <> EvWfi -> I s -> I (log ev s).
Hypothesis I_wfi :
  forall s, _chip s = PICOMIMI_RP2350 -> I s -> I (_wfi s).
Hypothesis I_apply :
  forall h p s, A h -> wf s = true -> ord p < 5 -> I s ->
  forall s', _apply h p s = Some s' -> I s'.

Lemma inv_frame (s s' : State) :
  actuation s' = actuation s -> _chip s' = _chip s ->
  hw_log s' = hw_log s ->
  wf s = true /\ I s -> wf s' = true /\ I s'.
Proof.
  intros E Ec El (W & H). split; [rewrite (wf_actuation _ _ E); exact W|].
  exact (I_frame s s' E Ec El H).
Qed.

Lemma inv_log (ev : HwEvent) (s : State) :
  ev <> EvWfi -> wf s = true /\ I s -> wf (log ev s) = true /\ I (log ev s).
Proof.
  intros Hev (W & H). split; [exact W|]. exact (I_log ev s Hev H).
Qed.

Lemma apply_inv (h : Hw) (p : PowerProfile) (s : State) :
  A h -> wf s = true /\ I s ->
  exists s', _apply h p s = Some s' /\ wf s' = true /\ I s'.
Proof.
  intros Ha (W & H). destruct (apply_step h p s W) as (s' & E & W' & _).
  exists s'. split; [exact E|]. split; [exact W'|].
  destruct (Z_lt_le_dec (ord p) 5) as [Hp|Hp].
  - exact (I_apply h p s Ha W Hp H s' E).
  - rewrite (apply_invalid h p s Hp) in E. injection E as <-. exact H.
Qed.

(** Closes a goal [exists s', f = Some s' /\ wf s' = true /\ I s'] whose
    [f] is an [_apply] on a state that differs from [s] outside the
    actuation state, the chip and the log, or such a state itself. *)
Ltac framed s Ha Hi :=
  first [ apply apply_inv;
          [exact Ha
          |apply (inv_frame s); [reflexivity|reflexivity|reflexivity|exact Hi]]
        | eexists; split;
          [reflexivity
          |apply (inv_frame s);
           [reflexivity|reflexivity|reflexivity|exact Hi]] ].

Lemma thermal_inv (raw : Z) (h : Hw) (s : State) :
  A h -> wf s = true /\ I s ->
  exists s', _thermal raw h s = Some s' /\ wf s' = true /\ I s'.
Proof.
  intros Ha Hi. unfold _thermal.
  assert (H0 : wf (log (EvAdcSelect 4) s) = true /\ I (log (EvAdcSelect 4) s))
    by (apply inv_log; [discriminate|exact Hi]).
  set (s0 := log (EvAdcSelect 4) s) in *. clearbody s0.
  cbn [_temp set_temp _profile _throttled set_throttled].
  split_ifs; framed s0 Ha H0.
Qed.

Lemma timeouts_inv (now : Z) (h : Hw) (s : State) :
  A h -> wf s = true /\ I s ->
  exists s', _timeouts now h s = Some s' /\ wf s' = true /\ I s'.
Proof.
  intros Ha Hi. unfold _timeouts.
  assert (Hflags : forall s1, wf s1 = true /\ I s1 ->
            exists s',
              Some
                (let s2 :=
                   if _boost_on s1
                      && (BOOST_DURATION_MS <=? u32 (now - _boost_start_ms s1))
                   then set_boost_on false s1 else s1 in
                 if _override_on s2 && (0 <? _override_end_ms s2)
                    && (_override_end_ms s2 <=? now)
                 then set_override_end_ms 0 (set_override_on false s2)
                 else s2) = Some s' /\ wf s' = true /\ I s').
  { intros s1 H1. eexists. split; [reflexivity|].
    apply (inv_frame s1); [| | |exact H1]; cbv zeta; split_ifs; reflexivity. }
  destruct (_turbo_on s && (TURBO_MAX_MS <=? u32 (now - _turbo_start_ms s))).
  - cbn [_profile set_turbo_on].
    destruct (profile_eqb (_profile s) PROFILE_TURBO).
    + destruct (apply_inv h PROFILE_PERFORMANCE (set_turbo_on false s) Ha)
        as (s1 & -> & H1);
        [apply (inv_frame s); [reflexivity|reflexivity|reflexivity|exact Hi]|].
      cbn [bind]. apply Hflags, H1.
    + cbn [bind]. apply Hflags.
      apply (inv_frame s); [reflexivity|reflexivity|reflexivity|exact Hi].
  - cbn [bind]. apply Hflags, Hi.
Qed.

Lemma scale_inv (h : Hw) (s : State) :
  A h -> wf s = true /\ I s ->
  exists s', _scale h s = Some s' /\ wf s' = true /\ I s'.
Proof.
  intros Ha Hi. unfold _scale. split_ifs; framed s Ha Hi.
Qed.

Lemma scale_cycle_inv (e : Env) (now_ms : Z) (s : State) :
  A (env_hw e) -> wf s = true /\ I s ->
  exists s', scale_cycle e now_ms s = Some s' /\ wf s' = true /\ I s'.
Proof.
  intros Ha Hi. unfold scale_cycle.
  destruct (thermal_inv (env_adc e) (env_hw e) s Ha Hi) as (s1 & -> & H1).
  cbn [bind].
  destruct (timeouts_inv (env_ms_timeouts e) (env_hw e) s1 Ha H1)
    as (s2 & -> & H2).
  cbn [bind].
  assert (exists s3,
            (if negb (_override_on s2) then _scale (env_hw e) s2 else Some s2)
            = Some s3 /\ wf s3 = true /\ I s3) as (s3 & -> & H3).
  { destruct (negb (_override_on s2));
      [apply scale_inv; assumption
      |eexists; split; [reflexivity|eassumption]]. }
  cbn [bind]. framed s3 Ha H3.
Qed.

Lemma setProfile_inv (p : PowerProfile) (d now_ms : Z) (h : Hw) (s : State) :
  A h -> wf s = true /\ I s ->
  exists s', setProfile p d now_ms h s = Some s' /\ wf s' = true /\ I s'.
Proof.
  intros Ha Hi. unfold setProfile. split_ifs; framed s Ha Hi.
Qed.

Lemma handle_command_inv (cmd : string) (now_ms : Z) (h : Hw) (s : State) :
  A h -> wf s = true /\ I s ->
  exists s', handle_command cmd now_ms h s = Some s' /\ wf s' = true /\ I s'.
Proof.
  intros Ha Hi. unfold handle_command, setTurbo, setPowersave.
  split_ifs;
    first [ apply setProfile_inv; assumption | framed s Ha Hi ].
Qed.

Lemma serial_byte_inv (b : SerialByte) (s : State) :
  A (sb_hw b) -> wf s = true /\ I s ->
  exists s', serial_byte b s = Some s' /\ wf s' = true /\ I s'.
Proof.
  intros Ha Hi. unfold serial_byte.
  destruct (Ascii.eqb (sb_char b) "010" || Ascii.eqb (sb_char b) "013").
  - cbv zeta.
    set (s0 := set_cmd (toLowerCase (trim (_cmd s))) s).
    assert (H0 : wf s0 = true /\ I s0)
      by (apply (inv_frame s);
          [reflexivity|reflexivity|reflexivity|exact Hi]).
    assert (exists s1,
              (if (0 <? String.length (_cmd s0))%nat
               then handle_command (_cmd s0) (sb_now_ms b) (sb_hw b) s0
               else Some s0) = Some s1 /\ wf s1 = true /\ I s1)
      as (s1 & -> & H1).
    { destruct (0 <? String.length (_cmd s0))%nat;
        [apply handle_command_inv; assumption
        |eexists; split; [reflexivity|eassumption]]. }
    cbn [bind]. framed s1 Ha H1.
  - framed s Ha Hi.
Qed.

Lemma handleSerial_inv (input : list SerialByte) (s : State) :
  Forall A (map sb_hw input) -> wf s = true /\ I s ->
  exists s', _handleSerial input s = Some s' /\ wf s' = true /\ I s'.
Proof.
  revert s. induction input as [|b rest IH]; intros s Ha Hi.
  - eexists. split; [reflexivity|eassumption].
  - cbn [_handleSerial]. cbn [map] in Ha. inversion Ha as [|? ? Hb Hr]; subst.
    destruct (serial_byte_inv b s Hb Hi) as (s1 & -> & H1). cbn [bind].
    exact (IH s1 Hr H1).
Qed.

Lemma inputBoost_inv (now_ms : Z) (h : Hw) (s : State) :
  A h -> wf s = true /\ I s ->
  exists s', inputBoost now_ms h s = Some s' /\ wf s' = true /\ I s'.
Proof.
  intros Ha Hi. unfold inputBoost.
  cbn [_profile set_boost_on set_boost_start_ms].
  split_ifs; framed s Ha Hi.
Qed.

Lemma run_inv (e : Env) (s : State) :
  Forall A (env_hw e :: map sb_hw (env_serial e)) -> wf s = true /\ I s ->
  exists s', run e s = Some s' /\ wf s' = true /\ I s'.
Proof.
  intros Ha Hi. inversion Ha as [|? ? Hh Hs]; subst.
  unfold run.
  destruct (negb (_init s)); [eexists; split; [reflexivity|eassumption]|].
  fold (sampled e s).
  assert (H0 : wf (sampled e s) = true /\ I (sampled e s)).
  { apply (inv_frame s); [apply sampled_actuation| | |exact Hi];
      unfold sampled, _updateLoad, account_work; split_ifs; reflexivity. }
  set (s0 := sampled e s) in *.
  assert (exists s1,
            (if SCALE_INTERVAL_MS <=? u64 (env_ms e - _last_scale_ms s0)
             then scale_cycle e (env_ms e) s0 else Some s0) = Some s1
            /\ wf s1 = true /\ I s1) as (s1 & -> & H1).
  { destruct (SCALE_INTERVAL_MS <=? u64 (env_ms e - _last_scale_ms s0));
      [apply scale_cycle_inv; assumption
      |eexists; split; [reflexivity|eassumption]]. }
  cbn [bind].
  set (s2 := if chip_eqb (_chip s1) PICOMIMI_RP2350
                && profile_eqb (_profile s1) PROFILE_ULTRA_LOW
                && F32.lt (_avg_load s1) (F32.of_Z ULTRA_DOWN)
                && negb (_throttled s1)
             then _wfi s1 else s1).
  assert (H2 : wf s2 = true /\ I s2).
  { subst s2. destruct (chip_eqb (_chip s1) PICOMIMI_RP2350) eqn:Ec;
      cbn [andb]; [|exact H1].
    destruct (profile_eqb (_profile s1) PROFILE_ULTRA_LOW
              && F32.lt (_avg_load s1) (F32.of_Z ULTRA_DOWN)
              && negb (_throttled s1)); [|exact H1].
    destruct H1 as (W1 & I1). split; [exact W1|].
    apply I_wfi; [|exact I1]. destruct (_chip s1); [discriminate|reflexivity]. }
  assert (exists s3,
            (if _manual s2 then _handleSerial (env_serial e) s2 else Some s2)
            = Some s3 /\ wf s3 = true /\ I s3) as (s3 & -> & H3).
  { destruct (_manual s2);
      [apply handleSerial_inv; assumption
      |eexists; split; [reflexivity|eassumption]]. }
  cbn [bind]. framed s3 Hh H3.
Qed.

Lemma call_inv (c : Call) (s : State) :
  Forall A (call_hw c) -> wf s = true /\ I s ->
  exists s', call c s = Some s' /\ wf s' = true /\ I s'.
Proof.
  intros Ha Hi. destruct c; cbn [call call_hw] in *.
  - apply run_inv; assumption.
  - eexists. split; [reflexivity|]. unfold idle.
    apply inv_log; [discriminate|].
    apply (inv_frame s); [reflexivity|reflexivity|reflexivity|exact Hi].
  - eexists. split; [reflexivity|]. unfold idleMicros.
    apply inv_log; [discriminate|].
    apply (inv_frame s); [reflexivity|reflexivity|reflexivity|exact Hi].
  - inversion Ha; subst. apply inputBoost_inv; assumption.
  - inversion Ha; subst. apply setProfile_inv; assumption.
  - inversion Ha; subst. apply setProfile_inv; assumption.
  - inversion Ha; subst. apply setProfile_inv; assumption.
  - framed s Ha Hi.
Qed.

Lemma calls_inv (cs : list Call) (s : State) :
  Forall (fun c => Forall A (call_hw c)) cs -> wf s = true /\ I s ->
  exists s', calls cs s = Some s' /\ wf s' = true /\ I s'.
Proof.
  revert s. induction cs as [|c cs IH]; intros s Ha Hi.
  - eexists. split; [reflexivity|eassumption].
  - cbn [calls]. inversion Ha as [|? ? Hc Hr]; subst.
    destruct (call_inv c s Hc Hi) as (s1 & -> & H1). cbn [bind].
    exact (IH s1 Hr H1).
Qed.

End ActuationInvariant.

(** ** The recorded frequency *)

Lemma apply_accepted (h : Hw) (p : PowerProfile) (s : State) (khz mv : Z) :
  ord p < 5 ->
  tbl_at (_freq_tbl s) p = Some khz -> tbl_at (_volt_tbl s) p = Some mv ->
  hw_clk_ok h khz = true ->
  exists s',
    _apply h p s = Some s'
    /\ _profile s' = p /\ _freq_khz s' = khz
    /\ _freq_tbl s' = _freq_tbl s /\ _volt_tbl s' = _volt_tbl s
    /\ hw_log s'
       = (if khz >? _freq_khz s
          then [EvSetClock khz true; EvBusyWait 150; EvVreg (_toVreg mv)]
          else if khz <? _freq_khz s
          then [EvVreg (_toVreg mv); EvSetClock khz true]
          else [EvSetClock khz true]) ++ hw_log s
    /\ _chip s' = _chip s.
Proof.
  intros Hp Ef Ev Hok. unfold _apply.
  replace (profile_leb PROFILE_COUNT p) with false
    by (symmetry; apply Z.leb_gt; exact Hp).
  rewrite Ef, Ev. cbn [bind]. unfold _setFreq. rewrite Hok. cbn [negb].
  destruct (khz >? _freq_khz s) eqn:Eup.
  - cbn [log _freq_khz set_hw_log hw_log].
    replace (khz <? _freq_khz s) with false by (symmetry; lia).
    split_ifs; eexists; (split; [reflexivity|]); cbn; repeat split.
  - cbn [log _freq_khz set_hw_log hw_log].
    destruct (khz <? _freq_khz s);
      split_ifs; eexists; (split; [reflexivity|]); cbn; repeat split.
Qed.

Lemma apply_refused (h : Hw) (p : PowerProfile) (s : State) (khz mv : Z) :
  ord p < 5 ->
  tbl_at (_freq_tbl s) p = Some khz -> tbl_at (_volt_tbl s) p = Some mv ->
  hw_clk_ok h khz = false ->
  exists s',
    _apply h p s = Some s'
    /\ _profile s' = p /\ _freq_khz s' = 133000
    /\ _freq_tbl s' = _freq_tbl s /\ _volt_tbl s' = _volt_tbl s
    /\ hw_log s'
       = [EvSetClock 133000 (hw_clk_ok h 133000); EvSetClock khz false]
         ++ (if khz >? _freq_khz s
             then [EvBusyWait 150; EvVreg (_toVreg mv)] else [])
         ++ hw_log s
    /\ _chip s' = _chip s.
Proof.
  intros Hp Ef Ev Hok. unfold _apply.
  replace (profile_leb PROFILE_COUNT p) with false
    by (symmetry; apply Z.leb_gt; exact Hp).
  rewrite Ef, Ev. cbn [bind]. unfold _setFreq. rewrite Hok. cbn [negb].
  destruct (khz >? _freq_khz s);
    split_ifs; eexists; (split; [reflexivity|]); cbn; repeat split.
Qed.

Lemma wf_entries (s : State) (p : PowerProfile) :
  wf s = true -> ord p < 5 ->
  exists khz mv,
    tbl_at (_freq_tbl s) p = Some khz /\ tbl_at (_volt_tbl s) p = Some mv.
Proof.
  intros Hwf Hp.
  destruct (wf_tables s Hwf)
    as (f0 & f1 & f2 & f3 & f4 & v0 & v1 & v2 & v3 & v4 & Ef & Ev).
  unfold tbl_at. rewrite Ef, Ev.
  destruct p; simpl in Hp; try lia; simpl; eauto.
Qed.

Lemma freq_known_frame (s s' : State) :
  actuation s' = actuation s -> _chip s' = _chip s ->
  hw_log s' = hw_log s -> freq_known s -> freq_known s'.
Proof.
  unfold actuation, freq_known, freq_exact. intros E _ _.
  injection E as -> -> -> _. tauto.
Qed.

Lemma freq_known_log (ev : HwEvent) (s : State) :
  ev <> EvWfi -> freq_known s -> freq_known (log ev s).
Proof. intros _ H. exact H. Qed.

Lemma freq_known_wfi (s : State) :
  _chip s = PICOMIMI_RP2350 -> freq_known s -> freq_known (_wfi s).
Proof. intros _ H. exact H. Qed.

Lemma freq_exact_log (ev : HwEvent) (s : State) :
  ev <> EvWfi -> freq_exact s -> freq_exact (log ev s).
Proof. intros _ H. exact H. Qed.

Lemma freq_exact_wfi (s : State) :
  _chip s = PICOMIMI_RP2350 -> freq_exact s -> freq_exact (_wfi s).
Proof. intros _ H. exact H. Qed.

Lemma freq_exact_frame (s s' : State) :
  actuation s' = actuation s -> _chip s' = _chip s ->
  hw_log s' = hw_log s -> freq_exact s -> freq_exact s'.
Proof.
  unfold actuation, freq_exact. intros E _ _.
  injection E as -> -> -> _. tauto.
Qed.

Lemma freq_known_apply (h : Hw) (p : PowerProfile) (s : State) :
  True -> wf s = true -> ord p < 5 -> freq_known s ->
  forall s', _apply h p s = Some s' -> freq_known s'.
Proof.
  intros _ Hwf Hp _ s' E.
  destruct (wf_entries s p Hwf Hp) as (khz & mv & Ef & Ev).
  destruct (hw_clk_ok h khz) eqn:Hok.
  - destruct (apply_accepted h p s khz mv Hp Ef Ev Hok)
      as (s1 & E1 & P1 & F1 & T1 & _ & _).
    rewrite E1 in E. injection E as <-. left. unfold freq_exact.
    rewrite T1, P1, F1. exact Ef.
  - destruct (apply_refused h p s khz mv Hp Ef Ev Hok)
      as (s1 & E1 & P1 & F1 & _).
    rewrite E1 in E. injection E as <-. right. exact F1.
Qed.

Lemma freq_exact_apply (h : Hw) (p : PowerProfile) (s : State) :
  clock_accepts h -> wf s = true -> ord p < 5 -> freq_exact s ->
  forall s', _apply h p s = Some s' -> freq_exact s'.
Proof.
  intros Ha Hwf Hp _ s' E.
  destruct (wf_entries s p Hwf Hp) as (khz & mv & Ef & Ev).
  destruct (apply_accepted h p s khz mv Hp Ef Ev (Ha khz))
    as (s1 & E1 & P1 & F1 & T1 & _ & _).
  rewrite E1 in E. injection E as <-. unfold freq_exact.
  rewrite T1, P1, F1. exact Ef.
Qed.

Lemma after_begin_freq (chip : PicomimiChip) (manual : bool)
    (now_us now_ms : Z) :
  freq_exact (after_begin chip manual now_us now_ms)
  /\ _freq_tbl (after_begin chip manual now_us now_ms)
     = Some (fst (_setupTables chip))
  /\ _volt_tbl (after_begin chip manual now_us now_ms)
     = Some (snd (_setupTables chip)).
Proof. destruct chip; repeat split. Qed.

Lemma any_hw (cs : list Call) :
  Forall (fun c => Forall (fun _ : Hw => True) (call_hw c)) cs.
Proof.
  apply Forall_forall. intros c _. apply Forall_forall. intros; exact I.
Qed.

Lemma config_tables (s s' : State) :
  config s' = config s ->
  _freq_tbl s' = _freq_tbl s /\ _volt_tbl s' = _volt_tbl s
  /\ _chip s' = _chip s.
Proof. unfold config. intros E. injection E as _ _ -> -> ->. auto. Qed.

Lemma chip_entry (chip : PicomimiChip) (p : PowerProfile) (khz : Z) :
  tbl_at (Some (fst (_setupTables chip))) p = Some khz ->
  In khz (fst (_setupTables chip)).
Proof. unfold tbl_at. apply nth_error_In. Qed.

(** X2: after [begin] and any calls, whatever the clock setter answers, the
    recorded frequency is the frequency-table entry of the current profile or
    the fallback 133000 kHz, hence 133000 or an entry of the chip's table; a
    profile change that the clock setter refuses still records the new
    profile, with the fallback frequency. *)
Theorem frequency_is_table_entry_or_fallback (chip : PicomimiChip)
    (manual : bool) (now_us now_ms : Z) (cs : list Call) :
  exists s,
    calls cs (after_begin chip manual now_us now_ms) = Some s
    /\ (tbl_at (_freq_tbl s) (_profile s) = Some (_freq_khz s)
        \/ _freq_khz s = 133000)
    /\ In (_freq_khz s) (133000 :: fst (_setupTables chip))
    /\ (forall h p khz,
          ord p < ord PROFILE_COUNT ->
          tbl_at (_freq_tbl s) p = Some khz -> hw_clk_ok h khz = false ->
          exists s',
            _apply h p s = Some s'
            /\ _profile s' = p /\ _freq_khz s' = 133000).
Proof.
  destruct (after_begin_wf chip manual now_us now_ms) as (W0 & _).
  destruct (after_begin_freq chip manual now_us now_ms) as (X0 & Ef0 & Ev0).
  destruct (calls_inv (fun _ => True) freq_known freq_known_frame
              freq_known_log freq_known_wfi freq_known_apply cs _ (any_hw cs)
              (conj W0 (or_introl X0))) as (s & E & W & K).
  destruct (calls_keep cs _ W0) as (s2 & E2 & _ & C & _).
  rewrite E in E2. injection E2 as <-.
  destruct (config_tables _ _ C) as (Ef & Ev & _).
  exists s. split; [exact E|]. split; [exact K|]. split.
  - destruct K as [K|K]; [right|left; congruence].
    unfold freq_exact in K. rewrite Ef, Ef0 in K.
    exact (chip_entry _ _ _ K).
  - intros h p khz Hp Ek Hno.
    destruct (wf_entries s p W Hp) as (khz' & mv & Ef' & Ev').
    assert (khz' = khz) by congruence. subst khz'.
    destruct (apply_refused h p s khz mv Hp Ef' Ev' Hno)
      as (s' & E' & P' & F' & _).
    exists s'. auto.
Qed.

Lemma calls_freq_exact (chip : PicomimiChip) (manual : bool)
    (now_us now_ms : Z) (cs : list Call) :
  Forall (fun c => Forall clock_accepts (call_hw c)) cs ->
  exists s,
    calls cs (after_begin chip manual now_us now_ms) = Some s
    /\ wf s = true /\ freq_exact s
    /\ _freq_tbl s = Some (fst (_setupTables chip))
    /\ _volt_tbl s = Some (snd (_setupTables chip)).
Proof.
  intros Ha.
  destruct (after_begin_wf chip manual now_us now_ms) as (W0 & _).
  destruct (after_begin_freq chip manual now_us now_ms) as (X0 & Ef0 & Ev0).
  destruct (calls_inv clock_accepts freq_exact freq_exact_frame
              freq_exact_log freq_exact_wfi freq_exact_apply cs _ Ha (conj W0 X0)) as (s & E & W & K).
  destruct (calls_keep cs _ W0) as (s2 & E2 & _ & C & _).
  rewrite E in E2. injection E2 as <-.
  destruct (config_tables _ _ C) as (Ef & Ev & _).
  exists s. repeat split; try assumption; congruence.
Qed.

(** X3: when the clock setter accepts every request, after [begin] and any
    calls the recorded frequency is exactly the chip's table entry of the
    current profile, and the reported MHz value is that entry divided by
    1000. *)
Theorem frequency_follows_profile (chip : PicomimiChip) (manual : bool)
    (now_us now_ms : Z) (cs : list Call) :
  Forall (fun c => Forall clock_accepts (call_hw c)) cs ->
  exists s khz,
    calls cs (after_begin chip manual now_us now_ms) = Some s
    /\ tbl_at (Some (fst (_setupTables chip))) (_profile s) = Some khz
    /\ _freq_khz s = khz
    /\ getFreqMHz s = khz / 1000.
Proof.
  intros Ha.
  destruct (calls_freq_exact chip manual now_us now_ms cs Ha)
    as (s & E & W & K & Ef & Ev).
  exists s, (_freq_khz s). split; [exact E|].
  unfold freq_exact in K. rewrite Ef in K. auto.
Qed.

Lemma frequency_follows_profile_witness :
  let h := {| hw_now_ms := 5; hw_clk_ok := fun _ => true |} in
  let cs := [CallSetTurbo 30 5 h; CallInputBoost 9 h; CallSetAuto] in
  Forall (fun c => Forall clock_accepts (call_hw c)) cs
  /\ exists s khz,
       calls cs (after_begin PICOMIMI_RP2350 false 0 0) = Some s
       /\ tbl_at (Some (fst (_setupTables PICOMIMI_RP2350))) (_profile s)
          = Some khz
       /\ _freq_khz s = khz
       /\ getFreqMHz s = khz / 1000.
Proof.
  intros h cs.
  assert (H : Forall (fun c => Forall clock_accepts (call_hw c)) cs)
    by (repeat constructor).
  split; [exact H|].
  exact (frequency_follows_profile PICOMIMI_RP2350 false 0 0 cs H).
Defined.

Lemma chip_tables_increase (chip : PicomimiChip) (p q : PowerProfile)
    (f g : Z) :
  ord p < 5 -> ord q < 5 ->
  tbl_at (Some (fst (_setupTables chip))) p = Some f ->
  tbl_at (Some (fst (_setupTables chip))) q = Some g ->
  ((g >? f) = (ord p <? ord q)) /\ ((g <? f) = (ord q <? ord p)).
Proof.
  intros Hp Hq Ef Eg.
  destruct chip, p, q; cbn in Hp, Hq; try lia; cbn in Ef, Eg;
    injection Ef as <-; injection Eg as <-; split; reflexivity.
Qed.

(** X4: voltage before frequency on the way up, after it on the way down.
    When the clock setter accepts every request, in any state reached after
    [begin], applying a valid profile asks the hardware, in this order: for a
    higher profile the regulator setting, a 150 us wait, then the clock; for
    a lower profile the clock, then the regulator setting; for the current
    profile the clock alone. *)
Theorem voltage_leads_up_and_trails_down (chip : PicomimiChip)
    (manual : bool) (now_us now_ms : Z) (cs : list Call) :
  Forall (fun c => Forall clock_accepts (call_hw c)) cs ->
  exists s,
    calls cs (after_begin chip manual now_us now_ms) = Some s
    /\ forall h p,
         clock_accepts h -> ord p < ord PROFILE_COUNT ->
         exists s' khz mv,
           _apply h p s = Some s'
           /\ tbl_at (Some (fst (_setupTables chip))) p = Some khz
           /\ tbl_at (Some (snd (_setupTables chip))) p = Some mv
           /\ _freq_khz s' = khz
           /\ hw_log s' = actuation_events (_profile s) p khz mv ++ hw_log s.
Proof.
  intros Ha.
  destruct (calls_freq_exact chip manual now_us now_ms cs Ha)
    as (s & E & W & K & Ef & Ev).
  exists s. split; [exact E|]. intros h p Hh Hp.
  destruct (wf_entries s p W Hp) as (khz & mv & Ef' & Ev').
  destruct (apply_accepted h p s khz mv Hp Ef' Ev' (Hh khz))
    as (s' & E' & P' & F' & _ & _ & L' & _).
  exists s', khz, mv. split; [exact E'|].
  rewrite Ef in Ef'. rewrite Ev in Ev'.
  split; [exact Ef'|]. split; [exact Ev'|]. split; [exact F'|].
  rewrite L'. unfold freq_exact in K. rewrite Ef in K.
  destruct (chip_tables_increase chip (_profile s) p (_freq_khz s) khz
              (wf_profile s W) Hp K Ef') as (-> & ->).
  reflexivity.
Qed.

Lemma voltage_leads_up_and_trails_down_witness :
  let h := {| hw_now_ms := 5; hw_clk_ok := fun _ => true |} in
  let cs := [CallSetPowersave 0 5 h; CallSetAuto] in
  Forall (fun c => Forall clock_accepts (call_hw c)) cs
  /\ exists s,
       calls cs (after_begin PICOMIMI_RP2040 false 0 0) = Some s
       /\ forall h' p,
            clock_accepts h' -> ord p < ord PROFILE_COUNT ->
            exists s' khz mv,
              _apply h' p s = Some s'
              /\ tbl_at (Some (fst (_setupTables PICOMIMI_RP2040))) p
                 = Some khz
              /\ tbl_at (Some (snd (_setupTables PICOMIMI_RP2040))) p
                 = Some mv
              /\ _freq_khz s' = khz
              /\ hw_log s'
                 = actuation_events (_profile s) p khz mv ++ hw_log s.
Proof.
  intros h cs.
  assert (H : Forall (fun c => Forall clock_accepts (call_hw c)) cs)
    by (repeat constructor).
  split; [exact H|].
  exact (voltage_leads_up_and_trails_down PICOMIMI_RP2040 false 0 0 cs H).
Defined.

(** ** The profile is always an operating point *)

(** X5: after [begin] and any calls, including [setProfile] with the
    out-of-range profile [PROFILE_COUNT], the current profile is one of the
    five operating points, and [getProfileName] finds its name inside
    [PROFILE_NAMES]. *)
Theorem profile_always_named (chip : PicomimiChip) (manual : bool)
    (now_us now_ms : Z) (cs : list Call) :
  exists s name,
    calls cs (after_begin chip manual now_us now_ms) = Some s
    /\ 0 <= ord (getProfile s) < ord PROFILE_COUNT
    /\ getProfileName s = Some name
    /\ In name PROFILE_NAMES.
Proof.
  destruct (after_begin_wf chip manual now_us now_ms) as (W0 & _).
  destruct (calls_keep cs _ W0) as (s & E & W & _).
  apply wf_profile in W. unfold getProfileName, getProfile.
  pose proof (ord_range (_profile s)) as R.
  destruct (_profile s) eqn:Ep; cbn in W; try lia;
    eexists; eexists; (split; [exact E|]); rewrite Ep; cbn;
    (split; [lia|]); (split; [reflexivity|]); tauto.
Qed.

(** ** The scale step settles *)

Lemma scale_profile (h : Hw) (s : State) :
  wf s = true ->
  exists s',
    _scale h s = Some s'
    /\ _profile s'
       = scale_next (_throttled s) (_boost_on s) (_avg_load s) (_profile s)
    /\ _throttled s' = _throttled s /\ _boost_on s' = _boost_on s
    /\ _avg_load s' = _avg_load s /\ wf s' = true
    /\ (_profile s' = _profile s -> s' = s).
Proof.
  intros Hwf. unfold _scale, scale_next.
  destruct (_boost_on s && profile_leb PROFILE_PERFORMANCE (_profile s)).
  - exists s. repeat split; auto.
  - change (let target :=
              if negb (_throttled s) then scale_up (_profile s) (_avg_load s)
              else _profile s in
            let target := scale_down (_profile s) (_avg_load s) target in
            if _throttled s && profile_ltb PROFILE_BALANCED target
            then PROFILE_BALANCED else target) with (scale_target s).
    destruct (profile_eqb (scale_target s) (_profile s)) eqn:Et; cbn [negb].
    + apply profile_eqb_eq in Et. exists s. repeat split; auto.
    + destruct (apply_shape h (scale_target s) s Hwf)
        as (khz & lg & ->); [apply scale_target_valid, Hwf|].
      eexists. split; [reflexivity|]. cbn.
      repeat split; try reflexivity.
      * apply applied_wf; [exact Hwf|apply scale_target_valid, Hwf].
      * intros E. rewrite E in Et.
        assert (profile_eqb (_profile s) (_profile s) = true)
          by (apply profile_eqb_eq; reflexivity).
        congruence.
Qed.

Lemma scale_next_on_settles (thr boost g70 g45 g20 l55 l30 l12 l5 : bool)
    (p : PowerProfile) :
  ord p < 5 ->
  (l55 = true -> g70 = false) ->
  (l30 = true -> g70 = false) -> (l30 = true -> g45 = false) ->
  (l12 = true -> g70 = false) -> (l12 = true -> g45 = false) ->
  (l12 = true -> g20 = false) ->
  (l5 = true -> g70 = false) -> (l5 = true -> g45 = false) ->
  (l5 = true -> g20 = false) ->
  let f := scale_next_on thr boost g70 g45 g20 l55 l30 l12 l5 in
  f (f (f (f (f p)))) = f (f (f (f p))).
Proof.
  intros Hp X1 X2 X3 X4 X5 X6 X7 X8 X9 f. subst f.
  destruct p; cbn in Hp; try lia; clear Hp;
    destruct thr, boost, g70, g45, g20, l55, l30, l12, l5; try reflexivity;
    exfalso;
    first [ specialize (X1 eq_refl); discriminate
          | specialize (X2 eq_refl); discriminate
          | specialize (X3 eq_refl); discriminate
          | specialize (X4 eq_refl); discriminate
          | specialize (X5 eq_refl); discriminate
          | specialize (X6 eq_refl); discriminate
          | specialize (X7 eq_refl); discriminate
          | specialize (X8 eq_refl); discriminate
          | specialize (X9 eq_refl); discriminate ].
Qed.

Lemma scale_next_as_on (thr boost : bool) (load : float) (p : PowerProfile) :
  scale_next thr boost load p
  = scale_next_on thr boost
      (F32.ge load (F32.of_Z TURBO_UP)) (F32.ge load (F32.of_Z PERF_UP))
      (F32.ge load (F32.of_Z BAL_UP)) (F32.lt load (F32.of_Z TURBO_DOWN))
      (F32.lt load (F32.of_Z PERF_DOWN)) (F32.lt load (F32.of_Z BAL_DOWN))
      (F32.lt load (F32.of_Z SAVE_DOWN)) p.
Proof. reflexivity. Qed.

Lemma scale_next_settles (thr boost : bool) (load : float)
    (p : PowerProfile) :
  ord p < 5 ->
  let f := scale_next thr boost load in
  f (f (f (f (f p)))) = f (f (f (f p))).
Proof.
  intros Hp f. subst f. rewrite !scale_next_as_on.
  apply scale_next_on_settles; [exact Hp|..].
  - exact (lt_const_not_ge load TURBO_DOWN TURBO_UP eq_refl).
  - exact (lt_const_not_ge load PERF_DOWN TURBO_UP eq_refl).
  - exact (lt_const_not_ge load PERF_DOWN PERF_UP eq_refl).
  - exact (lt_const_not_ge load BAL_DOWN TURBO_UP eq_refl).
  - exact (lt_const_not_ge load BAL_DOWN PERF_UP eq_refl).
  - exact (lt_const_not_ge load BAL_DOWN BAL_UP eq_refl).
  - exact (lt_const_not_ge load SAVE_DOWN TURBO_UP eq_refl).
  - exact (lt_const_not_ge load SAVE_DOWN PERF_UP eq_refl).
  - exact (lt_const_not_ge load SAVE_DOWN BAL_UP eq_refl).
Qed.

Lemma scales_fixed (hs : list Hw) (s : State) :
  (forall h, _scale h s = Some s) -> scales hs s = Some s.
Proof.
  intros H. induction hs as [|h hs IH]; cbn [scales]; [reflexivity|].
  rewrite H. exact IH.
Qed.

(** X6: at a fixed smoothed load the scale step settles.  From any
    well-formed state, after four scale steps no further scale step changes
    the governor, whatever the load, the throttled flag and the boost flag
    are: in particular the profile does not oscillate between two operating
    points. *)
Theorem scale_settles_in_four_steps (h1 h2 h3 h4 : Hw) (s : State) :
  wf s = true ->
  exists s4,
    scales [h1; h2; h3; h4] s = Some s4
    /\ _avg_load s4 = _avg_load s
    /\ forall hs, scales (h1 :: h2 :: h3 :: h4 :: hs) s = Some s4.
Proof.
  intros W0.
  destruct (scale_profile h1 s W0) as (s1 & E1 & P1 & T1 & B1 & A1 & W1 & _).
  destruct (scale_profile h2 s1 W1) as (s2 & E2 & P2 & T2 & B2 & A2 & W2 & _).
  destruct (scale_profile h3 s2 W2) as (s3 & E3 & P3 & T3 & B3 & A3 & W3 & _).
  destruct (scale_profile h4 s3 W3) as (s4 & E4 & P4 & T4 & B4 & A4 & W4 & _).
  assert (Hfix : forall h, _scale h s4 = Some s4).
  { intros h.
    destruct (scale_profile h s4 W4) as (s5 & E5 & P5 & _ & _ & _ & _ & F5).
    rewrite E5. f_equal. apply F5. rewrite P5, P4, P3, P2, P1.
    rewrite T4, T3, T2, T1, B4, B3, B2, B1, A4, A3, A2, A1.
    apply (scale_next_settles (_throttled s) (_boost_on s) (_avg_load s)
             (_profile s)), wf_profile, W0. }
  exists s4. cbn [scales]. rewrite E1. cbn [bind]. rewrite E2. cbn [bind].
  rewrite E3. cbn [bind]. rewrite E4. cbn [bind].
  split; [reflexivity|]. split; [congruence|].
  intros hs. apply scales_fixed, Hfix.
Qed.

Lemma scale_settles_in_four_steps_witness :
  let h := {| hw_now_ms := 5; hw_clk_ok := fun _ => true |} in
  let s := set_profile PROFILE_TURBO (after_begin PICOMIMI_RP2040 false 0 0) in
  wf s = true
  /\ exists s4,
       scales [h; h; h; h] s = Some s4
       /\ _avg_load s4 = _avg_load s
       /\ forall hs, scales (h :: h :: h :: h :: hs) s = Some s4.
Proof.
  intros h s. split; [reflexivity|].
  apply scale_settles_in_four_steps. reflexivity.
Defined.

(** X7: a scale step of a governor that is not throttled lowers the profile
    by at most one operating point, while it can raise it by several; a
    scale step of a throttled governor never raises the profile.  The step
    changes neither the throttled flag, the boost flag nor the load. *)
Theorem scale_step_down_is_gradual (h : Hw) (s : State) :
  wf s = true ->
  exists s',
    _scale h s = Some s'
    /\ (_throttled s = false -> ord (_profile s) - 1 <= ord (_profile s'))
    /\ (_throttled s = true -> ord (_profile s') <= ord (_profile s))
    /\ _throttled s' = _throttled s /\ _boost_on s' = _boost_on s
    /\ _avg_load s' = _avg_load s.
Proof.
  intros W. destruct (scale_profile h s W) as (s' & E & P & T & B & A & _).
  exists s'. split; [exact E|]. rewrite P.
  apply wf_profile in W.
  split; [|split; [|auto]].
  all: intros ->; unfold scale_next, scale_up, scale_down;
    destruct (_profile s); cbn in W |- *; try lia;
    repeat match goal with
           | |- context [F32.ge ?a ?b] => destruct (F32.ge a b)
           | |- context [F32.lt ?a ?b] => destruct (F32.lt a b)
           end;
    destruct (_boost_on s); cbn; lia.
Qed.

Lemma scale_step_down_is_gradual_witness :
  let h := {| hw_now_ms := 5; hw_clk_ok := fun _ => true |} in
  let s := set_profile PROFILE_TURBO (after_begin PICOMIMI_RP2040 false 0 0) in
  wf s = true
  /\ exists s',
       _scale h s = Some s'
       /\ (_throttled s = false -> ord (_profile s) - 1 <= ord (_profile s'))
       /\ (_throttled s = true -> ord (_profile s') <= ord (_profile s))
       /\ _throttled s' = _throttled s /\ _boost_on s' = _boost_on s
       /\ _avg_load s' = _avg_load s.
Proof.
  intros h s. split; [reflexivity|].
  apply scale_step_down_is_gradual. reflexivity.
Defined.

(** ** The thermal thresholds in ADC counts *)

(** X8: for every reading of the 12-bit ADC, the temperature that [_thermal]
    computes in binary32 is at or above the critical threshold (80) exactly
    for readings up to 763, at or above the warn threshold (70) exactly for
    readings up to 784, and below the release threshold (60) exactly for
    readings from 806 on. *)
Theorem thermal_thresholds_in_adc_counts (raw : Z) :
  0 <= raw < 4096 ->
  F32.ge (thermal_temp raw) THERMAL_CRITICAL = (raw <=? 763)
  /\ F32.ge (thermal_temp raw) THERMAL_THROTTLE = (raw <=? 784)
  /\ F32.lt (thermal_temp raw) THERMAL_RELEASE = (806 <=? raw).
Proof.
  intros Hraw.
  pose (chk := fun n : nat =>
    let r := Z.of_nat n in
    Bool.eqb (F32.ge (thermal_temp r) THERMAL_CRITICAL) (r <=? 763)
    && Bool.eqb (F32.ge (thermal_temp r) THERMAL_THROTTLE) (r <=? 784)
    && Bool.eqb (F32.lt (thermal_temp r) THERMAL_RELEASE) (806 <=? r)).
  assert (Hall : forallb chk (seq 0 4096) = true) by (vm_compute; reflexivity).
  rewrite forallb_forall in Hall.
  specialize (Hall (Z.to_nat raw)).
  assert (Hin : In (Z.to_nat raw) (seq 0 4096)) by (apply in_seq; lia).
  specialize (Hall Hin). subst chk. cbv beta zeta in Hall.
  rewrite Z2Nat.id in Hall by lia.
  apply andb_prop in Hall as [Hall H3]. apply andb_prop in Hall as [H1 H2].
  apply eqb_prop in H1, H2, H3. auto.
Qed.

Lemma thermal_thresholds_in_adc_counts_witness :
  0 <= 770 < 4096
  /\ F32.ge (thermal_temp 770) THERMAL_CRITICAL = (770 <=? 763)
  /\ F32.ge (thermal_temp 770) THERMAL_THROTTLE = (770 <=? 784)
  /\ F32.lt (thermal_temp 770) THERMAL_RELEASE = (806 <=? 770).
Proof.
  split; [lia|]. apply thermal_thresholds_in_adc_counts. lia.
Defined.

Lemma scale_next_gradual (boost : bool) (load : float) (p : PowerProfile) :
  ord p < 5 -> ord p - 1 <= ord (scale_next false boost load p).
Proof.
  intros Hp. rewrite scale_next_as_on. unfold scale_next_on.
  repeat match goal with
         | |- context [F32.ge ?a ?b] => destruct (F32.ge a b)
         | |- context [F32.lt ?a ?b] => destruct (F32.lt a b)
         end;
    destruct boost, p; cbn in Hp |- *; lia.
Qed.

Lemma scale_next_throttled (boost : bool) (load : float) (p : PowerProfile) :
  ord p < 5 -> ord (scale_next true boost load p) <= ord p.
Proof.
  intros Hp. rewrite scale_next_as_on. unfold scale_next_on.
  repeat match goal with
         | |- context [F32.ge ?a ?b] => destruct (F32.ge a b)
         | |- context [F32.lt ?a ?b] => destruct (F32.lt a b)
         end;
    destruct boost, p; cbn in Hp |- *; lia.
Qed.

(** ** A scale-evaluation cycle at the critical temperature *)

(** X9: a scale-evaluation cycle that measures a temperature at or above the
    critical threshold ends throttled with a profile of at most POWERSAVE,
    whatever the load is, and also when a manual override or an input boost
    is active. *)
Theorem critical_cycle_ends_at_most_powersave (e : Env) (now_ms : Z)
    (s : State) :
  wf s = true ->
  F32.ge (thermal_temp (env_adc e)) THERMAL_CRITICAL = true ->
  exists s',
    scale_cycle e now_ms s = Some s'
    /\ _throttled s' = true
    /\ ord (_profile s') <= ord PROFILE_POWERSAVE.
Proof.
  intros W Hc. unfold scale_cycle.
  destruct (thermal_effect (env_adc e) (env_hw e) s W)
    as (s1 & -> & W1 & T1 & P1 & _).
  rewrite Hc in T1, P1. cbn [bind].
  assert (L1 : ord (_profile s1) <= 1).
  { rewrite P1. unfold cap_profile, profile_ltb.
    destruct (Z.ltb_spec (ord PROFILE_POWERSAVE) (ord (_profile s)));
      cbn in *; lia. }
  destruct (timeouts_effect (env_ms_timeouts e) (env_hw e) s1 W1)
    as (s2 & -> & W2 & T2 & P2 & _).
  assert (E2 : _profile s2 = _profile s1).
  { rewrite P2. replace (profile_eqb (_profile s1) PROFILE_TURBO) with false;
      [rewrite andb_false_r; reflexivity|].
    symmetry. unfold profile_eqb. apply Z.eqb_neq. cbn. lia. }
  cbn [bind].
  destruct (negb (_override_on s2)).
  - destruct (scale_profile (env_hw e) s2 W2)
      as (s3 & -> & P3 & T3 & _).
    cbn [bind]. eexists. split; [reflexivity|]. cbn.
    split; [congruence|]. rewrite P3.
    replace (_throttled s2) with true by congruence.
    pose proof (scale_next_throttled (_boost_on s2) (_avg_load s2)
                  (_profile s2) (wf_profile s2 W2)) as L3.
    rewrite E2 in L3 at 2. lia.
  - cbn [bind]. eexists. split; [reflexivity|]. cbn.
    split; [congruence|]. rewrite E2. exact L1.
Qed.

Lemma critical_cycle_ends_at_most_powersave_witness :
  let h := {| hw_now_ms := 100; hw_clk_ok := fun _ => true |} in
  let e :=
    {| env_us_entry := 100000; env_ms := 100; env_us_load := 100000;
       env_adc := 700; env_ms_timeouts := 100; env_hw := h;
       env_serial := []; env_us_exit := 100050 |} in
  let s :=
    set_override_on true
      (set_profile PROFILE_TURBO (after_begin PICOMIMI_RP2350 false 0 0)) in
  wf s = true
  /\ F32.ge (thermal_temp (env_adc e)) THERMAL_CRITICAL = true
  /\ exists s',
       scale_cycle e 100 s = Some s'
       /\ _throttled s' = true
       /\ ord (_profile s') <= ord PROFILE_POWERSAVE.
Proof.
  intros h e s.
  assert (Hc : F32.ge (thermal_temp (env_adc e)) THERMAL_CRITICAL = true)
    by (vm_compute; reflexivity).
  split; [reflexivity|]. split; [exact Hc|].
  apply critical_cycle_ends_at_most_powersave; [reflexivity|exact Hc].
Defined.

(** ** Manual override *)

(** X10: a manual override pins the profile against the load.  In a
    scale-evaluation cycle of a governor with an override that has not
    expired, when the measured temperature is below the critical threshold
    and causes no new throttling (it is below the warn threshold, or the
    governor is throttled already) and the turbo ceiling is not reached, the
    profile is left as it is whatever the smoothed load is, and the override
    stays in force. *)
Theorem override_pins_profile (e : Env) (now_ms : Z) (s : State) :
  wf s = true ->
  _override_on s = true ->
  (0 <? _override_end_ms s) && (_override_end_ms s <=? env_ms_timeouts e)
  = false ->
  F32.ge (thermal_temp (env_adc e)) THERMAL_CRITICAL = false ->
  F32.ge (thermal_temp (env_adc e)) THERMAL_THROTTLE && negb (_throttled s)
  = false ->
  _turbo_on s
  && (TURBO_MAX_MS <=? u32 (env_ms_timeouts e - _turbo_start_ms s)) = false ->
  exists s',
    scale_cycle e now_ms s = Some s'
    /\ _profile s' = _profile s
    /\ _override_on s' = true
    /\ _override_end_ms s' = _override_end_ms s.
Proof.
  intros W Ho Hend Hc Hw Hturbo. unfold scale_cycle.
  destruct (thermal_effect (env_adc e) (env_hw e) s W)
    as (s1 & -> & W1 & _ & P1 & _ & _ & _ & _ & O1 & E1 & S1 & N1).
  rewrite Hc, Hw in P1. cbn [bind].
  destruct (timeouts_effect (env_ms_timeouts e) (env_hw e) s1 W1)
    as (s2 & -> & W2 & _ & P2 & _ & _ & O2 & E2 & _).
  assert (Ht1 : _turbo_on s1
                && (TURBO_MAX_MS
                    <=? u32 (env_ms_timeouts e - _turbo_start_ms s1)) = false).
  { rewrite S1. destruct N1 as [-> | ->]; [exact Hturbo|reflexivity]. }
  rewrite Ht1 in P2. cbn [andb] in P2.
  rewrite O1, E1, Ho, Hend in O2. cbn in O2.
  rewrite O1, E1, Ho in E2. cbn [andb] in E2. rewrite Hend in E2.
  cbn [bind]. rewrite O2. cbn [negb bind].
  eexists. split; [reflexivity|]. cbn. repeat split; congruence.
Qed.

Lemma override_pins_profile_witness :
  let h := {| hw_now_ms := 100; hw_clk_ok := fun _ => true |} in
  let e :=
    {| env_us_entry := 100000; env_ms := 100; env_us_load := 100000;
       env_adc := 876; env_ms_timeouts := 100; env_hw := h;
       env_serial := []; env_us_exit := 100050 |} in
  let s :=
    set_avg_load (F32.of_Z 90)
      (set_override_on true (after_begin PICOMIMI_RP2350 false 0 0)) in
  wf s = true
  /\ _override_on s = true
  /\ exists s',
       scale_cycle e 100 s = Some s'
       /\ _profile s' = _profile s
       /\ _override_on s' = true
       /\ _override_end_ms s' = _override_end_ms s.
Proof.
  intros h e s. split; [reflexivity|]. split; [reflexivity|].
  apply override_pins_profile; try reflexivity; vm_compute; reflexivity.
Defined.

Lemma setProfile_effect (p : PowerProfile) (d now_ms : Z) (h : Hw)
    (s : State) :
  wf s = true -> ord p < 5 ->
  exists s',
    setProfile p d now_ms h s = Some s' /\ wf s' = true
    /\ _profile s' = p /\ _override_on s' = true
    /\ _override_profile s' = p
    /\ _override_end_ms s'
       = (if 0 <? d then u32 (now_ms + u32 (d * 1000)) else 0)
    /\ _throttled s' = _throttled s.
Proof.
  intros W Hp. unfold setProfile.
  replace (profile_leb PROFILE_COUNT p) with false
    by (symmetry; apply Z.leb_gt; exact Hp).
  destruct (apply_shape h p
              (set_override_end_ms
                 (if 0 <? d then u32 (now_ms + u32 (d * 1000)) else 0)
                 (set_override_profile p (set_override_on true s))) W Hp)
    as (khz & lg & ->).
  eexists. split; [reflexivity|].
  split; [apply applied_wf; [exact W|exact Hp]|].
  cbn. repeat split; reflexivity.
Qed.

(** X11: the life of a manual override.  [setProfile] with a valid profile
    applies it and puts the override in force; the timing supervisor then
    leaves the override in force exactly until the clock reaches the recorded
    expiry time, and an override without expiry time is never cleared.  When
    the expiry time does not wrap around 32 bits, an override of [d] seconds
    set at [now_ms] is in force at time [t] exactly when [d] is zero or [t]
    is before [now_ms + 1000 d]. *)
Theorem override_lasts_until_expiry (p : PowerProfile) (d now_ms : Z)
    (h : Hw) (s : State) :
  wf s = true -> ord p < ord PROFILE_COUNT ->
  exists s1,
    setProfile p d now_ms h s = Some s1
    /\ _profile s1 = p /\ _override_on s1 = true
    /\ forall t h',
         exists s2,
           _timeouts t h' s1 = Some s2
           /\ _override_on s2
              = negb ((0 <? _override_end_ms s1)
                      && (_override_end_ms s1 <=? t))
           /\ (0 <= now_ms -> 0 <= d -> now_ms + d * 1000 < 2 ^ 32 ->
               _override_on s2 = (d =? 0) || (t <? now_ms + d * 1000)).
Proof.
  intros W Hp.
  destruct (setProfile_effect p d now_ms h s W Hp)
    as (s1 & E1 & W1 & P1 & O1 & _ & End1 & _).
  exists s1. split; [exact E1|]. split; [exact P1|]. split; [exact O1|].
  intros t h'.
  destruct (timeouts_effect t h' s1 W1)
    as (s2 & E2 & _ & _ & _ & _ & _ & O2 & _ & _).
  exists s2. split; [exact E2|]. rewrite O1 in O2. cbn [andb] in O2.
  split; [exact O2|]. intros Hnow Hd Hfit. rewrite O2, End1.
  destruct (Z.ltb_spec 0 d) as [Hpos|Hzero].
  - assert (Ed : u32 (now_ms + u32 (d * 1000)) = now_ms + d * 1000).
    { unfold u32. rewrite (Z.mod_small (d * 1000)) by lia.
      apply Z.mod_small. lia. }
    rewrite Ed.
    replace (d =? 0) with false by (symmetry; apply Z.eqb_neq; lia).
    replace (0 <? now_ms + d * 1000) with true by (symmetry; lia).
    cbn [andb orb]. rewrite Z.ltb_antisym. reflexivity.
  - replace d with 0 by lia. reflexivity.
Qed.

Lemma override_lasts_until_expiry_witness :
  let h := {| hw_now_ms := 1000; hw_clk_ok := fun _ => true |} in
  let s := after_begin PICOMIMI_RP2350 false 0 0 in
  wf s = true
  /\ ord PROFILE_PERFORMANCE < ord PROFILE_COUNT
  /\ exists s1,
       setProfile PROFILE_PERFORMANCE 5 1000 h s = Some s1
       /\ _profile s1 = PROFILE_PERFORMANCE /\ _override_on s1 = true.
Proof.
  intros h s. split; [reflexivity|]. split; [reflexivity|].
  destruct (override_lasts_until_expiry PROFILE_PERFORMANCE 5 1000 h s
              eq_refl eq_refl) as (s1 & E & P & O & _).
  exists s1. auto.
Defined.

(** ** Input boost *)



(** ** WFI *)

Lemma no_wfi_frame (s s' : State) :
  actuation s' = actuation s -> _chip s' = _chip s ->
  hw_log s' = hw_log s -> no_wfi s -> no_wfi s'.
Proof. unfold no_wfi. intros _ -> ->. tauto. Qed.

Lemma no_wfi_log (ev : HwEvent) (s : State) :
  ev <> EvWfi -> no_wfi s -> no_wfi (log ev s).
Proof.
  unfold no_wfi, log. cbn. intros Hev H Hc [E|Hin]; [congruence|].
  exact (H Hc Hin).
Qed.

Lemma no_wfi_wfi (s : State) :
  _chip s = PICOMIMI_RP2350 -> no_wfi s -> no_wfi (_wfi s).
Proof. unfold no_wfi, _wfi, log. cbn. intros -> _ Hc. discriminate. Qed.

Lemma no_wfi_apply (h : Hw) (p : PowerProfile) (s : State) :
  True -> wf s = true -> ord p < 5 -> no_wfi s ->
  forall s', _apply h p s = Some s' -> no_wfi s'.
Proof.
  intros _ Hwf Hp H s' E.
  destruct (wf_entries s p Hwf Hp) as (khz & mv & Ef & Ev).
  unfold no_wfi in *.
  destruct (hw_clk_ok h khz) eqn:Hok.
  - destruct (apply_accepted h p s khz mv Hp Ef Ev Hok)
      as (s1 & E1 & _ & _ & _ & _ & L1 & C1).
    rewrite E1 in E. injection E as <-. rewrite C1, L1. intros Hc Hin.
    apply in_app_or in Hin as [Hin|Hin]; [|exact (H Hc Hin)].
    destruct (khz >? _freq_khz s); [|destruct (khz <? _freq_khz s)];
      cbn in Hin; intuition discriminate.
  - destruct (apply_refused h p s khz mv Hp Ef Ev Hok)
      as (s1 & E1 & _ & _ & _ & _ & L1 & C1).
    rewrite E1 in E. injection E as <-. rewrite C1, L1. intros Hc Hin.
    apply in_app_or in Hin as [Hin|Hin];
      [cbn in Hin; intuition discriminate|].
    apply in_app_or in Hin as [Hin|Hin]; [|exact (H Hc Hin)].
    destruct (khz >? _freq_khz s); cbn in Hin; intuition discriminate.
Qed.

(** X13: on the RP2040 the governor never executes WFI: after [begin] for
    the RP2040 and any calls, no WFI is among the hardware requests made. *)
Theorem rp2040_never_executes_wfi (manual : bool) (now_us now_ms : Z)
    (cs : list Call) :
  exists s,
    calls cs (after_begin PICOMIMI_RP2040 manual now_us now_ms) = Some s
    /\ ~ In EvWfi (hw_log s).
Proof.
  destruct (after_begin_wf PICOMIMI_RP2040 manual now_us now_ms)
    as (W0 & _).
  assert (N0 : no_wfi (after_begin PICOMIMI_RP2040 manual now_us now_ms)).
  { intros _ Hin. vm_compute in Hin.
    destruct Hin as [H|[H|[]]]; discriminate H. }
  destruct (calls_inv (fun _ => True) no_wfi no_wfi_frame no_wfi_log
              no_wfi_wfi no_wfi_apply cs _ (any_hw cs) (conj W0 N0))
    as (s & E & W & N).
  destruct (calls_keep cs _ W0) as (s2 & E2 & _ & C & _).
  rewrite E in E2. injection E2 as <-.
  exists s. split; [exact E|]. apply N.
  destruct (config_tables _ _ C) as (_ & _ & ->). reflexivity.
Qed.

(** On the RP2350 a tick at ULTRA_LOW with a load below 2 does execute
    WFI. *)
Example rp2350_executes_wfi :
  let h := {| hw_now_ms := 0; hw_clk_ok := fun _ => true |} in
  let e :=
    {| env_us_entry := 50000; env_ms := 50; env_us_load := 50000;
       env_adc := 876; env_ms_timeouts := 50; env_hw := h;
       env_serial := []; env_us_exit := 50020 |} in
  option_map hw_log
    (calls [CallSetProfile PROFILE_ULTRA_LOW 0 0 h; CallRun e]
       (after_begin PICOMIMI_RP2350 false 0 0))
  = Some [EvWfi; EvVreg VREG_VOLTAGE_0_95; EvSetClock 50000 true;
          EvAdcTempSensor true; EvAdcInit].
Proof. vm_compute. reflexivity. Qed.

(** ** The accounting counters stay in range *)

Lemma sampled_counters (e : Env) (s : State) :
  counters_ok s -> counters_ok (sampled e s).
Proof.
  intros (Hl & Hi). unfold sampled.
  destruct (account_work_total (env_us_entry e) s) as (Ht & Hi0 & _ & _).
  set (s1 := account_work (env_us_entry e) s) in *.
  assert (C1 : counters_ok s1).
  { split; [rewrite Ht|rewrite Hi0; lia].
    destruct (_first_run s); [exact Hl|].
    apply Z.mod_pos_bound. lia. }
  clearbody s1. unfold _updateLoad.
  destruct (u64 (env_us_load e - _period_start_us s1)
            <? LOAD_PERIOD_MS * 1000); [exact C1|].
  destruct C1 as (_ & C1). unfold counters_ok.
  split_ifs;
    cbn [_total_loop_time_us _total_idle_time_us set_total_loop_time_us
         set_period_start_us set_avg_load set_instant_load _instant_load
         _avg_load];
    (split; [lia|exact C1]).
Qed.

Lemma sampler_counters (s s' : State) :
  sampler s' = sampler s -> counters_ok s -> counters_ok s'.
Proof.
  unfold sampler, counters_ok. intros E H.
  injection E as -> -> _ _ _ _. exact H.
Qed.

Lemma call_counters (c : Call) (s : State) :
  wf s = true -> counters_ok s ->
  exists s', call c s = Some s' /\ wf s' = true /\ counters_ok s'.
Proof.
  intros Hwf Hl.
  assert (Hstep : forall o, (exists s', o = Some s' /\ step_ok s s') ->
            exists s', o = Some s' /\ wf s' = true /\ counters_ok s').
  { intros o (s' & -> & W & S & _). exists s'.
    split; [reflexivity|]. split; [exact W|].
    exact (sampler_counters _ _ S Hl). }
  destruct c; cbn [call].
  - destruct (_init s) eqn:Hinit.
    + destruct (run_step e s Hwf Hinit) as (s' & -> & W & S & _).
      exists s'. split; [reflexivity|]. split; [exact W|].
      exact (sampler_counters _ _ S (sampled_counters e s Hl)).
    + rewrite (run_before_begin e s Hinit). eauto.
  - eexists. split; [reflexivity|]. split; [exact Hwf|].
    destruct Hl as (Hl & Hi). unfold counters_ok, idle, log.
    cbn [_total_loop_time_us _total_idle_time_us set_total_idle_time_us
         set_hw_log].
    split; [exact Hl|]. apply Z.mod_pos_bound. lia.
  - eexists. split; [reflexivity|]. split; [exact Hwf|].
    destruct Hl as (Hl & Hi). unfold counters_ok, idleMicros, log.
    cbn [_total_loop_time_us _total_idle_time_us set_total_idle_time_us
         set_hw_log].
    split; [exact Hl|]. apply Z.mod_pos_bound. lia.
  - apply Hstep, inputBoost_step, Hwf.
  - apply Hstep, setProfile_step, Hwf.
  - apply Hstep, setProfile_step, Hwf.
  - apply Hstep, setProfile_step, Hwf.
  - apply Hstep. eexists. split; [reflexivity|]. apply setAuto_step, Hwf.
Qed.

Lemma calls_counters (cs : list Call) (s : State) :
  wf s = true -> counters_ok s ->
  exists s', calls cs s = Some s' /\ wf s' = true /\ counters_ok s'.
Proof.
  revert s. induction cs as [|c cs IH]; intros s Hwf Hl.
  - exists s. auto.
  - cbn [calls].
    destruct (call_counters c s Hwf Hl) as (s1 & -> & W1 & L1). cbn [bind].
    apply IH; assumption.
Qed.


(** ** A sampling period without work *)

Lemma load_exponent (m : positive) (e : Z) :
  load_ok (S754_finite false m e) -> e <= 103.
Proof.
  intros ((He & Hm & Hc) & Hv). cbn [fval] in Hv.
  destruct (Z_le_gt_dec e 103) as [|Hgt]; [assumption|exfalso].
  destruct Hc as [->|Hc]; [lia|].
  assert (H1 : (IZR (2 ^ 23) <= IZR (Zpos m))%R) by (apply IZR_le; exact Hc).
  pose proof (bpow_le 0 e ltac:(lia)) as H2.
  change (bpow 0) with 1%R in H2.
  change (IZR (2 ^ 23)) with 8388608%R in H1. nra.
Qed.

Lemma smooth_zero_le (avg : spec_float) :
  load_ok avg -> F32.le (smooth avg (F32.of_Z 0)) avg = true.
Proof.
  intros Hok. pose proof Hok as (Ga & Va). unfold smooth, F32.le.
  change F32.mul with (SFmul 24 128). change F32.add with (SFadd 24 128).
  change (F32.sub (F32.of_Z 1) LOAD_SMOOTH)
    with (S754_finite false 11744051 (-24)).
  change LOAD_SMOOTH with (S754_finite false 10066330 (-25)).
  change (F32.of_Z 0) with (S754_zero false).
  change (SFmul 24 128 (S754_zero false) (S754_finite false 10066330 (-25)))
    with (S754_zero false).
  destruct avg as [s|s| |[] m e]; cbn [good] in Ga; try contradiction.
  - destruct s; reflexivity.
  - pose proof (load_exponent m e Hok) as He.
    destruct (mul_const_le m e Ga He (S754_finite false m e) 11744051 (-24)
                (IZR (Zpos m) * bpow e) Ga) as (G1 & V1);
      [cbn; lia | cbn [fval]; lra | |].
    { assert (Hc : (IZR 11744051 * bpow (-24) < IZR 1 * bpow 0)%R)
        by (apply val_lt with (e0 := -24); cbn; lia).
      change (bpow 0) with 1%R in Hc.
      assert (Hv : (0 < IZR (Zpos m) * bpow e)%R).
      { apply Rmult_lt_0_compat; [apply IZR_lt; lia | apply bpow_pos]. }
      assert (Hs : (IZR (Zpos m) * bpow e
                    < IZR (2 * Zpos m + 1) * bpow (e - 1))%R).
      { replace e with (e - 1 + 1) at 1 by lia. rewrite bpow_succ.
        rewrite plus_IZR, mult_IZR. pose proof (bpow_pos (e - 1)). nra. }
      change (Z.pos 11744051) with 11744051.
      nra. }
    set (p1 := SFmul 24 128 (S754_finite false m e)
                 (S754_finite false 11744051 (-24))) in *.
    destruct p1 as [s1|s1| |[] m1 e1]; cbn [good] in G1; try contradiction.
    + destruct s1; reflexivity.
    + cbn [SFadd]. apply good_le_bound; assumption.
Qed.

(** X15: a sampling period without work never raises the smoothed load.
    After [begin] and any calls, a load recomputation that finds less than
    1000 us of work in the period takes an instantaneous load of zero and
    leaves a smoothed load that is, in binary32, at most the one before. *)
Theorem idle_period_never_raises_load (chip : PicomimiChip) (manual : bool)
    (now_us now_ms : Z) (cs : list Call) :
  exists s,
    calls cs (after_begin chip manual now_us now_ms) = Some s
    /\ forall now,
         LOAD_PERIOD_MS * 1000 <= u64 (now - _period_start_us s) ->
         _total_loop_time_us s < 1000 ->
         _instant_load (_updateLoad now s) = F32.of_Z 0
         /\ F32.le (_avg_load (_updateLoad now s)) (_avg_load s) = true.
Proof.
  destruct (after_begin_wf chip manual now_us now_ms) as (W0 & _).
  assert (L0 : loads_ok (after_begin chip manual now_us now_ms)).
  { destruct chip; split; exact load_ok_zero. }
  destruct (calls_loads_ok cs _ W0 L0) as (s & E & _ & La & Li).
  exists s. split; [exact E|]. intros now Hper Hwork.
  assert (Ei : _instant_load (_updateLoad now s) = F32.of_Z 0).
  { rewrite updateLoad_instant by exact Hper. unfold load_sample.
    replace (_total_loop_time_us s <? 10 * IDLE_THRESHOLD_US) with true;
      [reflexivity|].
    symmetry. apply Z.ltb_lt. exact Hwork. }
  split; [exact Ei|].
  rewrite updateLoad_avg by exact Hper. rewrite Ei.
  apply smooth_zero_le, La.
Qed.

(** ** The scale-evaluation cycle is rate-limited *)

Lemma sampled_stamp (e : Env) (s : State) :
  control (sampled e s) = control s /\ hw_log (sampled e s) = hw_log s
  /\ _init (sampled e s) = _init s /\ _manual (sampled e s) = _manual s.
Proof.
  unfold sampled, _updateLoad, account_work.
  split_ifs; cbn; repeat split; reflexivity.
Qed.

Lemma scale_cycle_stamp (e : Env) (now_ms : Z) (s : State) :
  wf s = true ->
  exists s',
    scale_cycle e now_ms s = Some s' /\ step_ok s s'
    /\ _last_scale_ms s' = now_ms.
Proof.
  intros Hwf. unfold scale_cycle.
  destruct (thermal_step (env_adc e) (env_hw e) s Hwf) as (s1 & -> & H1).
  cbn [bind]. pose proof (step_ok_wf _ _ H1) as W1.
  destruct (timeouts_step (env_ms_timeouts e) (env_hw e) s1 W1)
    as (s2 & -> & H2).
  cbn [bind]. pose proof (step_ok_wf _ _ H2) as W2.
  assert (exists s3,
            (if negb (_override_on s2) then _scale (env_hw e) s2 else Some s2)
            = Some s3 /\ step_ok s2 s3) as (s3 & -> & H3).
  { destruct (negb (_override_on s2)).
    - apply scale_step, W2.
    - eexists. split; [reflexivity|]. apply step_ok_refl, W2. }
  cbn [bind]. eexists. split; [reflexivity|]. split; [|reflexivity].
  refine (step_ok_trans _ _ _ H1 (step_ok_trans _ _ _ H2
            (step_ok_trans _ _ _ H3 _))).
  frame_step (step_ok_wf _ _ H3).
Qed.

Lemma run_between_cycles (e : Env) (s : State) :
  _init s = true -> env_serial e = [] ->
  u64 (env_ms e - _last_scale_ms s) < SCALE_INTERVAL_MS ->
  exists s',
    run e s = Some s' /\ control s' = control s
    /\ (hw_log s' = hw_log s \/ hw_log s' = EvWfi :: hw_log s).
Proof.
  intros Hi Hs Hlt. unfold run. rewrite Hi, Hs. cbn [negb].
  fold (sampled e s).
  destruct (sampled_stamp e s) as (Ec & El & _ & _).
  assert (E0 : _last_scale_ms (sampled e s) = _last_scale_ms s).
  { unfold control in Ec. congruence. }
  rewrite E0.
  replace (SCALE_INTERVAL_MS <=? u64 (env_ms e - _last_scale_ms s))
    with false by (symmetry; apply Z.leb_gt; exact Hlt).
  cbn [bind]. set (s0 := sampled e s) in *.
  destruct (chip_eqb (_chip s0) PICOMIMI_RP2350
            && profile_eqb (_profile s0) PROFILE_ULTRA_LOW
            && F32.lt (_avg_load s0) (F32.of_Z ULTRA_DOWN)
            && negb (_throttled s0));
    destruct (_manual _); cbn [_handleSerial bind];
    eexists; (split; [reflexivity|]); (split; [exact Ec|]);
    cbn; rewrite El; auto.
Qed.



(** ** The console *)

Lemma set_cmd_same (s : State) : _cmd s = EmptyString -> set_cmd EmptyString s = s.
Proof. destruct s. cbn. intros ->. reflexivity. Qed.

Lemma serial_byte_eol (b : SerialByte) (s : State) :
  wf s = true -> is_eol (sb_char b) = true ->
  exists s', serial_byte b s = Some s' /\ wf s' = true
             /\ _cmd s' = EmptyString.
Proof.
  intros Hwf He. unfold serial_byte. unfold is_eol in He. rewrite He.
  cbv zeta.
  set (s0 := set_cmd (toLowerCase (trim (_cmd s))) s).
  assert (W0 : wf s0 = true) by exact Hwf.
  destruct (0 <? String.length (_cmd s0))%nat.
  - destruct (handle_command_step (_cmd s0) (sb_now_ms b) (sb_hw b) s0 W0)
      as (s1 & -> & W1 & _).
    cbn [bind]. eexists. split; [reflexivity|]. split; [exact W1|reflexivity].
  - cbn [bind]. eexists. split; [reflexivity|]. split; [exact W0|reflexivity].
Qed.

Lemma serial_byte_blank (b : SerialByte) (s : State) :
  is_eol (sb_char b) = true -> trim (_cmd s) = EmptyString ->
  serial_byte b s = Some (set_cmd EmptyString s).
Proof.
  intros He Ht. unfold serial_byte. unfold is_eol in He. rewrite He.
  cbv zeta. cbn [_cmd set_cmd]. rewrite Ht. cbn [toLowerCase String.length].
  cbn [Nat.ltb Nat.leb bind]. destruct s; reflexivity.
Qed.

(** X17: an empty line does nothing.  A line terminator received while the
    command buffer holds only white space runs no command and empties the
    buffer; every line terminator leaves the buffer empty, so the two bytes
    of a CR LF line ending run the command of the line once: handling both
    is the same as handling the first. *)
Theorem blank_line_runs_no_command (b1 b2 : SerialByte) (s : State) :
  wf s = true ->
  is_eol (sb_char b1) = true -> is_eol (sb_char b2) = true ->
  (trim (_cmd s) = EmptyString ->
   _handleSerial [b1] s = Some (set_cmd EmptyString s))
  /\ exists s',
       _handleSerial [b1] s = Some s'
       /\ _cmd s' = EmptyString
       /\ _handleSerial [b1; b2] s = Some s'.
Proof.
  intros Hwf H1 H2. split.
  - intros Ht. cbn [_handleSerial]. rewrite (serial_byte_blank b1 s H1 Ht).
    reflexivity.
  - destruct (serial_byte_eol b1 s Hwf H1) as (s1 & E1 & W1 & C1).
    exists s1. cbn [_handleSerial]. rewrite E1. cbn [bind].
    split; [reflexivity|]. split; [exact C1|].
    rewrite (serial_byte_blank b2 s1 H2) by (rewrite C1; reflexivity).
    cbn [bind]. rewrite (set_cmd_same s1 C1). reflexivity.
Qed.

Lemma blank_line_runs_no_command_witness :
  let h := {| hw_now_ms := 40; hw_clk_ok := fun _ => true |} in
  let cr := {| sb_char := "013"; sb_now_ms := 40; sb_hw := h |} in
  let lf := {| sb_char := "010"; sb_now_ms := 40; sb_hw := h |} in
  let s := set_cmd "perf" (after_begin PICOMIMI_RP2350 true 0 0) in
  wf s = true
  /\ is_eol (sb_char cr) = true /\ is_eol (sb_char lf) = true
  /\ exists s',
       _handleSerial [cr] s = Some s'
       /\ _cmd s' = EmptyString
       /\ _handleSerial [cr; lf] s = Some s'.
Proof.
  intros h cr lf s. split; [reflexivity|]. split; [reflexivity|].
  split; [reflexivity|].
  exact (proj2 (blank_line_runs_no_command cr lf s eq_refl eq_refl eq_refl)).
Defined.

Lemma turbo_first_char (cmd : string) :
  startsWith cmd "turbo" = true ->
  exists rest, cmd = String "t" rest.
Proof.
  unfold startsWith. destruct cmd as [|c rest]; [discriminate|].
  cbn [String.prefix].
  destruct (ascii_dec "t" c) as [<-|]; [eauto|discriminate].
Qed.

(** X18: a console line that starts with [turbo] pins TURBO for at most 3600
    seconds: it puts an override in force with profile TURBO, and the
    duration handed to [setTurbo] is 30 without an argument and otherwise
    the argument, as an unsigned 32-bit number, capped at 3600; a duration
    of zero gives an override without expiry time. *)
Theorem console_turbo_is_capped (cmd : string) (now_ms : Z) (h : Hw)
    (s : State) :
  wf s = true -> startsWith cmd "turbo" = true ->
  exists s' sec,
    handle_command cmd now_ms h s = Some s'
    /\ 0 <= sec <= 3600
    /\ sec = Z.min 3600 (command_seconds cmd 30)
    /\ (indexOf " " cmd <= 0 -> sec = 30)
    /\ _profile s' = PROFILE_TURBO
    /\ _override_on s' = true
    /\ _override_profile s' = PROFILE_TURBO
    /\ _override_end_ms s'
       = (if 0 <? sec then u32 (now_ms + u32 (sec * 1000)) else 0).
Proof.
  intros Hwf Hst. destruct (turbo_first_char cmd Hst) as (rest & Ec).
  unfold handle_command. rewrite Hst.
  replace (String.eqb cmd "gov" || String.eqb cmd "help" || String.eqb cmd "?")
    with false by (rewrite Ec; reflexivity).
  replace (String.eqb cmd "status" || String.eqb cmd "s")
    with false by (rewrite Ec; cbn; destruct rest; reflexivity).
  replace (String.eqb cmd "auto" || String.eqb cmd "a")
    with false by (rewrite Ec; reflexivity).
  unfold setTurbo.
  set (sec := if 3600 <? command_seconds cmd 30 then 3600
              else command_seconds cmd 30).
  assert (Hsec : sec = Z.min 3600 (command_seconds cmd 30)).
  { subst sec. destruct (Z.ltb_spec 3600 (command_seconds cmd 30)); lia. }
  assert (Hnn : 0 <= command_seconds cmd 30).
  { unfold command_seconds.
    destruct (0 <? indexOf " " cmd); [|lia].
    apply Z.mod_pos_bound. lia. }
  destruct (setProfile_effect PROFILE_TURBO sec now_ms h s Hwf)
    as (s' & E & _ & P & O & OP & End & _); [cbn; lia|].
  exists s', sec. split; [exact E|]. split; [lia|]. split; [exact Hsec|].
  split; [|auto].
  intros Hsp. rewrite Hsec. unfold command_seconds.
  replace (0 <? indexOf " " cmd) with false by (symmetry; lia). reflexivity.
Qed.

Lemma console_turbo_is_capped_witness :
  let h := {| hw_now_ms := 40; hw_clk_ok := fun _ => true |} in
  let s := after_begin PICOMIMI_RP2350 true 0 0 in
  wf s = true /\ startsWith "turbo 9000" "turbo" = true
  /\ exists s' sec,
       handle_command "turbo 9000" 40 h s = Some s'
       /\ 0 <= sec <= 3600
       /\ sec = Z.min 3600 (command_seconds "turbo 9000" 30)
       /\ _profile s' = PROFILE_TURBO
       /\ _override_on s' = true.
Proof.
  intros h s. split; [reflexivity|]. split; [reflexivity|].
  destruct (console_turbo_is_capped "turbo 9000" 40 h s eq_refl eq_refl)
    as (s' & sec & E & R & Es & _ & P & O & _).
  exists s', sec. auto.
Defined.

(** ** What the console cannot change *)

Lemma apply_beyond_console (h : Hw) (p : PowerProfile) (s : State) :
  wf s = true ->
  exists s', _apply h p s = Some s' /\ wf s' = true
             /\ beyond_console s' = beyond_console s.
Proof.
  intros Hwf. destruct (Z_lt_le_dec (ord p) 5) as [Hp|Hp].
  - destruct (apply_shape h p s Hwf Hp) as (khz & lg & ->).
    eexists. split; [reflexivity|].
    split; [apply applied_wf; assumption|reflexivity].
  - rewrite (apply_invalid h p s Hp). eauto.
Qed.

Lemma handle_command_beyond_console (cmd : string) (now_ms : Z) (h : Hw)
    (s : State) :
  wf s = true ->
  exists s', handle_command cmd now_ms h s = Some s' /\ wf s' = true
             /\ beyond_console s' = beyond_console s.
Proof.
  intros Hwf. unfold handle_command, setTurbo, setPowersave, setProfile.
  split_ifs;
    first [ eexists; split; [reflexivity|]; split; [exact Hwf|reflexivity]
          | match goal with
            | |- context [_apply ?h ?p ?s1] =>
                destruct (apply_beyond_console h p s1 Hwf)
                  as (s' & -> & W' & B');
                exists s'; split; [reflexivity|]; split; [exact W'|];
                rewrite B'; reflexivity
            end ].
Qed.

Lemma serial_byte_beyond_console (b : SerialByte) (s : State) :
  wf s = true ->
  exists s', serial_byte b s = Some s' /\ wf s' = true
             /\ beyond_console s' = beyond_console s.
Proof.
  intros Hwf. unfold serial_byte.
  destruct (Ascii.eqb (sb_char b) "010" || Ascii.eqb (sb_char b) "013").
  - cbv zeta.
    set (s0 := set_cmd (toLowerCase (trim (_cmd s))) s).
    assert (W0 : wf s0 = true) by exact Hwf.
    destruct (0 <? String.length (_cmd s0))%nat.
    + destruct (handle_command_beyond_console (_cmd s0) (sb_now_ms b)
                  (sb_hw b) s0 W0) as (s1 & -> & W1 & B1).
      cbn [bind]. eexists. split; [reflexivity|]. split; [exact W1|].
      etransitivity; [|exact B1]. reflexivity.
    + cbn [bind]. eexists. split; [reflexivity|].
      split; [exact W0|reflexivity].
  - eexists. split; [reflexivity|]. split; [exact Hwf|reflexivity].
Qed.

(** X19: whatever bytes arrive on the console, handling them returns on a
    well-formed governor and changes neither the load sampler, the
    configuration, the measured temperature, the throttled flag, the boost
    nor the time stamps of the tick: a console command can pin a profile,
    and it cannot clear a thermal throttle. *)
Theorem console_cannot_touch_sampler_or_throttle (input : list SerialByte)
    (s : State) :
  wf s = true ->
  exists s',
    _handleSerial input s = Some s'
    /\ wf s' = true
    /\ beyond_console s' = beyond_console s.
Proof.
  revert s. induction input as [|b rest IH]; intros s Hwf.
  - exists s. auto.
  - cbn [_handleSerial].
    destruct (serial_byte_beyond_console b s Hwf) as (s1 & -> & W1 & B1).
    cbn [bind]. destruct (IH s1 W1) as (s2 & E2 & W2 & B2).
    exists s2. split; [exact E2|]. split; [exact W2|]. congruence.
Qed.

Lemma console_cannot_touch_sampler_or_throttle_witness :
  let h := {| hw_now_ms := 40; hw_clk_ok := fun _ => true |} in
  let byte := fun c => {| sb_char := c; sb_now_ms := 40; sb_hw := h |} in
  let input := [byte "a"%char; byte "010"%char] in
  let s := set_throttled true (after_begin PICOMIMI_RP2350 true 0 0) in
  wf s = true
  /\ exists s',
       _handleSerial input s = Some s'
       /\ wf s' = true
       /\ beyond_console s' = beyond_console s.
Proof.
  intros h byte input s. split; [reflexivity|].
  apply console_cannot_touch_sampler_or_throttle. reflexivity.
Defined.
